(** * Code graph extractor: a shallow embedding of
    [tools/code_graph_extractor/extractor.py] and the properties of its
    block-boundary resolver, per-language extractors and incremental
    directory engine.

    Conventions of the embedding:
    - Text is a [string], a sequence of 8-bit characters.  The character
      classes of Python's [re] and [str] methods are modelled on the ASCII
      range; characters above 127 are classified as neither whitespace nor
      word characters, so the development speaks about ASCII source text,
      where [content.encode()] is the text itself.
    - [re] is modelled by a backtracking matcher with Python's order of
      alternatives, [hashlib.md5] by RFC 1321.
    - A call that can raise returns an [outcome]; the one exception the
      extractors themselves raise is the [IndexError] of the Python import
      loop.
    - The file system is a record of the operations the code uses;
      [servers.utils.read_text_file], which is not part of the extractor's
      sources, is one of them.
    - The accumulators of the directory run carry a ghost trace of the calls
      of [extract_from_file]. *)

From Stdlib Require Import String Ascii List ZArith Lia Bool QArith Permutation Sorted.
From stdpp Require Import base strings gmap.
Import ListNotations.
Open Scope string_scope.

(** [simpl] reduces [++] on strings when its first argument starts with a
    character. *)
#[local] Arguments String.append !s1 s2 : simpl nomatch.

(** ** Python [str] operations *)

Module Str.

Definition nl : ascii := "010"%char.

Definition code (c : ascii) : nat := nat_of_ascii c.

Definition in_range (lo hi : nat) (c : ascii) : bool :=
  (lo <=? code c)%nat && (code c <=? hi)%nat.

Definition is_upper (c : ascii) : bool := in_range 65 90 c.
Definition is_lower (c : ascii) : bool := in_range 97 122 c.
Definition is_digit (c : ascii) : bool := in_range 48 57 c.

(** [\w] on ASCII text: letters, digits and the underscore. *)
Definition is_word (c : ascii) : bool :=
  is_upper c || is_lower c || is_digit c || Ascii.eqb c "_".

(** [str.isspace] / [\s] on ASCII text: TAB..CR, FS..US and the blank. *)
Definition is_space (c : ascii) : bool := in_range 9 13 c || in_range 28 32 c.

Fixpoint rev_onto (s acc : string) : string :=
  match s with
  | EmptyString => acc
  | String c s' => rev_onto s' (String c acc)
  end.

Definition rev (s : string) : string := rev_onto s EmptyString.

(** [s[:n]] *)
Fixpoint take (n : nat) (s : string) : string :=
  match n, s with
  | S n', String c s' => String c (take n' s')
  | _, _ => EmptyString
  end.

(** [s[n:]] *)
Fixpoint drop (n : nat) (s : string) : string :=
  match n, s with
  | S n', String _ s' => drop n' s'
  | _, _ => s
  end.

(** [s[i:j]] for [i <= j] *)
Definition slice (i j : nat) (s : string) : string := take (j - i) (drop i s).

(** [s.count(c)] for a one-character [c] *)
Fixpoint count_char (c : ascii) (s : string) : nat :=
  match s with
  | EmptyString => 0
  | String d s' => (if Ascii.eqb d c then 1 else 0) + count_char c s'
  end.

(** [s.split(sep)] for a one-character separator: never the empty list. *)
Fixpoint split_on (sep : ascii) (s : string) : list string :=
  match s with
  | EmptyString => [EmptyString]
  | String c s' =>
      if Ascii.eqb c sep then EmptyString :: split_on sep s'
      else match split_on sep s' with
           | [] => [String c EmptyString]
           | w :: ws => String c w :: ws
           end
  end.

(** [s.split(sep)[0]] *)
Fixpoint before (sep : ascii) (s : string) : string :=
  match s with
  | EmptyString => EmptyString
  | String c s' => if Ascii.eqb c sep then EmptyString else String c (before sep s')
  end.

Fixpoint lstrip (s : string) : string :=
  match s with
  | String c s' => if is_space c then lstrip s' else s
  | EmptyString => EmptyString
  end.

Definition rstrip (s : string) : string := rev (lstrip (rev s)).

Definition strip (s : string) : string := rstrip (lstrip s).

(** Leading whitespace width: [len(s) - len(s.lstrip())]. *)
Definition indent_of (s : string) : nat := String.length s - String.length (lstrip s).

Fixpoint startswith (p s : string) : bool :=
  match p, s with
  | EmptyString, _ => true
  | String a p', String b s' => Ascii.eqb a b && startswith p' s'
  | String _ _, EmptyString => false
  end.

Definition endswith (p s : string) : bool := startswith (rev p) (rev s).

(** [needle in hay] *)
Fixpoint contains (needle hay : string) : bool :=
  startswith needle hay ||
  match hay with
  | EmptyString => false
  | String _ hay' => contains needle hay'
  end.

(** The first word of [s.split()], or [None] when [s.split()] is empty. *)
Fixpoint until_space (s : string) : string :=
  match s with
  | EmptyString => EmptyString
  | String c s' => if is_space c then EmptyString else String c (until_space s')
  end.

Definition first_word (s : string) : option string :=
  match lstrip s with
  | EmptyString => None
  | w => Some (until_space w)
  end.

(** [s.lower()] on ASCII text. *)
Definition lower_char (c : ascii) : ascii :=
  if is_upper c then ascii_of_nat (code c + 32) else c.

Fixpoint lower (s : string) : string :=
  match s with
  | EmptyString => EmptyString
  | String c s' => String (lower_char c) (lower s')
  end.

(** Python truthiness of a string. *)
Definition nonempty (s : string) : bool :=
  match s with EmptyString => false | _ => true end.

(** Index of the last occurrence of [c] in [s], as [s.rfind(c)]. *)
Fixpoint rfind_from (c : ascii) (s : string) (i : nat) (last : option nat) : option nat :=
  match s with
  | EmptyString => last
  | String d s' => rfind_from c s' (S i) (if Ascii.eqb d c then Some i else last)
  end.

Definition rfind (c : ascii) (s : string) : option nat := rfind_from c s 0 None.

End Str.

(** ** Python [re]: a backtracking matcher

    The patterns of the extractor use literals, character classes, [^] and
    [$] under [re.MULTILINE], sequencing, alternation, greedy and lazy
    repetition, optional parts and capturing groups.  [exec] tries the
    alternatives in Python's order (left alternative first, greedy repetition
    tries one more iteration first, lazy repetition tries to stop first) and
    returns the first success, as the [sre] engine does.  No repeated body of
    the extractor's patterns can match the empty string, so an iteration that
    makes no progress is cut. *)

Module Re.

Inductive regex : Type :=
| Emp
| Cls (p : ascii -> bool)
| Bol
| Eol
| Seq (r1 r2 : regex)
| Alt (r1 r2 : regex)
| Rep (greedy : bool) (r : regex)
| Grp (n : nat) (r : regex).

Record cursor : Type := Cursor {
  c_pos : nat;
  c_prev : option ascii;
  c_rest : string
}.

(** Group number, start and end offset; the latest binding first. *)
Definition captures : Type := list (nat * (nat * nat)).

Definition at_bol (c : cursor) : bool :=
  match c_prev c with
  | None => true
  | Some ch => Ascii.eqb ch Str.nl
  end.

Definition at_eol (c : cursor) : bool :=
  match c_rest c with
  | EmptyString => true
  | String ch _ => Ascii.eqb ch Str.nl
  end.

Fixpoint exec {A : Type} (r : regex) (c : cursor) (caps : captures)
    (k : cursor -> captures -> option A) {struct r} : option A :=
  match r with
  | Emp => k c caps
  | Cls p =>
      match c_rest c with
      | String ch rest =>
          if p ch then k (Cursor (S (c_pos c)) (Some ch) rest) caps else None
      | EmptyString => None
      end
  | Bol => if at_bol c then k c caps else None
  | Eol => if at_eol c then k c caps else None
  | Seq r1 r2 => exec r1 c caps (fun c' caps' => exec r2 c' caps' k)
  | Alt r1 r2 =>
      match exec r1 c caps k with
      | Some x => Some x
      | None => exec r2 c caps k
      end
  | Rep greedy r1 =>
      (fix loop (fuel : nat) (c : cursor) (caps : captures) {struct fuel} : option A :=
         match fuel with
         | O => k c caps
         | S fuel' =>
             let again c' caps' :=
               if (c_pos c <? c_pos c')%nat then loop fuel' c' caps' else None in
             if greedy then
               match exec r1 c caps again with
               | Some x => Some x
               | None => k c caps
               end
             else
               match k c caps with
               | Some x => Some x
               | None => exec r1 c caps again
               end
         end) (String.length (c_rest c)) c caps
  | Grp n r1 =>
      exec r1 c caps (fun c' caps' => k c' ((n, (c_pos c, c_pos c')) :: caps'))
  end.

(** Derived forms. *)
Definition chr (a : ascii) : regex := Cls (Ascii.eqb a).
Definition star (r : regex) : regex := Rep true r.
Definition lazy_star (r : regex) : regex := Rep false r.
Definition plus (r : regex) : regex := Seq r (Rep true r).
Definition opt (r : regex) : regex := Alt r Emp.

Fixpoint lit (s : string) : regex :=
  match s with
  | EmptyString => Emp
  | String a EmptyString => chr a
  | String a s' => Seq (chr a) (lit s')
  end.

Fixpoint seqs (rs : list regex) : regex :=
  match rs with
  | [] => Emp
  | [r] => r
  | r :: rs' => Seq r (seqs rs')
  end.

Fixpoint alts (rs : list regex) : regex :=
  match rs with
  | [] => Cls (fun _ => false)
  | [r] => r
  | r :: rs' => Alt r (alts rs')
  end.

Definition one_of (s : string) : ascii -> bool :=
  fun c => existsb (Ascii.eqb c) (list_ascii_of_string s).

Definition none_of (s : string) : ascii -> bool := fun c => negb (one_of s c).

Definition space : regex := Cls Str.is_space.        (* \s *)
Definition word : regex := Cls Str.is_word.          (* \w *)
Definition nonspace : regex := Cls (fun c => negb (Str.is_space c)).  (* \S *)
Definition dot : regex := Cls (fun c => negb (Ascii.eqb c Str.nl)).   (* . *)
Definition any : regex := Cls (fun _ => true).       (* [\s\S] *)

(** A match object: [start()], [end()], [group(0)] and the numbered groups
    [group(1)], [group(2)], ... ([None] for a group that did not take part). *)
Record rmatch : Type := Match {
  m_start : nat;
  m_end : nat;
  m_text : string;
  m_groups : list (option string)
}.

Fixpoint lookup_cap (n : nat) (caps : captures) : option (nat * nat) :=
  match caps with
  | [] => None
  | (g, span) :: caps' => if (g =? n)%nat then Some span else lookup_cap n caps'
  end.

Definition cap_text (full : string) (caps : captures) (n : nat) : option string :=
  match lookup_cap n caps with
  | Some (i, j) => Some (Str.slice i j full)
  | None => None
  end.

Definition mk_match (ngroups : nat) (full : string) (i j : nat) (caps : captures) : rmatch :=
  Match i j (Str.slice i j full) (map (cap_text full caps) (seq 1 ngroups)).

(** [m.group(n)] for [n >= 1]. *)
Definition group (m : rmatch) (n : nat) : option string :=
  match nth_error (m_groups m) (n - 1) with
  | Some g => g
  | None => None
  end.

Definition match_at (r : regex) (c : cursor) : option (nat * captures) :=
  exec r c [] (fun c' caps => Some (c_pos c', caps)).

(** The scan of [finditer]: leftmost match first, the next search starting
    where the previous match ended ([skip] counts the characters of the
    current match still to be passed). *)
Fixpoint scan (r : regex) (ngroups : nat) (full : string)
    (prev : option ascii) (pos : nat) (rest : string) (skip : nat) : list rmatch :=
  match skip with
  | S skip' =>
      match rest with
      | EmptyString => []
      | String ch rest' => scan r ngroups full (Some ch) (S pos) rest' skip'
      end
  | O =>
      match match_at r (Cursor pos prev rest) with
      | Some (e, caps) =>
          mk_match ngroups full pos e caps ::
          match rest with
          | EmptyString => []
          | String ch rest' => scan r ngroups full (Some ch) (S pos) rest' (e - pos - 1)
          end
      | None =>
          match rest with
          | EmptyString => []
          | String ch rest' => scan r ngroups full (Some ch) (S pos) rest' 0
          end
      end
  end.

(** [pattern.finditer(s)] *)
Definition finditer (r : regex) (ngroups : nat) (s : string) : list rmatch :=
  scan r ngroups s None 0 s 0.

(** Remove the characters covered by the spans (ascending, disjoint). *)
Fixpoint live (spans : list (nat * nat)) (pos : nat) : list (nat * nat) :=
  match spans with
  | (i, j) :: spans' => if (j <=? pos)%nat then live spans' pos else spans
  | [] => []
  end.

Fixpoint cut (spans : list (nat * nat)) (pos : nat) (s : string) : string :=
  match s with
  | EmptyString => EmptyString
  | String ch s' =>
      match live spans pos with
      | [] => s
      | (i, j) :: spans' =>
          if (i <=? pos)%nat then cut ((i, j) :: spans') (S pos) s'
          else String ch (cut ((i, j) :: spans') (S pos) s')
      end
  end.

(** [re.sub(pattern, '', s)] *)
Definition sub_empty (r : regex) (s : string) : string :=
  cut (map (fun m => (m_start m, m_end m)) (finditer r 0 s)) 0 s.

End Re.

(** ** [hashlib.md5(...).hexdigest()] (RFC 1321), on byte strings *)

Module MD5.

Local Open Scope N_scope.

Definition mask32 : N := 4294967295.
Definition add32 (x y : N) : N := N.land (x + y) mask32.
Definition not32 (x : N) : N := N.lxor x mask32.
Definition rotl32 (x : N) (n : N) : N :=
  N.lor (N.land (N.shiftl x n) mask32) (N.shiftr x (32 - n)).

Definition K : list N :=
  [ 3614090360; 3905402710; 606105819; 3250441966; 4118548399; 1200080426; 2821735955; 4249261313;
    1770035416; 2336552879; 4294925233; 2304563134; 1804603682; 4254626195; 2792965006; 1236535329;
    4129170786; 3225465664; 643717713; 3921069994; 3593408605; 38016083; 3634488961; 3889429448;
    568446438; 3275163606; 4107603335; 1163531501; 2850285829; 4243563512; 1735328473; 2368359562;
    4294588738; 2272392833; 1839030562; 4259657740; 2763975236; 1272893353; 4139469664; 3200236656;
    681279174; 3936430074; 3572445317; 76029189; 3654602809; 3873151461; 530742520; 3299628645;
    4096336452; 1126891415; 2878612391; 4237533241; 1700485571; 2399980690; 4293915773; 2240044497;
    1873313359; 4264355552; 2734768916; 1309151649; 4149444226; 3174756917; 718787259; 3951481745 ].

Definition S : list N :=
  [ 7; 12; 17; 22; 7; 12; 17; 22; 7; 12; 17; 22; 7; 12; 17; 22;
    5; 9; 14; 20; 5; 9; 14; 20; 5; 9; 14; 20; 5; 9; 14; 20;
    4; 11; 16; 23; 4; 11; 16; 23; 4; 11; 16; 23; 4; 11; 16; 23;
    6; 10; 15; 21; 6; 10; 15; 21; 6; 10; 15; 21; 6; 10; 15; 21 ].

Definition state : Type := (N * N * N * N)%type.

Definition init : state := (1732584193, 4023233417, 2562383102, 271733878).

Definition round (M : list N) (st : state) (i : nat) : state :=
  let '(A, B, C, D) := st in
  let '(F, g) :=
    if (i <? 16)%nat then (N.lor (N.land B C) (N.land (not32 B) D), i)
    else if (i <? 32)%nat then
      (N.lor (N.land D B) (N.land (not32 D) C), ((5 * i + 1) mod 16)%nat)
    else if (i <? 48)%nat then (N.lxor B (N.lxor C D), ((3 * i + 5) mod 16)%nat)
    else (N.lxor C (N.lor B (not32 D)), ((7 * i) mod 16)%nat) in
  let F' := add32 (add32 (add32 F A) (nth i K 0)) (nth g M 0) in
  (D, add32 B (rotl32 F' (nth i S 0)), B, C).

Definition compress (st : state) (M : list N) : state :=
  let '(a0, b0, c0, d0) := st in
  let '(A, B, C, D) := fold_left (round M) (seq 0 64) st in
  (add32 a0 A, add32 b0 B, add32 c0 C, add32 d0 D).

(** Little-endian bytes of a number, [n] of them. *)
Fixpoint le_bytes (n : nat) (x : N) : list N :=
  match n with
  | O => []
  | Datatypes.S n' => N.land x 255 :: le_bytes n' (N.shiftr x 8)
  end.

Fixpoint of_le (bs : list N) : N :=
  match bs with
  | [] => 0
  | b :: bs' => b + 256 * of_le bs'
  end.

(** The message followed by 0x80, zeros up to 56 mod 64, and the bit length. *)
Definition pad (bytes : list N) : list N :=
  let len := List.length bytes in
  let zeros := ((119 - len mod 64) mod 64)%nat in
  bytes ++ [128] ++ repeat 0 zeros ++ le_bytes 8 (N.of_nat (8 * len)).

Fixpoint chunks (k : nat) (fuel : nat) (l : list N) : list (list N) :=
  match fuel, l with
  | Datatypes.S fuel', _ :: _ => firstn k l :: chunks k fuel' (skipn k l)
  | _, _ => []
  end.

Definition words (block : list N) : list N := map of_le (chunks 4 16 block).

Definition hex_digit (n : N) : ascii :=
  if n <? 10 then ascii_of_N (48 + n) else ascii_of_N (87 + n).

Definition hex_byte (b : N) : string :=
  String (hex_digit (N.shiftr b 4)) (String (hex_digit (N.land b 15)) EmptyString).

Definition digest_bytes (s : string) : list N :=
  let bytes := map N_of_ascii (list_ascii_of_string s) in
  let padded := pad bytes in
  let blocks := chunks 64 (List.length padded) padded in
  let '(a, b, c, d) := fold_left compress (map words blocks) init in
  le_bytes 4 a ++ le_bytes 4 b ++ le_bytes 4 c ++ le_bytes 4 d.

Definition hexdigest (s : string) : string :=
  fold_right (fun b acc => hex_byte b ++ acc)%string EmptyString (digest_bytes s).

End MD5.

(** ** Data model *)

Record CodeNode : Type := mkNode {
  node_id : string;
  node_kind : string;
  node_name : string;
  node_file_path : string;
  line_start : nat;
  line_end : nat;
  signature : option string;
  node_language : option string;
  visibility : option string;
  node_hash : option string
}.

Record CodeEdge : Type := mkEdge {
  from_id : string;
  to_id : string;
  edge_kind : string;
  line_number : option nat;
  confidence : Q
}.

Record ExtractionResult : Type := mkResult {
  nodes : list CodeNode;
  edges : list CodeEdge;
  file_path : string;
  file_hash : string;
  language : string;
  errors : list string
}.

(** Python exceptions leave a call through [Raise]. *)
Inductive outcome (A : Type) : Type :=
| Ret (a : A)
| Raise (exn : string).
Arguments Ret {A} a.
Arguments Raise {A} exn.

Definition bind {A B : Type} (x : outcome A) (f : A -> outcome B) : outcome B :=
  match x with
  | Ret a => f a
  | Raise e => Raise e
  end.

(** The two confidence literals of the source. *)
Definition conf_literal : Q := 1.
Definition conf_name_only : Q := 8 # 10.

(** ** Constants *)

Definition SUPPORTED_EXTENSIONS : list (string * string) :=
  [ (".ts", "typescript"); (".tsx", "typescript");
    (".js", "javascript"); (".jsx", "javascript");
    (".py", "python"); (".go", "go"); (".java", "java") ].

Definition IGNORED_DIRS : list string :=
  [ "node_modules"; ".git"; "__pycache__"; ".venv"; "venv";
    "dist"; "build"; ".next"; "coverage" ].

Fixpoint dict_get (d : list (string * string)) (key : string) : option string :=
  match d with
  | [] => None
  | (k, v) :: d' => if String.eqb k key then Some v else dict_get d' key
  end.

Definition mem (x : string) (l : list string) : bool := existsb (String.eqb x) l.

(** ** Helper functions *)

(** [os.path.splitext(p)[1]]: the extension starts at the last dot of the
    last path component, unless that component has only leading dots
    before it. *)
Fixpoint all_dots (s : string) : bool :=
  match s with
  | EmptyString => true
  | String c s' => Ascii.eqb c "." && all_dots s'
  end.

Definition splitext_ext (p : string) : string :=
  let sepIndex := Str.rfind "/" p in
  let filenameIndex := match sepIndex with Some i => S i | None => 0 end in
  match Str.rfind "." p with
  | Some dotIndex =>
      if (filenameIndex <=? dotIndex)%nat then
        if all_dots (Str.slice filenameIndex dotIndex p) then EmptyString
        else Str.drop dotIndex p
      else EmptyString
  | None => EmptyString
  end.

(** [os.path.basename(p)] *)
Definition basename (p : string) : string :=
  match Str.rfind "/" p with
  | Some i => Str.drop (S i) p
  | None => p
  end.

Definition make_node_id (kind file_path : string) (name : option string) : string :=
  let base := kind ++ "." ++ file_path in
  match name with
  | Some n => if Str.nonempty n then base ++ ":" ++ n else base
  | None => base
  end.

Definition detect_language (file_path : string) : option string :=
  dict_get SUPPORTED_EXTENSIONS (Str.lower (splitext_ext file_path)).

(** ** The pattern tables of [RegexExtractor] *)

Module Patterns.
Import Re.

Definition dquote : ascii := "034"%char.
Definition squote : ascii := "039"%char.

Definition is_quote (c : ascii) : bool := Ascii.eqb c squote || Ascii.eqb c dquote.

Definition spaces : regex := star space.     (* \s* *)
Definition spaces1 : regex := plus space.    (* \s+ *)
Definition ident : regex := plus word.       (* \w+ *)

(** [kw\s+] *)
Definition kw (s : string) : regex := Seq (lit s) spaces1.

(** [[\w.]], [[\w.*]], [[\w.<>]], [[\w\s,.<>]], [[\w.<>\[\]]], [[A-Z0-9_]] *)
Definition c_dotted (c : ascii) : bool := Str.is_word c || one_of "." c.
Definition c_import (c : ascii) : bool := Str.is_word c || one_of ".*" c.
Definition c_type (c : ascii) : bool := Str.is_word c || one_of ".<>" c.
Definition c_type_list (c : ascii) : bool :=
  Str.is_word c || Str.is_space c || one_of ",.<>" c.
Definition c_type_array (c : ascii) : bool := Str.is_word c || one_of ".<>[]" c.
Definition c_const (c : ascii) : bool :=
  Str.is_upper c || Str.is_digit c || Ascii.eqb c "_".

(** *** TS_PATTERNS *)

Definition TS_import : regex :=
  seqs [ Bol; kw "import";
         opt (seqs [ alts [ seqs [chr "{"; plus (Cls (none_of "}")); chr "}"];
                            seqs [chr "*"; spaces1; kw "as"; ident];
                            ident ];
                     spaces1; kw "from" ]);
         Cls is_quote; Grp 1 (plus (Cls (fun c => negb (is_quote c)))); Cls is_quote ].

Definition TS_export_function : regex :=
  seqs [ Bol; kw "export"; opt (kw "async"); kw "function"; Grp 1 ident ].

Definition TS_export_const_arrow : regex :=
  seqs [ Bol; kw "export"; kw "const"; Grp 1 ident; spaces; chr "="; spaces;
         opt (kw "async"); chr "("; star (Cls (none_of ")")); chr ")"; spaces;
         opt (seqs [chr ":"; spaces; plus (Cls (none_of "="))]); spaces; lit "=>" ].

Definition TS_class : regex :=
  seqs [ Bol; opt (kw "export"); opt (kw "abstract"); kw "class"; Grp 1 ident;
         opt (seqs [spaces1; kw "extends"; Grp 2 ident]);
         opt (seqs [spaces1; kw "implements"; Grp 3 (plus (Cls (none_of "{")))]) ].

Definition TS_interface : regex :=
  seqs [ Bol; opt (kw "export"); kw "interface"; Grp 1 ident;
         opt (seqs [spaces1; kw "extends"; Grp 2 (plus (Cls (none_of "{")))]) ].

Definition TS_type : regex :=
  seqs [ Bol; opt (kw "export"); kw "type"; Grp 1 ident; spaces; chr "=" ].

(** *** PY_PATTERNS *)

Definition PY_import : regex :=
  seqs [ Bol; opt (seqs [kw "from"; Grp 1 (plus nonspace); spaces1]);
         kw "import"; Grp 2 (plus dot); Eol ].

Definition PY_function : regex :=
  seqs [ Bol; opt (kw "async"); kw "def"; Grp 1 ident; spaces; chr "(" ].

Definition PY_class : regex :=
  seqs [ Bol; kw "class"; Grp 1 ident;
         opt (seqs [spaces; chr "("; Grp 2 (star (Cls (none_of ")"))); chr ")"]);
         chr ":" ].

Definition PY_const : regex :=
  seqs [ Bol; Grp 1 (Seq (Cls Str.is_upper) (star (Cls c_const))); spaces; chr "=" ].

(** *** JAVA_PATTERNS *)

(** [(?:public\s+|private\s+|protected\s+)?] *)
Definition access : regex :=
  opt (alts [kw "public"; kw "private"; kw "protected"]).

(** [(?:<[^>]+>)?] *)
Definition generics : regex :=
  opt (seqs [chr "<"; plus (Cls (none_of ">")); chr ">"]).

Definition JAVA_package : regex :=
  seqs [ Bol; spaces; kw "package"; Grp 1 (plus (Cls c_dotted)); spaces; chr ";" ].

Definition JAVA_import : regex :=
  seqs [ Bol; spaces; kw "import"; opt (kw "static");
         Grp 1 (plus (Cls c_import)); spaces; chr ";" ].

Definition JAVA_class : regex :=
  seqs [ Bol; spaces; access; opt (kw "abstract"); opt (kw "final"); opt (kw "static");
         kw "class"; Grp 1 ident; generics;
         opt (seqs [spaces1; kw "extends"; Grp 2 (plus (Cls c_type))]);
         opt (seqs [spaces1; kw "implements"; Grp 3 (plus (Cls c_type_list))]);
         spaces; chr "{" ].

Definition JAVA_interface : regex :=
  seqs [ Bol; spaces; access; kw "interface"; Grp 1 ident; generics;
         opt (seqs [spaces1; kw "extends"; Grp 2 (plus (Cls c_type_list))]);
         spaces; chr "{" ].

Definition JAVA_enum : regex :=
  seqs [ Bol; spaces; access; kw "enum"; Grp 1 ident;
         opt (seqs [spaces1; kw "implements"; Grp 2 (plus (Cls c_type_list))]);
         spaces; chr "{" ].

Definition JAVA_annotation : regex :=
  seqs [ Bol; spaces; access; kw "@interface"; Grp 1 ident; spaces; chr "{" ].

Definition JAVA_method : regex :=
  seqs [ Bol; spaces;
         star (seqs [ chr "@"; ident;
                      opt (seqs [chr "("; star (Cls (none_of ")")); chr ")"]);
                      spaces1 ]);
         opt (Seq (alts [lit "public"; lit "private"; lit "protected"]) spaces1);
         opt (kw "static"); opt (kw "final"); opt (kw "abstract");
         opt (kw "synchronized"); opt (kw "native");
         opt (seqs [chr "<"; plus (Cls (none_of ">")); chr ">"; spaces1]);
         Grp 1 (alts [ Seq (Cls Str.is_upper) (star (Cls c_type_array));
                       lit "void"; lit "int"; lit "long"; lit "short"; lit "byte";
                       lit "char"; lit "boolean"; lit "float"; lit "double" ]);
         spaces1; Grp 2 ident; spaces; chr "(";
         Grp 3 (star (Cls (none_of ")"))); chr ")";
         opt (seqs [spaces1; kw "throws"; Grp 4 (plus (Cls c_type_list))]);
         spaces; Alt (chr "{") (chr ";") ].

Definition JAVA_constant : regex :=
  seqs [ Bol; spaces; access; kw "static"; kw "final";
         Grp 1 (plus (Cls c_type_array)); spaces1;
         Grp 2 (Seq (Cls Str.is_upper) (star (Cls c_const))); spaces; chr "=" ].

(** [/\*[\s\S]*?\*/] and [//[^\n]*] *)
Definition block_comment : regex := seqs [lit "/*"; lazy_star any; lit "*/"].
Definition line_comment : regex := seqs [lit "//"; star dot].

End Patterns.

(** ** Block-boundary resolver *)

(** Result of scanning the characters of one line: the function returned
    inside the line, or the loop state carried to the next line. *)
Inductive line_scan (St : Type) : Type :=
| Found
| Carry (st : St).
Arguments Found {St}.
Arguments Carry {St} st.

Definition is_open (c : ascii) : bool := Ascii.eqb c "{".
Definition is_close (c : ascii) : bool := Ascii.eqb c "}".

(** *** [_find_block_end]: JS/TS *)

Fixpoint block_chars (line : string) (brace_count : Z) (started : bool)
    : line_scan (Z * bool) :=
  match line with
  | EmptyString => Carry (brace_count, started)
  | String char rest =>
      if is_open char then block_chars rest (brace_count + 1)%Z true
      else if is_close char then
        let brace_count := (brace_count - 1)%Z in
        if started && (brace_count =? 0)%Z then Found
        else block_chars rest brace_count started
      else block_chars rest brace_count started
  end.

Fixpoint block_lines (lines : list string) (i : nat) (brace_count : Z) (started : bool)
    : option nat :=
  match lines with
  | [] => None
  | line :: lines' =>
      match block_chars line brace_count started with
      | Found => Some (i + 1)%nat
      | Carry (brace_count', started') => block_lines lines' (S i) brace_count' started'
      end
  end.

Definition _find_block_end (lines : list string) (start_line : nat) : nat :=
  match block_lines (skipn start_line lines) start_line 0%Z false with
  | Some n => n
  | None => List.length lines
  end.

(** *** [_find_python_block_end] *)

Fixpoint python_block_lines (lines : list string) (i : nat) (start_indent : nat)
    : option nat :=
  match lines with
  | [] => None
  | line :: lines' =>
      let stripped := Str.strip line in
      if negb (Str.nonempty stripped) then python_block_lines lines' (S i) start_indent
      else if Str.startswith "#" stripped then python_block_lines lines' (S i) start_indent
      else if (Str.indent_of line <=? start_indent)%nat then Some i
      else python_block_lines lines' (S i) start_indent
  end.

Definition _find_python_block_end (lines : list string) (start_line : nat) : nat :=
  match nth_error lines start_line with
  | None => (start_line + 1)%nat
  | Some first =>
      match python_block_lines (skipn (start_line + 1) lines) (start_line + 1)
                               (Str.indent_of first) with
      | Some n => n
      | None => List.length lines
      end
  end.

(** *** [_find_java_block_end] *)

Record java_scan : Type := JavaScan {
  brace_count : Z;
  started : bool;
  in_string : bool;
  in_char : bool;
  escape_next : bool
}.

Definition java_scan_init : java_scan := JavaScan 0 false false false false.

Fixpoint java_block_chars (line : string) (st : java_scan) : line_scan java_scan :=
  match line with
  | EmptyString => Carry st
  | String char rest =>
      let '(JavaScan count started in_string in_char escape_next) := st in
      if escape_next then
        java_block_chars rest (JavaScan count started in_string in_char false)
      else if Ascii.eqb char "\" then
        java_block_chars rest (JavaScan count started in_string in_char true)
      else if Ascii.eqb char Patterns.dquote && negb in_char then
        java_block_chars rest (JavaScan count started (negb in_string) in_char false)
      else if Ascii.eqb char Patterns.squote && negb in_string then
        java_block_chars rest (JavaScan count started in_string (negb in_char) false)
      else if in_string || in_char then java_block_chars rest st
      else if is_open char then
        java_block_chars rest (JavaScan (count + 1)%Z true in_string in_char false)
      else if is_close char then
        let count := (count - 1)%Z in
        if started && (count =? 0)%Z then Found
        else java_block_chars rest (JavaScan count started in_string in_char false)
      else java_block_chars rest st
  end.

Fixpoint java_block_lines (lines : list string) (i : nat) (st : java_scan) : option nat :=
  match lines with
  | [] => None
  | line :: lines' =>
      match java_block_chars line st with
      | Found => Some (i + 1)%nat
      | Carry st' => java_block_lines lines' (S i) st'
      end
  end.

Definition _find_java_block_end (lines : list string) (start_line : nat) : nat :=
  match java_block_lines (skipn start_line lines) start_line java_scan_init with
  | Some n => n
  | None => List.length lines
  end.

(** [_remove_java_comments] *)
Definition _remove_java_comments (content : string) : string :=
  let content := Re.sub_empty Patterns.block_comment content in
  Re.sub_empty Patterns.line_comment content.

(** ** Per-language extractors *)

(** A batch under construction: [result.nodes] and [result.edges]. *)
Definition batch : Type := (list CodeNode * list CodeEdge)%type.

Definition emit (b : batch) (ns : list CodeNode) (es : list CodeEdge) : batch :=
  ((fst b ++ ns)%list, (snd b ++ es)%list).

(** [content[:match.start()].count('\n') + 1] *)
Definition line_of (content : string) (m : Re.rmatch) : nat :=
  (Str.count_char Str.nl (Str.take (Re.m_start m) content) + 1)%nat.

(** A group outside every optional part always takes part in a match. *)
Definition req (m : Re.rmatch) (n : nat) : string :=
  match Re.group m n with
  | Some s => s
  | None => EmptyString
  end.

(** An optional group, with Python's truthiness test [if g:]. *)
Definition truthy (g : option string) : option string :=
  match g with
  | Some s => if Str.nonempty s then Some s else None
  | None => None
  end.

Definition file_node_of (language content file_path : string) : CodeNode :=
  mkNode (make_node_id "file" file_path None) "file" (basename file_path) file_path
         0 0 None (Some language) None (Some (MD5.hexdigest content)).

Definition defines_edge (file_id target : string) : CodeEdge :=
  mkEdge file_id target "defines" None conf_literal.

Definition imports_edge (file_id target : string) (line_num : nat) : CodeEdge :=
  mkEdge file_id target "imports" (Some line_num) conf_literal.

Definition name_edge (from to kind : string) (line_num : nat) : CodeEdge :=
  mkEdge from to kind (Some line_num) conf_name_only.

Module TS.

Section Extract.
Variables (content file_path : string).

Let lines : list string := Str.split_on Str.nl content.
Let file_id : string := make_node_id "file" file_path None.

Definition import_step (b : batch) (m : Re.rmatch) : batch :=
  let import_path := req m 1 in
  let line_num := line_of content m in
  emit b [] [imports_edge file_id ("module." ++ import_path) line_num].

(** Shared by the [export_function] and [export_const_arrow] loops. *)
Definition function_step (b : batch) (m : Re.rmatch) : batch :=
  let name := req m 1 in
  let line_num := line_of content m in
  let line_end := _find_block_end lines (line_num - 1) in
  let func_id := make_node_id "function" file_path (Some name) in
  emit b [mkNode func_id "function" name file_path line_num line_end
                 None (Some "typescript") (Some "public") None]
         [defines_edge file_id func_id].

Definition implements_edges (class_id : string) (line_num : nat)
    (implements : option string) : list CodeEdge :=
  match truthy implements with
  | Some s =>
      flat_map (fun iface =>
                  let iface := Str.strip iface in
                  if Str.nonempty iface
                  then [name_edge class_id ("interface." ++ iface) "implements" line_num]
                  else [])
               (Str.split_on "," s)
  | None => []
  end.

Definition extends_edges (class_id : string) (line_num : nat)
    (extends : option string) : list CodeEdge :=
  match truthy extends with
  | Some s => [name_edge class_id ("class." ++ s) "extends" line_num]
  | None => []
  end.

Definition class_step (b : batch) (m : Re.rmatch) : batch :=
  let name := req m 1 in
  let line_num := line_of content m in
  let line_end := _find_block_end lines (line_num - 1) in
  let class_id := make_node_id "class" file_path (Some name) in
  emit b [mkNode class_id "class" name file_path line_num line_end
                 None (Some "typescript") (Some "public") None]
         ([defines_edge file_id class_id]
            ++ extends_edges class_id line_num (Re.group m 2)
            ++ implements_edges class_id line_num (Re.group m 3))%list.

Definition interface_step (b : batch) (m : Re.rmatch) : batch :=
  let name := req m 1 in
  let line_num := line_of content m in
  let line_end := _find_block_end lines (line_num - 1) in
  let iface_id := make_node_id "interface" file_path (Some name) in
  emit b [mkNode iface_id "interface" name file_path line_num line_end
                 None (Some "typescript") None None]
         [defines_edge file_id iface_id].

Definition type_step (b : batch) (m : Re.rmatch) : batch :=
  let name := req m 1 in
  let line_num := line_of content m in
  let type_id := make_node_id "type" file_path (Some name) in
  emit b [mkNode type_id "type" name file_path line_num line_num
                 None (Some "typescript") None None]
         [defines_edge file_id type_id].

Definition extract_batch : batch :=
  let b := ([file_node_of "typescript" content file_path], []) in
  let b := fold_left import_step (Re.finditer Patterns.TS_import 1 content) b in
  let b := fold_left function_step (Re.finditer Patterns.TS_export_function 1 content) b in
  let b := fold_left function_step (Re.finditer Patterns.TS_export_const_arrow 1 content) b in
  let b := fold_left class_step (Re.finditer Patterns.TS_class 3 content) b in
  let b := fold_left interface_step (Re.finditer Patterns.TS_interface 2 content) b in
  fold_left type_step (Re.finditer Patterns.TS_type 1 content) b.

End Extract.

End TS.

(** [RegexExtractor.extract_typescript] *)
Definition extract_typescript (content file_path : string) : ExtractionResult :=
  let b := TS.extract_batch content file_path in
  mkResult (fst b) (snd b) file_path (MD5.hexdigest content) "typescript" [].

Module PY.

Section Extract.
Variables (content file_path : string).

Let lines : list string := Str.split_on Str.nl content.
Let file_id : string := make_node_id "file" file_path None.

(** [imports.split(',')[0].strip().split()[0]] raises [IndexError] when the
    text before the first comma is blank. *)
Definition import_target (m : Re.rmatch) : outcome string :=
  match truthy (Re.group m 1) with
  | Some from_module => Ret ("module." ++ from_module)
  | None =>
      match Str.first_word (Str.strip (Str.before "," (req m 2))) with
      | Some w => Ret ("module." ++ w)
      | None => Raise "IndexError"
      end
  end.

Definition import_step (b : outcome batch) (m : Re.rmatch) : outcome batch :=
  bind b (fun b =>
  bind (import_target m) (fun target_id =>
  Ret (emit b [] [imports_edge file_id target_id (line_of content m)]))).

Definition function_step (b : batch) (m : Re.rmatch) : batch :=
  let name := req m 1 in
  let line_num := line_of content m in
  let line_end := _find_python_block_end lines (line_num - 1) in
  let visibility := if Str.startswith "_" name then "private" else "public" in
  let func_id := make_node_id "function" file_path (Some name) in
  emit b [mkNode func_id "function" name file_path line_num line_end
                 None (Some "python") (Some visibility) None]
         [defines_edge file_id func_id].

Definition bases_edges (class_id : string) (line_num : nat)
    (bases : option string) : list CodeEdge :=
  match truthy bases with
  | Some s =>
      flat_map (fun base =>
                  let base := Str.strip base in
                  if Str.nonempty base && negb (String.eqb base "object")
                  then [name_edge class_id ("class." ++ base) "extends" line_num]
                  else [])
               (Str.split_on "," s)
  | None => []
  end.

Definition class_step (b : batch) (m : Re.rmatch) : batch :=
  let name := req m 1 in
  let line_num := line_of content m in
  let line_end := _find_python_block_end lines (line_num - 1) in
  let class_id := make_node_id "class" file_path (Some name) in
  emit b [mkNode class_id "class" name file_path line_num line_end
                 None (Some "python") None None]
         ([defines_edge file_id class_id]
            ++ bases_edges class_id line_num (Re.group m 2))%list.

Definition const_step (b : batch) (m : Re.rmatch) : batch :=
  let name := req m 1 in
  let line_num := line_of content m in
  let const_id := make_node_id "constant" file_path (Some name) in
  emit b [mkNode const_id "constant" name file_path line_num line_num
                 None (Some "python") None None]
         [defines_edge file_id const_id].

Definition extract_batch : outcome batch :=
  let b := ([file_node_of "python" content file_path], []) in
  bind (fold_left import_step (Re.finditer Patterns.PY_import 2 content) (Ret b)) (fun b =>
  let b := fold_left function_step (Re.finditer Patterns.PY_function 1 content) b in
  let b := fold_left class_step (Re.finditer Patterns.PY_class 2 content) b in
  Ret (fold_left const_step (Re.finditer Patterns.PY_const 1 content) b)).

End Extract.

End PY.

(** [RegexExtractor.extract_python] *)
Definition extract_python (content file_path : string) : outcome ExtractionResult :=
  bind (PY.extract_batch content file_path) (fun b =>
  Ret (mkResult (fst b) (snd b) file_path (MD5.hexdigest content) "python" [])).

Module Java.

(** [(class_name, class_id, line_end)]; the head is [class_stack[-1]]. *)
Definition stack_entry : Type := (string * string * nat)%type.

(** [(name, id, line_start, line_end)] *)
Definition type_range : Type := (string * string * nat * nat)%type.

Definition range_id (t : type_range) : string := snd (fst (fst t)).
Definition range_start (t : type_range) : nat := snd (fst t).
Definition range_end (t : type_range) : nat := snd t.

Definition TYPE_KINDS : list string := ["class"; "interface"; "enum"; "annotation"].

Definition NOT_A_METHOD : list string :=
  ["throw"; "return"; "new"; "if"; "for"; "while"; "switch"].

(** The [if 'public' in match_text: ... else: 'package'] cascade. *)
Definition visibility_of (match_text : string) : string :=
  if Str.contains "public" match_text then "public"
  else if Str.contains "protected" match_text then "protected"
  else if Str.contains "private" match_text then "private"
  else "package".

(** [f"{package_name}.{name}" if package_name else name] *)
Definition qualify (package_name name : string) : string :=
  if Str.nonempty package_name then package_name ++ "." ++ name else name.

(** [s.strip().split('<')[0].strip()] *)
Definition bare_name (s : string) : string :=
  Str.strip (Str.before "<" (Str.strip s)).

(** [while class_stack and line_num >= class_stack[-1][2]: class_stack.pop()] *)
Fixpoint pop_expired (line_num : nat) (class_stack : list stack_entry) : list stack_entry :=
  match class_stack with
  | (_, _, top_end) :: below =>
      if (top_end <=? line_num)%nat then pop_expired line_num below else class_stack
  | [] => []
  end.

(** [type_ranges.sort(key=lambda x: x[2])]: a stable sort on [line_start]. *)
Fixpoint insert_range (t : type_range) (l : list type_range) : list type_range :=
  match l with
  | [] => [t]
  | u :: l' =>
      if (range_start t <=? range_start u)%nat then t :: l else u :: insert_range t l'
  end.

Definition sort_ranges (l : list type_range) : list type_range :=
  fold_right insert_range [] l.

Definition is_type_node (n : CodeNode) : bool := mem (node_kind n) TYPE_KINDS.

Definition type_names_of (ns : list CodeNode) : list string :=
  map node_name (List.filter is_type_node ns).

Definition type_ranges_of (ns : list CodeNode) : list type_range :=
  sort_ranges (map (fun n => (node_name n, node_id n, line_start n, line_end n))
                   (List.filter is_type_node ns)).

Definition encloses (line_num : nat) (t : type_range) : bool :=
  (range_start t <? line_num)%nat && (line_num <? range_end t)%nat.

(** The loop over [reversed(type_ranges)] with its [break]. *)
Definition containing_class (type_ranges : list type_range) (line_num : nat)
    : option string :=
  match find (encloses line_num) (List.rev type_ranges) with
  | Some t => Some (range_id t)
  | None => None
  end.

(** One edge per comma-separated token with a non-empty bare name. *)
Definition list_edges (from prefix kind : string) (line_num : nat)
    (names : option string) : list CodeEdge :=
  match truthy names with
  | Some s =>
      flat_map (fun tok =>
                  let tok_name := bare_name tok in
                  if Str.nonempty tok_name
                  then [name_edge from (prefix ++ tok_name) kind line_num]
                  else [])
               (Str.split_on "," s)
  | None => []
  end.

Definition extends_edges (class_id : string) (line_num : nat)
    (extends : option string) : list CodeEdge :=
  match truthy extends with
  | Some s => [name_edge class_id ("class." ++ bare_name s) "extends" line_num]
  | None => []
  end.

Section Extract.
Variables (content file_path : string).

Let cleaned_content : string := _remove_java_comments content.
Let lines : list string := Str.split_on Str.nl cleaned_content.
Let file_id : string := make_node_id "file" file_path None.

(** The first [package] match, or [''] *)
Definition package_name : string :=
  match Re.finditer Patterns.JAVA_package 1 cleaned_content with
  | m :: _ => req m 1
  | [] => EmptyString
  end.

Definition import_target (import_path : string) : string :=
  if Str.endswith ".*" import_path
  then "package." ++ Str.take (String.length import_path - 2) import_path
  else "class." ++ import_path.

Definition import_step (b : batch) (m : Re.rmatch) : batch :=
  let import_path := req m 1 in
  let line_num := line_of cleaned_content m in
  emit b [] [imports_edge file_id (import_target import_path) line_num].

(** The class loop threads [class_stack] next to the batch. *)
Definition class_step (st : batch * list stack_entry) (m : Re.rmatch)
    : batch * list stack_entry :=
  let '(b, class_stack) := st in
  let name := req m 1 in
  let line_num := line_of cleaned_content m in
  let line_end := _find_java_block_end lines (line_num - 1) in
  let visibility := visibility_of (Re.m_text m) in
  let class_id := make_node_id "class" file_path (Some (qualify package_name name)) in
  let class_node := mkNode class_id "class" name file_path line_num line_end
                           None (Some "java") (Some visibility) None in
  let parent_edge :=
    match class_stack with
    | (_, parent_id, parent_end) :: _ =>
        if (line_num <? parent_end)%nat
        then mkEdge parent_id class_id "contains" (Some line_num) conf_literal
        else defines_edge file_id class_id
    | [] => defines_edge file_id class_id
    end in
  (emit b [class_node]
        ([parent_edge]
           ++ extends_edges class_id line_num (Re.group m 2)
           ++ list_edges class_id "interface." "implements" line_num (Re.group m 3))%list,
   (name, class_id, line_end) :: pop_expired line_num class_stack).

Definition interface_step (b : batch) (m : Re.rmatch) : batch :=
  let name := req m 1 in
  let line_num := line_of cleaned_content m in
  let line_end := _find_java_block_end lines (line_num - 1) in
  let iface_id := make_node_id "interface" file_path (Some (qualify package_name name)) in
  emit b [mkNode iface_id "interface" name file_path line_num line_end
                 None (Some "java") None None]
         ([defines_edge file_id iface_id]
            ++ list_edges iface_id "interface." "extends" line_num (Re.group m 2))%list.

Definition enum_step (b : batch) (m : Re.rmatch) : batch :=
  let name := req m 1 in
  let line_num := line_of cleaned_content m in
  let line_end := _find_java_block_end lines (line_num - 1) in
  let enum_id := make_node_id "enum" file_path (Some (qualify package_name name)) in
  emit b [mkNode enum_id "enum" name file_path line_num line_end
                 None (Some "java") None None]
         ([defines_edge file_id enum_id]
            ++ list_edges enum_id "interface." "implements" line_num (Re.group m 2))%list.

Definition annotation_step (b : batch) (m : Re.rmatch) : batch :=
  let name := req m 1 in
  let line_num := line_of cleaned_content m in
  let line_end := _find_java_block_end lines (line_num - 1) in
  let annotation_id :=
    make_node_id "annotation" file_path (Some (qualify package_name name)) in
  emit b [mkNode annotation_id "annotation" name file_path line_num line_end
                 None (Some "java") None None]
         [defines_edge file_id annotation_id].

(** A method match that the loop skips with [continue]. *)
Definition suppressed (type_names : list string) (m : Re.rmatch) : bool :=
  let return_type := Str.strip (req m 1) in
  let name := req m 2 in
  (mem name type_names && String.eqb return_type name) || mem return_type NOT_A_METHOD.

Definition method_signature (m : Re.rmatch) : string :=
  let base := Str.strip (req m 1) ++ " " ++ req m 2 ++ "(" ++ req m 3 ++ ")" in
  match truthy (Re.group m 4) with
  | Some throws => base ++ " throws " ++ Str.strip throws
  | None => base
  end.

Definition method_step (type_names : list string) (type_ranges : list type_range)
    (b : batch) (m : Re.rmatch) : batch :=
  if suppressed type_names m then b
  else
    let name := req m 2 in
    let line_num := line_of cleaned_content m in
    let line_end := _find_java_block_end lines (line_num - 1) in
    let visibility := visibility_of (Re.m_text m) in
    let method_id := make_node_id "function" file_path (Some name) in
    let method_node := mkNode method_id "function" name file_path line_num line_end
                              (Some (method_signature m)) (Some "java")
                              (Some visibility) None in
    let owner_edge :=
      match truthy (containing_class type_ranges line_num) with
      | Some type_id => mkEdge type_id method_id "contains" (Some line_num) conf_literal
      | None => defines_edge file_id method_id
      end in
    emit b [method_node] [owner_edge].

Definition constant_step (b : batch) (m : Re.rmatch) : batch :=
  let name := req m 2 in
  let line_num := line_of cleaned_content m in
  let const_id := make_node_id "constant" file_path (Some name) in
  emit b [mkNode const_id "constant" name file_path line_num line_num
                 None (Some "java") None None]
         [defines_edge file_id const_id].

(** The batch after the four type loops, where [type_names] and
    [type_ranges] are collected. *)
Definition types_batch : batch :=
  let b := ([file_node_of "java" content file_path], []) in
  let b := fold_left import_step (Re.finditer Patterns.JAVA_import 1 cleaned_content) b in
  let b := fst (fold_left class_step (Re.finditer Patterns.JAVA_class 3 cleaned_content)
                          (b, [])) in
  let b := fold_left interface_step
                     (Re.finditer Patterns.JAVA_interface 2 cleaned_content) b in
  let b := fold_left enum_step (Re.finditer Patterns.JAVA_enum 2 cleaned_content) b in
  fold_left annotation_step (Re.finditer Patterns.JAVA_annotation 1 cleaned_content) b.

Definition extract_batch : batch :=
  let b := types_batch in
  let type_names := type_names_of (fst b) in
  let type_ranges := type_ranges_of (fst b) in
  let b := fold_left (method_step type_names type_ranges)
                     (Re.finditer Patterns.JAVA_method 4 cleaned_content) b in
  fold_left constant_step (Re.finditer Patterns.JAVA_constant 2 cleaned_content) b.

End Extract.

End Java.

(** [RegexExtractor.extract_java] *)
Definition extract_java (content file_path : string) : ExtractionResult :=
  let b := Java.extract_batch content file_path in
  mkResult (fst b) (snd b) file_path (MD5.hexdigest content) "java" [].

(** ** Main API *)

(** What a read of a text file does.  [servers.utils.read_text_file] is not
    among the sources of the extractor: it is taken as a parameter of the
    file system, returning the decoded text or raising. *)
Inductive read_result : Type :=
| ReadOk (content : string)
| ReadFileNotFound (msg : string)       (* FileNotFoundError, with [str(e)] *)
| ReadUnicodeDecodeError (msg : string) (* UnicodeDecodeError, with [str(e)] *)
| ReadOtherError (exn : string).        (* any other exception *)

(** A directory as [os.walk] sees it: sub-directories and file names. *)
#[local] Set Warnings "-register-all".
Inductive dir_tree : Type :=
| DirTree (dirs : list (string * dir_tree)) (files : list string).

Record FileSystem : Type := {
  path_exists : string -> bool;            (* os.path.exists *)
  path_isdir : string -> bool;             (* os.path.isdir *)
  read_bytes : string -> outcome string;   (* open(p, 'rb').read() *)
  read_text_file : string -> read_result;
  tree_at : string -> dir_tree             (* the tree below a directory *)
}.

(** [ExtractionResult(file_path=file_path, errors=[msg])] *)
Definition error_result (file_path msg : string) : ExtractionResult :=
  mkResult [] [] file_path EmptyString EmptyString [msg].

Definition extract_from_file (fs : FileSystem) (file_path : string)
    : outcome ExtractionResult :=
  if negb (path_exists fs file_path) then
    Ret (error_result file_path ("File not found: " ++ file_path))
  else
    match detect_language file_path with
    | None => Ret (error_result file_path ("Unsupported file type: " ++ file_path))
    | Some language =>
        match read_text_file fs file_path with
        | ReadFileNotFound msg | ReadUnicodeDecodeError msg =>
            Ret (error_result file_path ("Failed to read file: " ++ msg))
        | ReadOtherError exn => Raise exn
        | ReadOk content =>
            if mem language ["typescript"; "javascript"] then
              Ret (extract_typescript content file_path)
            else if String.eqb language "python" then
              extract_python content file_path
            else if String.eqb language "java" then
              Ret (extract_java content file_path)
            else
              Ret (mkResult [] [] file_path EmptyString language
                            ["Extractor not implemented for: " ++ language])
        end
    end.

(** [compute_file_hash] *)
Definition compute_file_hash (fs : FileSystem) (file_path : string) : outcome string :=
  bind (read_bytes fs file_path) (fun bytes => Ret (MD5.hexdigest bytes)).

(** [os.path.join(a, b)] *)
Definition path_join (a b : string) : string :=
  if Str.startswith "/" b then b
  else if negb (Str.nonempty a) || Str.endswith "/" a then a ++ b
  else a ++ "/" ++ b.

(** [os.path.relpath] of a path below the walked directory: the names from
    the directory down, joined. *)
Definition rel_join (rel name : string) : string :=
  if Str.nonempty rel then rel ++ "/" ++ name else name.

(** One file met by the walk: [file_path] and [rel_path]. *)
Record walk_entry : Type := Entry {
  entry_path : string;
  entry_rel : string
}.

Definition supported_file (filename : string) : bool :=
  match dict_get SUPPORTED_EXTENSIONS (Str.lower (splitext_ext filename)) with
  | Some _ => true
  | None => false
  end.

(** [os.walk(directory)] top-down with [dirs[:]] pruned of [IGNORED_DIRS],
    keeping the files with a supported extension, in the order met. *)
Fixpoint walk (root rel : string) (t : dir_tree) : list walk_entry :=
  match t with
  | DirTree dirs files =>
      (map (fun filename => Entry (path_join root filename) (rel_join rel filename))
           (List.filter supported_file files)
       ++ (fix walk_dirs (ds : list (string * dir_tree)) : list walk_entry :=
             match ds with
             | [] => []
             | (d, sub) :: ds' =>
                 ((if mem d IGNORED_DIRS then []
                   else walk (path_join root d) (rel_join rel d) sub)
                  ++ walk_dirs ds')%list
             end) dirs)%list
  end.

(** The accumulators of [extract_from_directory].  [calls] is a ghost
    trace: the arguments of the calls of [extract_from_file], in order. *)
Record dir_state : Type := DirState {
  all_nodes : list CodeNode;
  all_edges : list CodeEdge;
  new_hashes : gmap string string;
  dir_errors : list string;
  files_processed : nat;
  files_skipped : nat;
  calls : list string
}.

Definition dir_init : dir_state := DirState [] [] ∅ [] 0 0 [].

(** [rel_path in file_hashes and file_hashes[rel_path] == current_hash] *)
Definition unchanged (file_hashes : gmap string string) (rel_path current_hash : string)
    : bool :=
  match file_hashes !! rel_path with
  | Some h => String.eqb h current_hash
  | None => false
  end.

(** The three ways the loop body leaves the accumulators: the file is
    skipped, its extraction reported errors, or its extraction succeeded. *)
Definition skipped_state (st : dir_state) (e : walk_entry) (current_hash : string)
    : dir_state :=
  DirState (all_nodes st) (all_edges st)
           (<[entry_rel e := current_hash]> (new_hashes st))
           (dir_errors st) (files_processed st) (S (files_skipped st)) (calls st).

Definition failed_state (st : dir_state) (e : walk_entry) (result : ExtractionResult)
    : dir_state :=
  DirState (all_nodes st) (all_edges st) (new_hashes st)
           (dir_errors st ++ errors result)%list
           (files_processed st) (files_skipped st)
           (calls st ++ [entry_path e])%list.

Definition processed_state (st : dir_state) (e : walk_entry) (result : ExtractionResult)
    : dir_state :=
  DirState (all_nodes st ++ nodes result)%list
           (all_edges st ++ edges result)%list
           (<[entry_rel e := file_hash result]> (new_hashes st))
           (dir_errors st)
           (S (files_processed st)) (files_skipped st)
           (calls st ++ [entry_path e])%list.

(** The part of the loop body from the call of [extract_from_file] on. *)
Definition extract_step (fs : FileSystem) (st : dir_state) (e : walk_entry)
    : outcome dir_state :=
  bind (extract_from_file fs (entry_path e)) (fun result =>
  match errors result with
  | _ :: _ => Ret (failed_state st e result)
  | [] => Ret (processed_state st e result)
  end).

(** The body of the loop over the files of the walk. *)
Definition file_step (fs : FileSystem) (incremental : bool)
    (file_hashes : gmap string string) (st : dir_state) (e : walk_entry)
    : outcome dir_state :=
  if incremental then
    bind (compute_file_hash fs (entry_path e)) (fun current_hash =>
    if unchanged file_hashes (entry_rel e) current_hash
    then Ret (skipped_state st e current_hash)
    else extract_step fs st e)
  else extract_step fs st e.

Fixpoint run_files (fs : FileSystem) (incremental : bool)
    (file_hashes : gmap string string) (es : list walk_entry) (st : dir_state)
    : outcome dir_state :=
  match es with
  | [] => Ret st
  | e :: es' =>
      bind (file_step fs incremental file_hashes st e)
           (run_files fs incremental file_hashes es')
  end.

(** The files the walk of [directory] meets. *)
Definition walk_files (fs : FileSystem) (directory : string) : list walk_entry :=
  walk directory EmptyString (tree_at fs directory).

(** [extract_from_directory]; the returned dictionary is the final state. *)
Definition extract_from_directory (fs : FileSystem) (directory : string)
    (incremental : bool) (file_hashes : option (gmap string string))
    : outcome dir_state :=
  if negb (path_isdir fs directory) then
    Ret (DirState [] [] ∅ ["Directory not found: " ++ directory] 0 0 [])
  else
    let file_hashes := default ∅ file_hashes in
    run_files fs incremental file_hashes (walk_files fs directory) dir_init.

(** The id of a node and the (from, to, kind) triple of an edge. *)
Definition edge_key (e : CodeEdge) : string * string * string :=
  (from_id e, to_id e, edge_kind e).

(** What one pass of the loop body did, when it did not raise. *)
Inductive step_kind (fs : FileSystem) (incremental : bool)
    (file_hashes : gmap string string)
    (st : dir_state) (e : walk_entry) (st' : dir_state) : Prop :=
| StepSkipped (h : string) :
    incremental = true ->
    compute_file_hash fs (entry_path e) = Ret h ->
    unchanged file_hashes (entry_rel e) h = true ->
    st' = skipped_state st e h -> step_kind fs incremental file_hashes st e st'
| StepFailed (r : ExtractionResult) :
    extract_from_file fs (entry_path e) = Ret r ->
    errors r <> [] ->
    st' = failed_state st e r -> step_kind fs incremental file_hashes st e st'
| StepProcessed (r : ExtractionResult) :
    extract_from_file fs (entry_path e) = Ret r ->
    errors r = [] ->
    st' = processed_state st e r -> step_kind fs incremental file_hashes st e st'.

(** A node or edge of the batch was returned by a call of the extractor. *)
Definition extracted_from (fs : FileSystem) {A : Type}
    (part : ExtractionResult -> list A)
    (es : list walk_entry) (out : dir_state) (x : A) : Prop :=
  exists e r, In e es /\ In (entry_path e) (calls out) /\
              extract_from_file fs (entry_path e) = Ret r /\ errors r = [] /\
              In x (part r).

(** ** The identifier scheme *)

Definition KINDS : list string :=
  [ "file"; "class"; "interface"; "enum"; "annotation";
    "function"; "type"; "constant" ].

(** The id the scheme gives to a node of a file: [kind.path] for the file
    node, [kind.path:package.name] for a type, [kind.path:name] otherwise
    (TypeScript and Python have no package: [package_name] is empty). *)
Definition scheme_id (package_name file_path : string) (n : CodeNode) : string :=
  if String.eqb (node_kind n) "file" then make_node_id "file" file_path None
  else if Java.is_type_node n then
    make_node_id (node_kind n) file_path
                 (Some (Java.qualify package_name (node_name n)))
  else make_node_id (node_kind n) file_path (Some (node_name n)).

Definition well_formed_node (package_name path : string) (n : CodeNode) : Prop :=
  In (node_kind n) KINDS /\
  node_file_path n = path /\
  node_id n = scheme_id package_name path n /\
  (node_kind n = "file" -> node_name n = basename path).

Definition well_formed_batch (package_name path : string) (b : batch) : Prop :=
  Forall (well_formed_node package_name path) (fst b).

(** The part of an id after [kind.file_path]. *)
Definition id_suffix (name : option string) : string :=
  match name with
  | Some n => if Str.nonempty n then ":" ++ n else EmptyString
  | None => EmptyString
  end.

(** The name the scheme puts into the id of a node. *)
Definition scheme_name (package_name : string) (n : CodeNode) : option string :=
  if String.eqb (node_kind n) "file" then None
  else if Java.is_type_node n then Some (Java.qualify package_name (node_name n))
  else Some (node_name n).

(** ** Innermost enclosing type *)

(** The ranges are in ascending order of [line_start]. *)
Fixpoint ascending (l : list Java.type_range) : Prop :=
  match l with
  | [] => True
  | t :: l' =>
      (forall u, In u l' -> (Java.range_start t <= Java.range_start u)%nat) /\
      ascending l'
  end.

Definition strictly_encloses (line_num : nat) (t : Java.type_range) : Prop :=
  (Java.range_start t < line_num)%nat /\ (line_num < Java.range_end t)%nat.

(** [t] is a range that strictly contains the line, and no range that
    strictly contains the line starts later. *)
Definition innermost_enclosing (ranges : list Java.type_range) (line_num : nat)
    (t : Java.type_range) : Prop :=
  In t ranges /\ strictly_encloses line_num t /\
  forall u, In u ranges -> strictly_encloses line_num u ->
            (Java.range_start u <= Java.range_start t)%nat.

(** ** The block end as the claim words it

    A second, independent description of the Java block end: first the
    braces that are real (outside single- and double-quoted literals, a
    backslash taking the next character with it), then the line on which
    the depth of the real braces returns to zero after having been
    positive. *)

Inductive brace : Type := OpenBrace | CloseBrace.

Record quote_state : Type := QuoteState {
  q_string : bool;
  q_char : bool;
  q_escape : bool
}.

Definition quote_init : quote_state := QuoteState false false false.

(** The real braces of a line, and the quote state at its end. *)
Fixpoint real_braces (line : string) (q : quote_state) : list brace * quote_state :=
  match line with
  | EmptyString => ([], q)
  | String char rest =>
      if q_escape q then real_braces rest (QuoteState (q_string q) (q_char q) false)
      else if Ascii.eqb char "\" then
        real_braces rest (QuoteState (q_string q) (q_char q) true)
      else if Ascii.eqb char Patterns.dquote && negb (q_char q) then
        real_braces rest (QuoteState (negb (q_string q)) (q_char q) false)
      else if Ascii.eqb char Patterns.squote && negb (q_string q) then
        real_braces rest (QuoteState (q_string q) (negb (q_char q)) false)
      else if q_string q || q_char q then real_braces rest q
      else
        let '(bs, q') := real_braces rest q in
        if is_open char then (OpenBrace :: bs, q')
        else if is_close char then (CloseBrace :: bs, q')
        else (bs, q')
  end.

(** Follow the depth over the braces of a line; [positive] records that the
    depth has been above zero. *)
Fixpoint depth_walk (bs : list brace) (depth : Z) (positive : bool)
    : line_scan (Z * bool) :=
  match bs with
  | [] => Carry (depth, positive)
  | OpenBrace :: bs' => depth_walk bs' (depth + 1)%Z (positive || (0 <? depth + 1)%Z)
  | CloseBrace :: bs' =>
      if positive && (depth - 1 =? 0)%Z then Found
      else depth_walk bs' (depth - 1)%Z positive
  end.

Fixpoint depth_lines (lines : list string) (i : nat) (q : quote_state)
    (depth : Z) (positive : bool) : option nat :=
  match lines with
  | [] => None
  | line :: lines' =>
      let '(bs, q') := real_braces line q in
      match depth_walk bs depth positive with
      | Found => Some (i + 1)%nat
      | Carry (depth', positive') => depth_lines lines' (S i) q' depth' positive'
      end
  end.

(** The line where the real depth returns to zero after having been
    positive, or the last line. *)
Definition real_block_end (lines : list string) (start_line : nat) : nat :=
  match depth_lines (skipn start_line lines) start_line quote_init 0%Z false with
  | Some n => n
  | None => List.length lines
  end.

(** The state of the Java scan and the state of the description agree. *)
Definition scan_agrees (st : java_scan) (q : quote_state) (depth : Z) (positive : bool)
    : Prop :=
  brace_count st = depth /\
  in_string st = q_string q /\ in_char st = q_char q /\ escape_next st = q_escape q /\
  (positive = true -> started st = true) /\
  (started st = true -> positive = false -> (depth <= 0)%Z).

(** ** Supertype edges *)

Definition SUPERTYPE_KINDS : list string := ["extends"; "implements"].




(** ** The directory run, file by file *)

(** What a call of the extractor on [p] adds to the batch: the nodes (or
    edges) of an error-free result, nothing otherwise. *)
Definition contribution (fs : FileSystem) {A : Type}
    (part : ExtractionResult -> list A) (p : string) : list A :=
  match extract_from_file fs p with
  | Ret r => match errors r with [] => part r | _ :: _ => [] end
  | Raise _ => []
  end.

(** The errors a call of the extractor on [p] reports. *)
Definition reported (fs : FileSystem) (p : string) : list string :=
  match extract_from_file fs p with
  | Ret r => errors r
  | Raise _ => []
  end.

(** The call of the extractor on [p] returns an error-free result. *)
Definition succeeded (fs : FileSystem) (p : string) : bool :=
  match extract_from_file fs p with
  | Ret r => match errors r with [] => true | _ :: _ => false end
  | Raise _ => false
  end.

(** The checksum the loop body records for an entry, if any. *)
Definition recorded_by_extract (fs : FileSystem) (e : walk_entry) : option string :=
  match extract_from_file fs (entry_path e) with
  | Ret r => match errors r with [] => Some (file_hash r) | _ :: _ => None end
  | Raise _ => None
  end.

Definition entry_hash (fs : FileSystem) (incremental : bool)
    (file_hashes : gmap string string) (e : walk_entry) : option string :=
  if incremental then
    match compute_file_hash fs (entry_path e) with
    | Ret h => if unchanged file_hashes (entry_rel e) h then Some h
               else recorded_by_extract fs e
    | Raise _ => None
    end
  else recorded_by_extract fs e.

(** The raw bytes of the file are read, and the text, when it decodes, is
    those bytes (an ASCII or UTF-8 file read without translation). *)
Definition reads_as_stored (fs : FileSystem) (e : walk_entry) : Prop :=
  exists bytes, read_bytes fs (entry_path e) = Ret bytes /\
    forall content, read_text_file fs (entry_path e) = ReadOk content -> content = bytes.

(** ** Well-formed batches *)

Definition LITERAL_KINDS : list string := ["imports"; "defines"; "contains"].

(** An edge is a literal fact with confidence 1.0 or a name-only guess with
    confidence 0.8. *)
Definition edge_well_formed (e : CodeEdge) : Prop :=
  (In (edge_kind e) LITERAL_KINDS /\ confidence e = conf_literal) \/
  (In (edge_kind e) SUPERTYPE_KINDS /\ confidence e = conf_name_only).

(** A declaration node: not the file node, with a span of 1-indexed lines. *)
Definition declaration_node (n : CodeNode) : Prop :=
  node_kind n <> "file" /\ (1 <= line_start n)%nat /\ (line_start n <= line_end n)%nat.

(** An edge that starts at a node of the list. *)
Definition rooted (ns : list CodeNode) (e : CodeEdge) : Prop :=
  exists n, In n ns /\ node_id n = from_id e.

(** The file node first, declaration nodes after it, and only well-formed
    edges that start at a node of the batch. *)
Definition batch_ok (file_node : CodeNode) (b : batch) : Prop :=
  (exists rest, fst b = file_node :: rest /\ Forall declaration_node rest) /\
  Forall (fun e => edge_well_formed e /\ rooted (fst b) e) (snd b).

(** Every entry of the class stack is a node of the batch. *)
Definition stack_ok (b : batch) (class_stack : list Java.stack_entry) : Prop :=
  Forall (fun entry => exists n, In n (fst b) /\ node_id n = snd (fst entry)) class_stack.

(** ** Lines without quotes *)

(** No quote character and no backslash in the line. *)
Fixpoint quote_free (line : string) : bool :=
  match line with
  | EmptyString => true
  | String c rest =>
      negb (Ascii.eqb c "\") && negb (Ascii.eqb c Patterns.dquote)
      && negb (Ascii.eqb c Patterns.squote) && quote_free rest
  end.

(** ** The body of a Python block *)

(** A line that the indentation scan passes over: blank, a comment, or
    indented deeper than the declaration. *)
Definition inside_block (start_indent : nat) (line : string) : Prop :=
  Str.nonempty (Str.strip line) = false \/
  Str.startswith "#" (Str.strip line) = true \/
  (start_indent < Str.indent_of line)%nat.

(** ** The files of a tree *)

(** The file [filename] lies in the tree below the directories [dirs],
    outermost first. *)
Fixpoint located (dirs : list string) (filename : string) (t : dir_tree) : Prop :=
  match dirs, t with
  | [], DirTree _ files => In filename files
  | d :: dirs', DirTree subdirs _ =>
      exists sub, In (d, sub) subdirs /\ located dirs' filename sub
  end.

(** [os.path.join] and the relative path along a list of names. *)
Definition join_all (root : string) (names : list string) : string :=
  fold_left path_join names root.

Definition rel_all (rel : string) (names : list string) : string :=
  fold_left rel_join names rel.

(** Induction on a directory tree with the hypothesis for every
    sub-directory. *)
Fixpoint dir_tree_rect' (P : dir_tree -> Prop)
    (step : forall subdirs files,
        (forall d sub, In (d, sub) subdirs -> P sub) -> P (DirTree subdirs files))
    (t : dir_tree) {struct t} : P t :=
  match t with
  | DirTree subdirs files =>
      step subdirs files
        ((fix all (l : list (string * dir_tree)) :
            forall d sub, In (d, sub) l -> P sub :=
            match l with
            | [] => fun d sub (H : False) => match H with end
            | (d0, sub0) :: l' =>
                fun d sub (H : (d0, sub0) = (d, sub) \/ In (d, sub) l') =>
                  match H with
                  | or_introl Heq =>
                      eq_rect sub0 P (dir_tree_rect' P step sub0) sub
                              (f_equal snd Heq)
                  | or_intror Hin => all l' d sub Hin
                  end
            end) subdirs)
  end.

(** ** Language tags *)

(** The nodes of the batch carry the tag [language]. *)
Definition tagged (language : string) (b : batch) : Prop :=
  Forall (fun n => node_language n = Some language) (fst b).

(** The tag the dispatch of [extract_from_file] leads to: the TypeScript
    extractor serves both [typescript] and [javascript]. *)
Definition dispatched_tag (language : string) : string :=
  if mem language ["typescript"; "javascript"] then "typescript" else language.

(** ** What the groups of a pattern capture *)

(** The numbered groups of a pattern, with the pattern inside each. *)
Fixpoint re_groups (r : Re.regex) : list (nat * Re.regex) :=
  match r with
  | Re.Seq r1 r2 | Re.Alt r1 r2 => (re_groups r1 ++ re_groups r2)%list
  | Re.Rep _ r1 => re_groups r1
  | Re.Grp n r1 => (n, r1) :: re_groups r1
  | _ => []
  end.

(** The characters a pattern can consume. *)
Fixpoint re_chars (r : Re.regex) (c : ascii) : bool :=
  match r with
  | Re.Cls p => p c
  | Re.Seq r1 r2 | Re.Alt r1 r2 => re_chars r1 c || re_chars r2 c
  | Re.Rep _ r1 | Re.Grp _ r1 => re_chars r1 c
  | _ => false
  end.

(** The least number of characters a match of a pattern consumes. *)
Fixpoint re_min_len (r : Re.regex) : nat :=
  match r with
  | Re.Cls _ => 1
  | Re.Seq r1 r2 => re_min_len r1 + re_min_len r2
  | Re.Alt r1 r2 => Nat.min (re_min_len r1) (re_min_len r2)
  | Re.Grp _ r1 => re_min_len r1
  | _ => 0
  end.

(** Group [n] takes part in every match of the pattern. *)
Fixpoint re_binds (n : nat) (r : Re.regex) : bool :=
  match r with
  | Re.Seq r1 r2 => re_binds n r1 || re_binds n r2
  | Re.Alt r1 r2 => re_binds n r1 && re_binds n r2
  | Re.Grp k r1 => (k =? n)%nat || re_binds n r1
  | _ => false
  end.

(** Every character of [s] satisfies [p]. *)
Fixpoint all_chars (p : ascii -> bool) (s : string) : bool :=
  match s with
  | EmptyString => true
  | String c s' => p c && all_chars p s'
  end.

(** Group [n] of the pattern holds at least one character, and the
    character [c] never. *)
Definition group_excludes (r : Re.regex) (n : nat) (c : ascii) : bool :=
  forallb (fun g => negb (fst g =? n)%nat
                    || ((1 <=? re_min_len (snd g))%nat && negb (re_chars (snd g) c)))
          (re_groups r).

(** The span of a binding of group [n] lies in the text and holds what a
    group [n] of the pattern can hold. *)
Definition span_ok (r0 : Re.regex) (full : string) (n i j : nat) : Prop :=
  exists r1, In (n, r1) (re_groups r0) /\ (i <= j)%nat /\ (j <= String.length full)%nat /\
             all_chars (re_chars r1) (Str.slice i j full) = true /\
             (re_min_len r1 <= j - i)%nat.

Definition caps_ok (r0 : Re.regex) (full : string) (caps : Re.captures) : Prop :=
  forall n i j, In (n, (i, j)) caps -> span_ok r0 full n i j.

(** The cursor stands at its position in the text. *)
Definition cursor_ok (full : string) (c : Re.cursor) : Prop :=
  Re.c_rest c = Str.drop (Re.c_pos c) full /\ (Re.c_pos c <= String.length full)%nat.

Definition bound (n : nat) (caps : Re.captures) : Prop :=
  Re.lookup_cap n caps <> None.

(** What a successful run of the matcher on the part [r] of the pattern
    [r0], from [c], has done when it calls its continuation at [c']. *)
Definition run_ok (r0 : Re.regex) (full : string) (r : Re.regex)
    (c : Re.cursor) (caps : Re.captures)
    (c' : Re.cursor) (caps' : Re.captures) : Prop :=
  cursor_ok full c' /\ caps_ok r0 full caps' /\
  (Re.c_pos c <= Re.c_pos c')%nat /\
  all_chars (re_chars r) (Str.slice (Re.c_pos c) (Re.c_pos c') full) = true /\
  (re_min_len r <= Re.c_pos c' - Re.c_pos c)%nat /\
  (forall n, re_binds n r = true \/ bound n caps -> bound n caps').

(** ** Names inside ids *)

(** A name that is not empty and holds no colon. *)
Definition clean_name (s : string) : Prop :=
  Str.nonempty s = true /\ Str.count_char ":" s = 0%nat.

(** The name the scheme puts into the id of the node, if any, is clean. *)
Definition named_node (package_name : string) (n : CodeNode) : Prop :=
  forall q, scheme_name package_name n = Some q -> clean_name q.

Definition named_batch (package_name : string) (b : batch) : Prop :=
  Forall (named_node package_name) (fst b).

(** ** Edges by kind *)

Definition has_kind (kind : string) (e : CodeEdge) : bool :=
  String.eqb (edge_kind e) kind.


(** The paths of the import statements the Java import pattern finds. *)
Definition java_import_paths (content : string) : list string :=
  map (fun m => req m 1)
      (Re.finditer Patterns.JAVA_import 1 (_remove_java_comments content)).

(** *** The supertype edges asked for *)














(** ** The nested-class scenario *)

(** The line of a match in the Java text without comments, and the end of
    the block that starts there. *)
Definition java_line (content : string) (m : Re.rmatch) : nat :=
  line_of (_remove_java_comments content) m.

Definition java_block_end (content : string) (m : Re.rmatch) : nat :=
  _find_java_block_end (Str.split_on Str.nl (_remove_java_comments content))
                       (java_line content m - 1).

(** The patterns see, in the text without comments: the package [a.b]; the
    classes [C] and [D] and no other type; the method [m] as the only method
    match that is not suppressed; no constant; the line of [D] inside the
    block of [C], and the line of [m] inside the block of [D]. *)
Definition nested_shape (content : string) (mC mD mm : Re.rmatch) : Prop :=
  let cleaned := _remove_java_comments content in
  Java.package_name content = "a.b" /\
  Re.finditer Patterns.JAVA_class 3 cleaned = [mC; mD] /\
  req mC 1 = "C" /\ req mD 1 = "D" /\
  Re.finditer Patterns.JAVA_interface 2 cleaned = [] /\
  Re.finditer Patterns.JAVA_enum 2 cleaned = [] /\
  Re.finditer Patterns.JAVA_annotation 1 cleaned = [] /\
  Re.finditer Patterns.JAVA_constant 2 cleaned = [] /\
  List.filter (fun m => negb (Java.suppressed ["C"; "D"] m))
              (Re.finditer Patterns.JAVA_method 4 cleaned) = [mm] /\
  req mm 2 = "m" /\
  (java_line content mC < java_line content mD)%nat /\
  (java_line content mD < java_block_end content mC)%nat /\
  (java_line content mD < java_line content mm)%nat /\
  (java_line content mm < java_block_end content mD)%nat.

Definition is_file_node (n : CodeNode) : bool := String.eqb (node_kind n) "file".

(** ** Sample inputs *)

Module Samples.

(** A package [a.b], an outer class [C], an inner class [D], a method [m]. *)
Definition nested_java : string :=
"package a.b;

public class C {
    public class D {
        public void m() {}
    }
}
".

(** A wildcard import and a specific import. *)
Definition imports_java : string :=
"import a.b.*;
import a.b.File;
".

(** Two overloads of one method. *)
Definition overloads_java : string :=
"class A {
    void m(int a) {}
    void m(String a) {}
}
".

(** A method named like its class, with that class as return type. *)
Definition self_named_java : string :=
"class A {
    A A() { return null; }
    void m() {}
}
".

(** A closing brace inside a quoted literal, on the second of three lines. *)
Definition quoted_brace : list string :=
  [ "class A {"; "  s = '}';"; "}" ].

Definition generic_java : string :=
"class A extends B<T> implements I<T>, J {
}
".

Definition bases_python : string :=
"class A(object, Generic[T]):
    pass
".

Definition blank_import_python : string :=
"import , x
".

(** A project directory with a Java file, a Python file that does not
    decode, a Go file, a text file and an ignored directory. *)
Definition project_tree : dir_tree :=
  DirTree [ ("sub", DirTree [] ["I.java"]);
            ("node_modules", DirTree [] ["x.js"]) ]
          [ "C.java"; "bad.py"; "main.go"; "notes.txt" ].

Definition project_text (p : string) : read_result :=
  if String.eqb p "proj/C.java" then ReadOk nested_java
  else if String.eqb p "proj/sub/I.java" then ReadOk imports_java
  else if String.eqb p "proj/bad.py" then ReadUnicodeDecodeError "invalid start byte"
  else if String.eqb p "proj/main.go" then ReadOk "package main"
  else if String.eqb p "proj/notes.txt" then ReadOk "notes"
  else ReadFileNotFound p.

Definition project_bytes (p : string) : outcome string :=
  match project_text p with
  | ReadOk s => Ret s
  | ReadUnicodeDecodeError _ => Ret (String (ascii_of_nat 255) EmptyString)
  | _ => Raise "FileNotFoundError"
  end.

Definition project_paths : list string :=
  [ "proj/C.java"; "proj/sub/I.java"; "proj/bad.py"; "proj/main.go"; "proj/notes.txt" ].

Definition project_fs : FileSystem :=
  {| path_exists := fun p => mem p project_paths || String.eqb p "proj";
     path_isdir := String.eqb "proj";
     read_bytes := project_bytes;
     read_text_file := project_text;
     tree_at := fun _ => project_tree |}.

(** The same project seen later, with other files around it. *)
Definition other_fs : FileSystem :=
  {| path_exists := fun p => String.eqb p "proj/C.java";
     path_isdir := fun _ => false;
     read_bytes := fun _ => Raise "PermissionError";
     read_text_file := fun _ => ReadOk nested_java;
     tree_at := fun _ => DirTree [] [] |}.

(** A previous-hash table that knows the current content of [C.java]. *)
Definition previous_hashes : gmap string string :=
  {[ "C.java" := MD5.hexdigest nested_java ]}.

Definition state_of (o : outcome dir_state) : dir_state :=
  match o with
  | Ret st => st
  | Raise _ => dir_init
  end.

Definition incremental_run : dir_state :=
  state_of (extract_from_directory project_fs "proj" true (Some previous_hashes)).

Definition full_run : dir_state :=
  state_of (extract_from_directory project_fs "proj" false None).

(** The class node and the first method match of [self_named_java]. *)
Definition self_named_class : CodeNode :=
  nth 1 (fst (Java.types_batch self_named_java "A.java"))
      (file_node_of "java" self_named_java "A.java").

Definition no_match : Re.rmatch := Re.Match 0 0 EmptyString [].

Definition self_named_match : Re.rmatch :=
  nth 0 (Re.finditer Patterns.JAVA_method 4 (_remove_java_comments self_named_java))
      no_match.

(** A file system where every path reads as [overloads_java]. *)
Definition overloads_fs : FileSystem :=
  {| path_exists := fun _ => true;
     path_isdir := fun _ => false;
     read_bytes := fun _ => Ret overloads_java;
     read_text_file := fun _ => ReadOk overloads_java;
     tree_at := fun _ => DirTree [] [] |}.

(** The nodes of the two overloads. *)
Definition overload (i : nat) : CodeNode :=
  nth i (nodes (extract_java overloads_java "proj/A.java"))
      (file_node_of "java" overloads_java "proj/A.java").

(** The method match of [nested_java]. *)
Definition nested_method_match : Re.rmatch :=
  nth 0 (Re.finditer Patterns.JAVA_method 4 (_remove_java_comments nested_java))
      no_match.

(** A TypeScript class whose body holds a closing brace in a quoted
    literal; its lines are [quoted_brace] with [export] in front. *)
Definition quoted_ts : string :=
"export class A {
  s = '}';
}
".

Definition result_of (o : outcome ExtractionResult) : ExtractionResult :=
  match o with
  | Ret r => r
  | Raise exn => error_result EmptyString exn
  end.



(** A project whose second file is a Python file with a blank import. *)
Definition raising_fs : FileSystem :=
  {| path_exists := fun _ => true;
     path_isdir := String.eqb "proj";
     read_bytes := fun _ => Ret blank_import_python;
     read_text_file := fun p => if String.eqb p "proj/b.py"
                                then ReadOk blank_import_python
                                else ReadOk imports_java;
     tree_at := fun _ => DirTree [] ["A.java"; "b.py"; "C.java"] |}.

(** A file stored with CR LF line ends and read with universal newlines. *)
Definition crlf_bytes : string :=
  "X = 1" ++ String (ascii_of_nat 13) (String (ascii_of_nat 10) EmptyString).

Definition crlf_text : string :=
  "X = 1" ++ String (ascii_of_nat 10) EmptyString.

Definition crlf_fs : FileSystem :=
  {| path_exists := fun _ => true;
     path_isdir := String.eqb "proj";
     read_bytes := fun _ => Ret crlf_bytes;
     read_text_file := fun _ => ReadOk crlf_text;
     tree_at := fun _ => DirTree [] ["x.py"] |}.

Definition crlf_first_run : dir_state :=
  state_of (extract_from_directory crlf_fs "proj" false None).

Definition crlf_second_run : dir_state :=
  state_of (extract_from_directory crlf_fs "proj" true
              (Some (new_hashes crlf_first_run))).

(** The result for [proj/C.java] and its [contains] edge from [C] to [D]. *)
Definition nested_result : ExtractionResult :=
  result_of (extract_from_file project_fs "proj/C.java").

Definition nested_contains_edge : CodeEdge :=
  nth 1 (edges nested_result) (defines_edge EmptyString EmptyString).

(** A file system where every file holds the TypeScript class above. *)
Definition script_fs : FileSystem :=
  {| path_exists := fun _ => true;
     path_isdir := fun _ => false;
     read_bytes := fun _ => Ret quoted_ts;
     read_text_file := fun _ => ReadOk quoted_ts;
     tree_at := fun _ => DirTree [] [] |}.

(** The two imports of [imports_java] on one line. *)
Definition one_line_imports_java : string :=
"import a.b.*; import a.b.File;
".

(** [nested_java] with the inner class declared [private static final]. *)
Definition static_inner_java : string :=
"package a.b;

public class C {
    private static final class D {
        public void m() {}
    }
}
".

(** [nested_java] written on one line. *)
Definition one_line_java : string :=
"package a.b; public class C { public class D { public void m() {} } }
".

(** The class matches of [nested_java]. *)
Definition nested_class_match (i : nat) : Re.rmatch :=
  nth i (Re.finditer Patterns.JAVA_class 3 (_remove_java_comments nested_java))
      no_match.

End Samples.

(** * Properties *)

(** ** The library models on known values *)

(** RFC 1321 test vectors. *)
Example md5_empty : MD5.hexdigest "" = "d41d8cd98f00b204e9800998ecf8427e".
Proof. vm_compute. reflexivity. Qed.

Example md5_abc : MD5.hexdigest "abc" = "900150983cd24fb0d6963f7d28e17f72".
Proof. vm_compute. reflexivity. Qed.

(** [finditer] on the nested Java sample, as Python's [re] answers: the
    class pattern matches from the blank line 2 (offset 13) and at line 4;
    the method pattern matches once, with an empty parameter list and no
    [throws] group. *)
Example finditer_java_class :
  map (fun m => (Re.m_start m, Re.m_end m, Re.m_groups m))
      (Re.finditer Patterns.JAVA_class 3 Samples.nested_java)
  = [ (13%nat, 30%nat, [Some "C"; None; None]);
      (31%nat, 51%nat, [Some "D"; None; None]) ].
Proof. vm_compute. reflexivity. Qed.

Example finditer_java_method :
  map (fun m => (Re.m_start m, Re.m_end m, Re.m_groups m))
      (Re.finditer Patterns.JAVA_method 4 Samples.nested_java)
  = [ (52%nat, 77%nat, [Some "void"; Some "m"; Some ""; None]) ].
Proof. vm_compute. reflexivity. Qed.

(** A constructor is not a match of the method pattern: after the return
    type the pattern wants white space and a name. *)
Example finditer_java_constructor :
  Re.finditer Patterns.JAVA_method 4 "    public User(String name) {" = [].
Proof. vm_compute. reflexivity. Qed.

(** Lazy repetition: a block comment ends at the first [*/]. *)
Example remove_comments :
  _remove_java_comments "a /* b */ c /* d */ e // f" = "a  c  e ".
Proof. vm_compute. reflexivity. Qed.

Example splitext_cases :
  map splitext_ext ["a/b.c/d"; "a/.bashrc"; "x.tar.gz"; "A.JAVA"]
  = [""; ""; ".gz"; ".JAVA"].
Proof. vm_compute. reflexivity. Qed.

(** The Python extractor raises on an import whose first name is blank. *)
Example python_blank_import_raises :
  extract_python Samples.blank_import_python "a.py" = Raise "IndexError".
Proof. vm_compute. reflexivity. Qed.

(** ** Single-file extraction: failure modes *)

(** C7. A call of [extract_from_file] returns (no exception leaves it) a
    result with no nodes, no edges and exactly one error: "File not found"
    with the path when the path does not exist; "Unsupported file type" with
    the path when it exists and its extension is not a supported one;
    "Failed to read file" with the text of the exception when it exists, is
    supported and the text does not decode. *)
Theorem extract_from_file_failure_modes (fs : FileSystem) (p : string) :
  (path_exists fs p = false ->
   exists r, extract_from_file fs p = Ret r /\
             nodes r = [] /\ edges r = [] /\ file_path r = p /\
             errors r = ["File not found: " ++ p]) /\
  (path_exists fs p = true -> detect_language p = None ->
   exists r, extract_from_file fs p = Ret r /\
             nodes r = [] /\ edges r = [] /\ file_path r = p /\
             errors r = ["Unsupported file type: " ++ p]) /\
  (forall lang msg,
     path_exists fs p = true -> detect_language p = Some lang ->
     read_text_file fs p = ReadUnicodeDecodeError msg ->
     exists r, extract_from_file fs p = Ret r /\
               nodes r = [] /\ edges r = [] /\ file_path r = p /\
               errors r = ["Failed to read file: " ++ msg]).
Proof.
  unfold extract_from_file. repeat split.
  - intros ->. eexists. split; [reflexivity|]. repeat split.
  - intros -> ->. eexists. split; [reflexivity|]. repeat split.
  - intros lang msg -> -> ->. eexists. split; [reflexivity|]. repeat split.
Qed.

Lemma extract_from_file_failure_modes_witness :
  (exists r, extract_from_file Samples.project_fs "proj/gone.java" = Ret r /\
             nodes r = [] /\ edges r = [] /\ file_path r = "proj/gone.java" /\
             errors r = ["File not found: " ++ "proj/gone.java"]) /\
  (exists r, extract_from_file Samples.project_fs "proj/notes.txt" = Ret r /\
             nodes r = [] /\ edges r = [] /\ file_path r = "proj/notes.txt" /\
             errors r = ["Unsupported file type: " ++ "proj/notes.txt"]) /\
  (exists r, extract_from_file Samples.project_fs "proj/bad.py" = Ret r /\
             nodes r = [] /\ edges r = [] /\ file_path r = "proj/bad.py" /\
             errors r = ["Failed to read file: " ++ "invalid start byte"]).
Proof.
  split; [|split].
  - apply (proj1 (extract_from_file_failure_modes Samples.project_fs "proj/gone.java")).
    reflexivity.
  - apply (proj1 (proj2 (extract_from_file_failure_modes Samples.project_fs "proj/notes.txt")));
      reflexivity.
  - apply (proj2 (proj2
             (extract_from_file_failure_modes Samples.project_fs "proj/bad.py"))
             "python" "invalid start byte"); reflexivity.
Defined.

(** ** Determinism *)

(** C8. Extraction of a file depends on the world only through the path and
    the text read at that path: in two file systems where the path exists
    and reads as the same text, the two runs have the same outcome, hence
    the same node ids and the same edge (from, to, kind) triples. *)
Theorem extraction_deterministic (fs1 fs2 : FileSystem) (p content : string) :
  path_exists fs1 p = true -> path_exists fs2 p = true ->
  read_text_file fs1 p = ReadOk content -> read_text_file fs2 p = ReadOk content ->
  extract_from_file fs1 p = extract_from_file fs2 p /\
  (forall r1 r2,
     extract_from_file fs1 p = Ret r1 -> extract_from_file fs2 p = Ret r2 ->
     map node_id (nodes r1) = map node_id (nodes r2) /\
     map edge_key (edges r1) = map edge_key (edges r2)).
Proof.
  intros E1 E2 R1 R2.
  assert (H : extract_from_file fs1 p = extract_from_file fs2 p).
  { unfold extract_from_file. rewrite E1, E2, R1, R2. reflexivity. }
  split; [exact H|].
  intros r1 r2 H1 H2. rewrite H, H2 in H1. injection H1 as <-. split; reflexivity.
Qed.

Lemma extraction_deterministic_witness :
  extract_from_file Samples.project_fs "proj/C.java"
    = extract_from_file Samples.other_fs "proj/C.java".
Proof.
  apply (extraction_deterministic Samples.project_fs Samples.other_fs
           "proj/C.java" Samples.nested_java); reflexivity.
Defined.

(** ** The incremental directory engine *)

Section Engine.
Variables (fs : FileSystem) (incremental : bool) (file_hashes : gmap string string).

Lemma bind_ret {A B : Type} (x : outcome A) (f : A -> outcome B) (b : B) :
  bind x f = Ret b -> exists a, x = Ret a /\ f a = Ret b.
Proof. destruct x as [a|exn]; simpl; [eauto | discriminate]. Qed.

Lemma extract_step_inv inc st e st' :
  extract_step fs st e = Ret st' -> step_kind fs inc file_hashes st e st'.
Proof.
  unfold extract_step. intros H. apply bind_ret in H as (r & Hr & H).
  destruct (errors r) as [|msg msgs] eqn:Herr.
  - injection H as <-. eapply StepProcessed; eauto.
  - injection H as <-. eapply StepFailed; eauto. rewrite Herr. discriminate.
Qed.

Lemma file_step_inv st e st' :
  file_step fs incremental file_hashes st e = Ret st' ->
  step_kind fs incremental file_hashes st e st'.
Proof.
  unfold file_step. destruct incremental eqn:Hinc.
  - intros H. apply bind_ret in H as (h & Hh & H).
    destruct (unchanged file_hashes (entry_rel e) h) eqn:Hu.
    + injection H as <-. eapply StepSkipped; eauto.
    + now apply extract_step_inv.
  - apply extract_step_inv.
Qed.

Lemma run_files_app es1 es2 st :
  run_files fs incremental file_hashes (es1 ++ es2) st
  = bind (run_files fs incremental file_hashes es1 st)
         (run_files fs incremental file_hashes es2).
Proof.
  revert st. induction es1 as [|e es1 IH]; intros st; simpl; [reflexivity|].
  destruct (file_step fs incremental file_hashes st e); simpl; [apply IH | reflexivity].
Qed.

Lemma run_files_split pre e post st out :
  run_files fs incremental file_hashes (pre ++ e :: post) st = Ret out ->
  exists st1 st2,
    run_files fs incremental file_hashes pre st = Ret st1 /\
    file_step fs incremental file_hashes st1 e = Ret st2 /\
    run_files fs incremental file_hashes post st2 = Ret out.
Proof.
  rewrite run_files_app. intros H. apply bind_ret in H as (st1 & H1 & H).
  simpl in H. apply bind_ret in H as (st2 & H2 & H3). eauto.
Qed.

(** The extractor is called only on files of the walk. *)
Lemma run_files_calls es st out :
  run_files fs incremental file_hashes es st = Ret out ->
  forall p, In p (calls out) -> In p (calls st) \/ In p (map entry_path es).
Proof.
  revert st. induction es as [|e es IH]; intros st H p Hp; simpl in H.
  - injection H as <-. now left.
  - apply bind_ret in H as (st' & Hstep & Hrun).
    destruct (IH _ Hrun p Hp) as [Hin|Hin]; [|right; now right].
    apply file_step_inv in Hstep.
    destruct Hstep as [h _ _ _ ->|r _ _ ->|r _ _ ->]; simpl in Hin.
    + now left.
    + apply in_app_or in Hin as [Hin|[<-|[]]]; [now left | right; now left].
    + apply in_app_or in Hin as [Hin|[<-|[]]]; [now left | right; now left].
Qed.

Lemma run_files_calls_mono es st out :
  run_files fs incremental file_hashes es st = Ret out ->
  forall p, In p (calls st) -> In p (calls out).
Proof.
  revert st. induction es as [|e es IH]; intros st H p Hp; simpl in H.
  - injection H as <-. exact Hp.
  - apply bind_ret in H as (st' & Hstep & Hrun). apply (IH _ Hrun).
    apply file_step_inv in Hstep.
    destruct Hstep as [h _ _ _ ->|r _ _ ->|r _ _ ->]; simpl;
      [exact Hp | apply in_or_app; now left | apply in_or_app; now left].
Qed.

(** Only the files of the walk get an entry in [new_hashes]. *)
Lemma run_files_hashes_frame es st out rel :
  run_files fs incremental file_hashes es st = Ret out ->
  ~ In rel (map entry_rel es) ->
  new_hashes out !! rel = new_hashes st !! rel.
Proof.
  revert st. induction es as [|e es IH]; intros st H Hnot; simpl in H.
  - injection H as <-. reflexivity.
  - apply bind_ret in H as (st' & Hstep & Hrun).
    simpl in Hnot. rewrite (IH _ Hrun) by tauto.
    assert (Hne : entry_rel e <> rel) by tauto.
    apply file_step_inv in Hstep.
    destruct Hstep as [h _ _ _ ->|r _ _ ->|r _ _ ->]; simpl;
      [now rewrite lookup_insert_ne | reflexivity | now rewrite lookup_insert_ne].
Qed.

End Engine.

Section Provenance.
Variables (fs : FileSystem) (incremental : bool) (file_hashes : gmap string string).

Lemma run_files_provenance es st out :
  run_files fs incremental file_hashes es st = Ret out ->
  (forall n, In n (all_nodes out) ->
             In n (all_nodes st) \/ extracted_from fs nodes es out n) /\
  (forall d, In d (all_edges out) ->
             In d (all_edges st) \/ extracted_from fs edges es out d).
Proof.
  revert st. induction es as [|e es IH]; intros st H; simpl in H.
  - injection H as <-. split; intros; now left.
  - apply bind_ret in H as (st' & Hstep & Hrun).
    destruct (IH _ Hrun) as [IHn IHe].
    assert (Hweak : forall A (part : ExtractionResult -> list A) x,
               extracted_from fs part es out x ->
               extracted_from fs part (e :: es) out x).
    { intros A part x (e' & r & Hin & Hc & Hr & He & Hx).
      exists e', r. repeat split; auto. now right. }
    pose proof (run_files_calls_mono _ _ _ _ _ _ Hrun) as Hmono.
    apply file_step_inv in Hstep.
    destruct Hstep as [h _ _ _ ->|r _ _ ->|r Hr Herr ->]; simpl in *.
    + split; [intros n Hn; destruct (IHn n Hn); eauto
             |intros d Hd; destruct (IHe d Hd); eauto].
    + split; [intros n Hn; destruct (IHn n Hn); eauto
             |intros d Hd; destruct (IHe d Hd); eauto].
    + assert (Hcall : In (entry_path e) (calls out)).
      { apply Hmono. apply in_or_app. right. now left. }
      split.
      * intros n Hn. destruct (IHn n Hn) as [Hin|Hin]; [|eauto].
        apply in_app_or in Hin as [Hin|Hin]; [now left|].
        right. exists e, r. repeat split; auto. now left.
      * intros d Hd. destruct (IHe d Hd) as [Hin|Hin]; [|eauto].
        apply in_app_or in Hin as [Hin|Hin]; [now left|].
        right. exists e, r. repeat split; auto. now left.
Qed.

End Provenance.

(** C1. In incremental mode, a file of the walk whose relative path has, in
    the previous-hash table, the checksum of its current content is skipped:
    its pass through the loop body adds one to [files_skipped] and nothing
    to the nodes, the edges or the calls of the extractor; the returned
    table maps its relative path to that checksum; the extractor was never
    called on it; every node and edge of the returned batch comes from the
    extraction of another file. *)
Theorem incremental_skip (fs : FileSystem) (directory : string)
    (file_hashes : gmap string string) (pre post : list walk_entry)
    (F : walk_entry) (bytes : string) (out : dir_state) :
  path_isdir fs directory = true ->
  walk_files fs directory = (pre ++ F :: post)%list ->
  List.NoDup (map entry_rel (walk_files fs directory)) ->
  List.NoDup (map entry_path (walk_files fs directory)) ->
  read_bytes fs (entry_path F) = Ret bytes ->
  file_hashes !! entry_rel F = Some (MD5.hexdigest bytes) ->
  extract_from_directory fs directory true (Some file_hashes) = Ret out ->
  exists st1 st2,
    run_files fs true file_hashes pre dir_init = Ret st1 /\
    file_step fs true file_hashes st1 F = Ret st2 /\
    run_files fs true file_hashes post st2 = Ret out /\
    files_skipped st2 = S (files_skipped st1) /\
    files_processed st2 = files_processed st1 /\
    all_nodes st2 = all_nodes st1 /\ all_edges st2 = all_edges st1 /\
    calls st2 = calls st1 /\
    new_hashes out !! entry_rel F = Some (MD5.hexdigest bytes) /\
    ~ In (entry_path F) (calls out) /\
    (forall n, In n (all_nodes out) ->
       exists e r, In e (pre ++ post)%list /\ entry_path e <> entry_path F /\
                   extract_from_file fs (entry_path e) = Ret r /\ In n (nodes r)) /\
    (forall d, In d (all_edges out) ->
       exists e r, In e (pre ++ post)%list /\ entry_path e <> entry_path F /\
                   extract_from_file fs (entry_path e) = Ret r /\ In d (edges r)).
Proof.
  intros Hdir Hwalk Hrel Hpath Hbytes Hprev Hrun.
  unfold extract_from_directory in Hrun. rewrite Hdir in Hrun. simpl in Hrun.
  rewrite Hwalk in Hrun, Hrel, Hpath.
  pose proof Hrun as Hall.
  apply run_files_split in Hrun as (st1 & st2 & Hpre & Hstep & Hpost).
  assert (Hst2 : st2 = skipped_state st1 F (MD5.hexdigest bytes)).
  { unfold file_step, compute_file_hash in Hstep. rewrite Hbytes in Hstep. simpl in Hstep.
    unfold unchanged in Hstep. rewrite Hprev, String.eqb_refl in Hstep.
    now injection Hstep as <-. }
  subst st2.
  rewrite map_app in Hrel, Hpath. simpl in Hrel, Hpath.
  apply NoDup_remove_2 in Hrel, Hpath.
  assert (Hcalls : ~ In (entry_path F) (calls out)).
  { intros Hin.
    destruct (run_files_calls _ _ _ _ _ _ Hpost _ Hin) as [H2|H2].
    - simpl in H2.
      destruct (run_files_calls _ _ _ _ _ _ Hpre _ H2) as [[]|H1].
      apply Hpath. apply in_or_app. now left.
    - apply Hpath. apply in_or_app. now right. }
  exists st1, (skipped_state st1 F (MD5.hexdigest bytes)). simpl.
  repeat split; auto.
  - rewrite (run_files_hashes_frame _ _ _ _ _ _ _ Hpost).
    + simpl. apply lookup_insert_eq.
    + intros Hin. apply Hrel. apply in_or_app. now right.
  - intros n Hn.
    destruct (proj1 (run_files_provenance _ _ _ _ _ _ Hall) n Hn)
      as [[]|(e & r & Hin & Hc & Hr & _ & Hx)].
    exists e, r. repeat split; auto.
    + apply in_app_or in Hin as [Hin|[<-|Hin]];
        [apply in_or_app; now left | contradiction | apply in_or_app; now right].
    + intros Heq. now rewrite Heq in Hc.
  - intros d Hd.
    destruct (proj2 (run_files_provenance _ _ _ _ _ _ Hall) d Hd)
      as [[]|(e & r & Hin & Hc & Hr & _ & Hx)].
    exists e, r. repeat split; auto.
    + apply in_app_or in Hin as [Hin|[<-|Hin]];
        [apply in_or_app; now left | contradiction | apply in_or_app; now right].
    + intros Heq. now rewrite Heq in Hc.
Qed.

(** A file of the walk without an entry in the previous-hash table is
    handed to the extractor. *)
Lemma run_files_extracts_unlisted (fs : FileSystem) (incremental : bool)
    (file_hashes : gmap string string) (es : list walk_entry) (F : walk_entry)
    (st out : dir_state) :
  In F es -> file_hashes !! entry_rel F = None ->
  run_files fs incremental file_hashes es st = Ret out ->
  In (entry_path F) (calls out).
Proof.
  intros Hin Hnone Hrun.
  apply in_split in Hin as (pre & post & ->).
  apply run_files_split in Hrun as (st1 & st2 & _ & Hstep & Hpost).
  apply (run_files_calls_mono _ _ _ _ _ _ Hpost).
  apply file_step_inv in Hstep.
  destruct Hstep as [h _ _ Hu _|r _ _ ->|r _ _ ->]; simpl.
  - unfold unchanged in Hu. rewrite Hnone in Hu. discriminate.
  - apply in_or_app. right. now left.
  - apply in_or_app. right. now left.
Qed.

(** C10. A file of the walk that reaches the extractor (full mode, or no
    matching previous checksum) and whose result carries errors leaves the
    nodes, the edges and both counters as they were and only extends the
    error list; the returned table has no entry for it; every node and edge
    of the batch comes from an error-free extraction of another file; and an
    incremental run that is given the returned table calls the extractor on
    the file again. *)
Theorem failed_file_not_recorded (fs : FileSystem) (directory : string)
    (incremental : bool) (file_hashes : option (gmap string string))
    (pre post : list walk_entry) (F : walk_entry)
    (result : ExtractionResult) (out : dir_state) :
  path_isdir fs directory = true ->
  walk_files fs directory = (pre ++ F :: post)%list ->
  List.NoDup (map entry_rel (walk_files fs directory)) ->
  (incremental = true -> forall bytes,
     read_bytes fs (entry_path F) = Ret bytes ->
     unchanged (default ∅ file_hashes) (entry_rel F) (MD5.hexdigest bytes) = false) ->
  extract_from_file fs (entry_path F) = Ret result ->
  errors result <> [] ->
  extract_from_directory fs directory incremental file_hashes = Ret out ->
  exists st1 st2,
    run_files fs incremental (default ∅ file_hashes) pre dir_init = Ret st1 /\
    file_step fs incremental (default ∅ file_hashes) st1 F = Ret st2 /\
    run_files fs incremental (default ∅ file_hashes) post st2 = Ret out /\
    all_nodes st2 = all_nodes st1 /\ all_edges st2 = all_edges st1 /\
    files_processed st2 = files_processed st1 /\
    files_skipped st2 = files_skipped st1 /\
    new_hashes st2 = new_hashes st1 /\
    dir_errors st2 = (dir_errors st1 ++ errors result)%list /\
    new_hashes out !! entry_rel F = None /\
    (forall n, In n (all_nodes out) ->
       exists e r, In e (pre ++ post)%list /\ entry_path e <> entry_path F /\
                   extract_from_file fs (entry_path e) = Ret r /\ In n (nodes r)) /\
    (forall d, In d (all_edges out) ->
       exists e r, In e (pre ++ post)%list /\ entry_path e <> entry_path F /\
                   extract_from_file fs (entry_path e) = Ret r /\ In d (edges r)) /\
    (forall fs' out',
       path_isdir fs' directory = true -> In F (walk_files fs' directory) ->
       extract_from_directory fs' directory true (Some (new_hashes out)) = Ret out' ->
       In (entry_path F) (calls out')).
Proof.
  intros Hdir Hwalk Hrel Hreach Hres Herr Hrun.
  unfold extract_from_directory in Hrun. rewrite Hdir in Hrun. simpl in Hrun.
  set (fh := default ∅ file_hashes) in *.
  rewrite Hwalk in Hrun, Hrel.
  pose proof Hrun as Hall.
  apply run_files_split in Hrun as (st1 & st2 & Hpre & Hstep & Hpost).
  assert (Hst2 : st2 = failed_state st1 F result).
  { pose proof Hstep as Hk. apply file_step_inv in Hk.
    destruct Hk as [h Hinc Hh Hu _|r Hr _ ->|r Hr He _].
    - unfold compute_file_hash in Hh. apply bind_ret in Hh as (bytes & Hb & Hh).
      injection Hh as <-. rewrite (Hreach Hinc bytes Hb) in Hu. discriminate.
    - rewrite Hres in Hr. now injection Hr as <-.
    - rewrite Hres in Hr. injection Hr as <-. contradiction. }
  rewrite map_app in Hrel. simpl in Hrel. apply NoDup_remove_2 in Hrel.
  assert (Hnone : new_hashes out !! entry_rel F = None).
  { rewrite (run_files_hashes_frame _ _ _ _ _ _ _ Hpost)
      by (intros Hin; apply Hrel; apply in_or_app; now right).
    rewrite Hst2. simpl.
    rewrite (run_files_hashes_frame _ _ _ _ _ _ _ Hpre)
      by (intros Hin; apply Hrel; apply in_or_app; now left).
    apply lookup_empty. }
  assert (Hother : forall e r,
            In e (pre ++ F :: post)%list ->
            extract_from_file fs (entry_path e) = Ret r -> errors r = [] ->
            In e (pre ++ post)%list /\ entry_path e <> entry_path F).
  { intros e r Hin Hr He.
    assert (Hne : entry_path e <> entry_path F).
    { intros Heq. rewrite Heq, Hres in Hr. injection Hr as <-. contradiction. }
    split; [|exact Hne].
    apply in_app_or in Hin as [Hin|[<-|Hin]];
      [apply in_or_app; now left | contradiction | apply in_or_app; now right]. }
  exists st1, st2. rewrite Hst2 at 3 4 5 6 7 8. simpl.
  repeat split; auto.
  - intros n Hn.
    destruct (proj1 (run_files_provenance _ _ _ _ _ _ Hall) n Hn)
      as [[]|(e & r & Hin & _ & Hr & He & Hx)].
    destruct (Hother e r Hin Hr He). exists e, r. repeat split; auto.
  - intros d Hd.
    destruct (proj2 (run_files_provenance _ _ _ _ _ _ Hall) d Hd)
      as [[]|(e & r & Hin & _ & Hr & He & Hx)].
    destruct (Hother e r Hin Hr He). exists e, r. repeat split; auto.
  - intros fs' out' Hdir' Hin' Hrun'.
    unfold extract_from_directory in Hrun'. rewrite Hdir' in Hrun'. simpl in Hrun'.
    eapply run_files_extracts_unlisted; eauto.
Qed.

Ltac nodup_strings :=
  repeat (apply List.NoDup_cons; [simpl; intuition discriminate|]); apply List.NoDup_nil.

Lemma incremental_skip_witness :
  new_hashes Samples.incremental_run !! "C.java"
    = Some (MD5.hexdigest Samples.nested_java) /\
  ~ In "proj/C.java" (calls Samples.incremental_run) /\
  files_skipped Samples.incremental_run = 1%nat.
Proof.
  destruct (incremental_skip Samples.project_fs "proj" Samples.previous_hashes
              [] [Entry "proj/bad.py" "bad.py"; Entry "proj/main.go" "main.go";
                  Entry "proj/sub/I.java" "sub/I.java"]
              (Entry "proj/C.java" "C.java") Samples.nested_java
              Samples.incremental_run)
    as (st1 & st2 & _ & _ & _ & _ & _ & _ & _ & _ & Hh & Hc & _).
  - reflexivity.
  - vm_compute. reflexivity.
  - vm_compute. nodup_strings.
  - vm_compute. nodup_strings.
  - reflexivity.
  - vm_compute. reflexivity.
  - vm_compute. reflexivity.
  - split; [exact Hh|]. split; [exact Hc|]. vm_compute. reflexivity.
Defined.

Lemma failed_file_not_recorded_witness :
  new_hashes Samples.full_run !! "bad.py" = None /\
  files_processed Samples.full_run = 2%nat.
Proof.
  destruct (failed_file_not_recorded Samples.project_fs "proj" false None
              [Entry "proj/C.java" "C.java"]
              [Entry "proj/main.go" "main.go"; Entry "proj/sub/I.java" "sub/I.java"]
              (Entry "proj/bad.py" "bad.py")
              (error_result "proj/bad.py" "Failed to read file: invalid start byte")
              Samples.full_run)
    as (st1 & st2 & _ & _ & _ & _ & _ & _ & _ & _ & _ & Hnone & _).
  - reflexivity.
  - vm_compute. reflexivity.
  - vm_compute. nodup_strings.
  - discriminate.
  - vm_compute. reflexivity.
  - discriminate.
  - vm_compute. reflexivity.
  - split; [exact Hnone|]. vm_compute. reflexivity.
Defined.

(** ** Java imports *)

(** ** Java methods: suppression *)

Lemma mem_In (x : string) (l : list string) : mem x l = true <-> In x l.
Proof.
  unfold mem. rewrite existsb_exists. split.
  - intros (y & Hy & Heq). apply String.eqb_eq in Heq. now subst.
  - intros H. exists x. split; [exact H | apply String.eqb_refl].
Qed.

Lemma type_names_of_In (ns : list CodeNode) (T : CodeNode) :
  In T ns -> Java.is_type_node T = true -> In (node_name T) (Java.type_names_of ns).
Proof.
  intros Hin Hty. unfold Java.type_names_of. apply in_map. apply filter_In. now split.
Qed.

(** C4. A method match whose name is the name of a type of the file and
    whose return-type slot is that same name, and a method match whose
    return-type slot is one of the reserved words, leaves the batch as it
    was: no node and no edge is produced for it, and the method loop gives
    the same batch as it gives without that match. *)
Theorem constructor_suppression (content file_path : string) (T : CodeNode)
    (m : Re.rmatch) (pre post : list Re.rmatch) (b : batch) :
  let types := fst (Java.types_batch content file_path) in
  let step := Java.method_step content file_path
                (Java.type_names_of types) (Java.type_ranges_of types) in
  (In T types /\ Java.is_type_node T = true /\
   req m 2 = node_name T /\ Str.strip (req m 1) = node_name T) \/
  In (Str.strip (req m 1)) Java.NOT_A_METHOD ->
  step b m = b /\
  fold_left step (pre ++ m :: post)%list b = fold_left step (pre ++ post)%list b.
Proof.
  intros types step H.
  assert (Hs : Java.suppressed (Java.type_names_of types) m = true).
  { unfold Java.suppressed. apply orb_true_iff.
    destruct H as [(Hin & Hty & Hname & Hret)|Hkw].
    - left. apply andb_true_iff. split.
      + apply mem_In. rewrite Hname. now apply type_names_of_In.
      + rewrite Hname, Hret. apply String.eqb_refl.
    - right. now apply mem_In. }
  assert (Hstep : forall b', step b' m = b').
  { intros b'. unfold step, Java.method_step. now rewrite Hs. }
  split; [apply Hstep|].
  rewrite !fold_left_app. simpl. now rewrite Hstep.
Qed.

Lemma constructor_suppression_witness :
  let types := fst (Java.types_batch Samples.self_named_java "A.java") in
  Java.method_step Samples.self_named_java "A.java"
    (Java.type_names_of types) (Java.type_ranges_of types)
    (types, []) Samples.self_named_match = (types, []).
Proof.
  apply (constructor_suppression Samples.self_named_java "A.java"
           Samples.self_named_class Samples.self_named_match [] [] _).
  left. repeat split; vm_compute; first [reflexivity | right; left; reflexivity].
Defined.

(** ** The identifier scheme holds in every batch *)

Lemma fold_left_invariant {S M : Type} (P : S -> Prop) (step : S -> M -> S)
    (ms : list M) (s : S) :
  P s -> (forall s' m, P s' -> P (step s' m)) -> P (fold_left step ms s).
Proof.
  intros Hs Hstep. revert s Hs.
  induction ms as [|m ms IH]; intros s Hs; simpl; [exact Hs|].
  apply IH. now apply Hstep.
Qed.

Lemma well_formed_emit pkg path b ns es :
  well_formed_batch pkg path b ->
  Forall (well_formed_node pkg path) ns ->
  well_formed_batch pkg path (emit b ns es).
Proof.
  unfold well_formed_batch, emit. simpl. intros Hb Hns.
  apply Forall_app. now split.
Qed.

Lemma well_formed_file_node lang pkg content path :
  well_formed_node pkg path (file_node_of lang content path).
Proof. repeat split. simpl. now left. Qed.

Lemma well_formed_initial lang pkg content path :
  well_formed_batch pkg path ([file_node_of lang content path], []).
Proof. constructor; [apply well_formed_file_node | constructor]. Qed.

(** A node built with a literal kind is well formed once the kind and the
    id have been computed. *)
Ltac wf_node :=
  constructor; [|constructor];
  repeat split; simpl; [tauto | discriminate].

Ltac wf_emit :=
  intros; apply well_formed_emit; [assumption|];
  first [constructor; fail | wf_node].

Ltac wf_fold pkg path :=
  apply (fold_left_invariant (well_formed_batch pkg path)).

Lemma ts_batch_well_formed content path :
  well_formed_batch EmptyString path (TS.extract_batch content path).
Proof.
  unfold TS.extract_batch.
  repeat (wf_fold EmptyString path;
          [|unfold TS.import_step, TS.function_step, TS.class_step,
              TS.interface_step, TS.type_step; wf_emit]).
  apply well_formed_initial.
Qed.

Lemma py_batch_well_formed content path b :
  PY.extract_batch content path = Ret b -> well_formed_batch EmptyString path b.
Proof.
  unfold PY.extract_batch. intros H. apply bind_ret in H as (b0 & H0 & H).
  injection H as <-.
  repeat (wf_fold EmptyString path;
          [|unfold PY.function_step, PY.class_step, PY.const_step; wf_emit]).
  revert b0 H0.
  apply (fold_left_invariant
           (fun o => forall b', o = Ret b' -> well_formed_batch EmptyString path b')).
  - intros b' Hb'. injection Hb' as <-. apply well_formed_initial.
  - intros o m Ho b' Hb'. unfold PY.import_step in Hb'.
    apply bind_ret in Hb' as (b1 & -> & Hb').
    apply bind_ret in Hb' as (t & _ & Hb'). injection Hb' as <-.
    apply well_formed_emit; [now apply Ho | constructor].
Qed.

Lemma java_types_batch_well_formed content path :
  well_formed_batch (Java.package_name content) path (Java.types_batch content path).
Proof.
  unfold Java.types_batch.
  wf_fold (Java.package_name content) path;
    [|unfold Java.annotation_step; wf_emit].
  wf_fold (Java.package_name content) path; [|unfold Java.enum_step; wf_emit].
  wf_fold (Java.package_name content) path; [|unfold Java.interface_step; wf_emit].
  apply (fold_left_invariant
           (fun st => well_formed_batch (Java.package_name content) path (fst st))).
  - cbn [fst]. wf_fold (Java.package_name content) path;
      [apply well_formed_initial | unfold Java.import_step; wf_emit].
  - intros [b stack] m Hb. unfold Java.class_step. cbn [fst] in *. wf_emit.
Qed.

Lemma java_method_step_well_formed content path names ranges b m :
  well_formed_batch (Java.package_name content) path b ->
  well_formed_batch (Java.package_name content) path
    (Java.method_step content path names ranges b m).
Proof.
  intros Hb. unfold Java.method_step.
  destruct (Java.suppressed names m); [exact Hb | wf_emit].
Qed.

Lemma java_batch_well_formed content path :
  well_formed_batch (Java.package_name content) path (Java.extract_batch content path).
Proof.
  unfold Java.extract_batch.
  wf_fold (Java.package_name content) path; [|unfold Java.constant_step; wf_emit].
  wf_fold (Java.package_name content) path;
    [apply java_types_batch_well_formed
    |intros; now apply java_method_step_well_formed].
Qed.

(** Every node of a single-file result follows the identifier scheme. *)
Lemma extract_from_file_well_formed fs p r :
  extract_from_file fs p = Ret r ->
  exists pkg, Forall (well_formed_node pkg p) (nodes r).
Proof.
  unfold extract_from_file.
  destruct (negb (path_exists fs p)).
  { intros H. injection H as <-. exists EmptyString. constructor. }
  destruct (detect_language p) as [lang|].
  2:{ intros H. injection H as <-. exists EmptyString. constructor. }
  destruct (read_text_file fs p) as [content|msg|msg|exn];
    try (intros H; injection H as <-; exists EmptyString; constructor); [|discriminate].
  destruct (mem lang ["typescript"; "javascript"]).
  { intros H. injection H as <-. exists EmptyString. apply ts_batch_well_formed. }
  destruct (String.eqb lang "python").
  { unfold extract_python. intros H. apply bind_ret in H as (b & Hb & H).
    injection H as <-. exists EmptyString. exact (py_batch_well_formed _ _ _ Hb). }
  destruct (String.eqb lang "java").
  { intros H. injection H as <-. exists (Java.package_name content).
    apply java_batch_well_formed. }
  intros H. injection H as <-. exists EmptyString. constructor.
Qed.

(** ** Ids determine kind and name within a file *)

Lemma append_assoc (a b c : string) : (a ++ b) ++ c = a ++ (b ++ c).
Proof. induction a as [|x a IH]; simpl; [reflexivity | now rewrite IH]. Qed.

Lemma append_cancel_l (p s1 s2 : string) : p ++ s1 = p ++ s2 -> s1 = s2.
Proof.
  induction p as [|x p IH]; simpl; intros H; [exact H|].
  injection H as H. now apply IH.
Qed.

Lemma make_node_id_split kind path name :
  make_node_id kind path name = kind ++ "." ++ path ++ id_suffix name.
Proof.
  unfold make_node_id, id_suffix.
  assert (Hnil : forall s : string, s ++ EmptyString = s).
  { induction s as [|x s IH]; simpl; [reflexivity | now rewrite IH]. }
  destruct name as [n|]; [destruct (Str.nonempty n)|].
  - rewrite append_assoc. reflexivity.
  - now rewrite Hnil.
  - now rewrite Hnil.
Qed.

(** The kind is what precedes the first dot of an id. *)
Lemma kind_prefix_inj (k1 k2 r1 r2 : string) :
  Str.count_char "." k1 = 0%nat -> Str.count_char "." k2 = 0%nat ->
  k1 ++ "." ++ r1 = k2 ++ "." ++ r2 -> k1 = k2 /\ r1 = r2.
Proof.
  revert k2. induction k1 as [|x k1 IH]; intros [|y k2]; simpl; intros H1 H2 H.
  - injection H as H. now split.
  - injection H as Hy H. subst y. simpl in H2. discriminate.
  - injection H as Hx H. subst x. simpl in H1. discriminate.
  - injection H as Hxy H. subst y.
    destruct (Ascii.eqb x ".") eqn:Hx; [discriminate|]. simpl in H1, H2.
    destruct (IH k2 H1 H2 H) as [-> ->]. now split.
Qed.

Lemma kinds_dot_free (k : string) : In k KINDS -> Str.count_char "." k = 0%nat.
Proof. simpl. intuition (subst; reflexivity). Qed.

Lemma id_suffix_inj (a b : string) :
  id_suffix (Some a) = id_suffix (Some b) -> a = b.
Proof.
  unfold id_suffix. destruct a, b; simpl; intros H; try discriminate; auto.
  now injection H as -> ->.
Qed.

Lemma qualify_inj (pkg a b : string) : Java.qualify pkg a = Java.qualify pkg b -> a = b.
Proof.
  unfold Java.qualify. destruct (Str.nonempty pkg); [|auto].
  intros H. apply append_cancel_l in H. simpl in H. now injection H.
Qed.

Lemma scheme_id_name pkg path n :
  scheme_id pkg path n = make_node_id (node_kind n) path (scheme_name pkg n).
Proof.
  unfold scheme_id, scheme_name.
  destruct (String.eqb (node_kind n) "file") eqn:Hk.
  - apply String.eqb_eq in Hk. now rewrite Hk.
  - now destruct (Java.is_type_node n).
Qed.

(** Two well-formed nodes of one file with the same id have the same kind
    and the same name. *)
Lemma well_formed_id_inj pkg path n1 n2 :
  well_formed_node pkg path n1 -> well_formed_node pkg path n2 ->
  node_id n1 = node_id n2 ->
  node_kind n1 = node_kind n2 /\ node_name n1 = node_name n2.
Proof.
  intros (Hk1 & _ & Hid1 & Hf1) (Hk2 & _ & Hid2 & Hf2) Heq.
  rewrite Hid1, Hid2, !scheme_id_name, !make_node_id_split in Heq.
  apply kind_prefix_inj in Heq as [Hkind Hrest]; try now apply kinds_dot_free.
  split; [exact Hkind|].
  apply append_cancel_l in Hrest.
  unfold scheme_name, Java.is_type_node in Hrest. rewrite <- Hkind in Hrest.
  destruct (String.eqb (node_kind n1) "file") eqn:Hfile.
  - apply String.eqb_eq in Hfile. rewrite Hf1, Hf2; congruence.
  - destruct (mem (node_kind n1) Java.TYPE_KINDS).
    + apply id_suffix_inj in Hrest. now apply qualify_inj in Hrest.
    + now apply id_suffix_inj in Hrest.
Qed.

(** C9, as stated, fails: the two overloads of [m] in one Java class get the
    same node id, so the ids of that single-file batch are not pairwise
    distinct. *)
Lemma overloads_share_an_id :
  ~ List.NoDup (map node_id (nodes (extract_java Samples.overloads_java "A.java"))).
Proof.
  vm_compute. intros H.
  inversion H as [|x1 l1 N1 D1 E1]. inversion D1 as [|x2 l2 N2 D2 E2].
  inversion D2 as [|x3 l3 N3 D3 E3]. apply N3. now left.
Qed.

(** ** Java methods: attribution to the innermost enclosing type *)

Lemma insert_range_In t l u :
  In u (Java.insert_range t l) <-> u = t \/ In u l.
Proof.
  induction l as [|x l IH]; simpl.
  - intuition.
  - destruct (Java.range_start t <=? Java.range_start x)%nat; simpl; [intuition|].
    rewrite IH. intuition.
Qed.

Lemma sort_ranges_In l u : In u (Java.sort_ranges l) <-> In u l.
Proof.
  induction l as [|x l IH]; simpl; [reflexivity|].
  rewrite insert_range_In, IH. intuition.
Qed.

Lemma insert_range_ascending t l : ascending l -> ascending (Java.insert_range t l).
Proof.
  induction l as [|x l IH]; simpl; intros Hl.
  - split; [intros u []|exact I].
  - destruct Hl as [Hx Hl].
    destruct (Java.range_start t <=? Java.range_start x)%nat eqn:Hle.
    + apply Nat.leb_le in Hle. simpl. split; [|now split].
      intros u [<-|Hu]; [exact Hle|]. specialize (Hx u Hu). lia.
    + apply Nat.leb_gt in Hle. simpl. split; [|now apply IH].
      intros u Hu. apply insert_range_In in Hu as [->|Hu]; [lia | now apply Hx].
Qed.

Lemma sort_ranges_ascending l : ascending (Java.sort_ranges l).
Proof.
  induction l as [|x l IH]; simpl; [exact I | now apply insert_range_ascending].
Qed.

Lemma find_append {A : Type} (f : A -> bool) (l1 l2 : list A) :
  find f (l1 ++ l2)%list = match find f l1 with
                           | Some x => Some x
                           | None => find f l2
                           end.
Proof.
  induction l1 as [|x l1 IH]; simpl; [reflexivity|].
  now destruct (f x).
Qed.

(** Searching an ascending list from its end finds the latest start. *)
Lemma find_rev_ascending (f : Java.type_range -> bool) l t :
  ascending l -> find f (List.rev l) = Some t ->
  In t l /\ f t = true /\
  forall u, In u l -> f u = true -> (Java.range_start u <= Java.range_start t)%nat.
Proof.
  induction l as [|x l IH]; simpl; [discriminate|].
  intros [Hx Hl]. rewrite find_append.
  destruct (find f (List.rev l)) as [t'|] eqn:Hfind.
  - intros H. injection H as ->.
    destruct (IH Hl eq_refl) as (Hin & Hf & Hmax).
    repeat split; auto.
    intros u [<-|Hu] Hfu; [now apply Hx | now apply Hmax].
  - simpl. destruct (f x) eqn:Hfx; [|discriminate].
    intros H. injection H as ->.
    repeat split; auto.
    intros u [<-|Hu] Hfu; [lia|].
    apply List.in_rev in Hu.
    rewrite (find_none _ _ Hfind u Hu) in Hfu. discriminate.
Qed.

Lemma encloses_spec line_num t :
  Java.encloses line_num t = true <-> strictly_encloses line_num t.
Proof.
  unfold Java.encloses, strictly_encloses.
  rewrite andb_true_iff, !Nat.ltb_lt. reflexivity.
Qed.

(** [containing_class] on the sorted ranges: the id of the innermost
    enclosing range, or nothing when no range encloses the line. *)
Lemma containing_class_spec ns line_num :
  match Java.containing_class (Java.type_ranges_of ns) line_num with
  | Some id =>
      exists t, innermost_enclosing (Java.type_ranges_of ns) line_num t /\
                id = Java.range_id t
  | None =>
      forall t, In t (Java.type_ranges_of ns) -> ~ strictly_encloses line_num t
  end.
Proof.
  unfold Java.containing_class.
  destruct (find (Java.encloses line_num) (List.rev (Java.type_ranges_of ns)))
    as [t|] eqn:Hfind.
  - apply find_rev_ascending in Hfind as (Hin & Hf & Hmax);
      [|apply sort_ranges_ascending].
    exists t. split; [|reflexivity].
    repeat split; auto; try now apply encloses_spec.
    intros u Hu Henc. apply Hmax; [exact Hu | now apply encloses_spec].
  - intros t Hin Henc. apply encloses_spec in Henc.
    apply List.in_rev in Hin. rewrite (find_none _ _ Hfind t Hin) in Henc. discriminate.
Qed.

Lemma type_ranges_of_In ns t :
  In t (Java.type_ranges_of ns) ->
  exists n, In n ns /\ Java.is_type_node n = true /\
            t = (node_name n, node_id n, line_start n, line_end n).
Proof.
  unfold Java.type_ranges_of. rewrite sort_ranges_In, in_map_iff.
  intros (n & <- & Hn). apply filter_In in Hn as [Hin Hty]. now exists n.
Qed.

Lemma well_formed_id_nonempty pkg path n :
  well_formed_node pkg path n -> Str.nonempty (node_id n) = true.
Proof.
  intros (_ & _ & -> & _). rewrite scheme_id_name, make_node_id_split.
  now destruct (node_kind n).
Qed.

(** ** Block-boundary resolution *)

Lemma java_block_chars_agrees (line : string) :
  forall st q depth positive,
    scan_agrees st q depth positive ->
    match java_block_chars line st,
          depth_walk (fst (real_braces line q)) depth positive with
    | Found, Found => True
    | Carry st', Carry (depth', positive') =>
        scan_agrees st' (snd (real_braces line q)) depth' positive'
    | _, _ => False
    end.
Proof.
  induction line as [|ch rest IH];
    intros [c s instr inchr esc] [qs qc qe] d p (Hc & Hs & Hi & He & Hp & Hn);
    cbn [brace_count started in_string in_char escape_next
         q_string q_char q_escape] in *; subst.
  - cbn. repeat split; auto.
  - cbn [java_block_chars real_braces q_escape q_string q_char].
    destruct qe; [apply IH; repeat split; auto|].
    destruct (Ascii.eqb ch "\"); [apply IH; repeat split; auto|].
    destruct (Ascii.eqb ch Patterns.dquote && negb qc);
      [apply IH; repeat split; auto|].
    destruct (Ascii.eqb ch Patterns.squote && negb qs);
      [apply IH; repeat split; auto|].
    destruct (qs || qc); [apply IH; repeat split; auto|].
    destruct (real_braces rest (QuoteState qs qc false)) as [bs q'] eqn:Hrb.
    destruct (is_open ch).
    + specialize (IH (JavaScan (d + 1) true qs qc false) (QuoteState qs qc false)
                     (d + 1)%Z (p || (0 <? d + 1)%Z)).
      rewrite Hrb in IH. cbn [fst snd depth_walk]. apply IH.
      repeat split; auto. cbn. intros _ Hor.
      apply orb_false_iff in Hor as [_ Hlt]. apply Z.ltb_ge in Hlt. exact Hlt.
    + destruct (is_close ch).
      * cbn [fst snd depth_walk].
        destruct (d - 1 =? 0)%Z eqn:Hz.
        -- apply Z.eqb_eq in Hz.
           assert (Hsp : s = p).
           { destruct s, p; auto;
               try (specialize (Hn eq_refl eq_refl); lia);
               try (now specialize (Hp eq_refl)). }
           subst s. rewrite andb_true_r. destruct p; [exact I|].
           specialize (IH (JavaScan (d - 1) false qs qc false) (QuoteState qs qc false)
                          (d - 1)%Z false).
           rewrite Hrb in IH. apply IH. repeat split; auto. cbn. discriminate.
        -- rewrite !andb_false_r.
           specialize (IH (JavaScan (d - 1) s qs qc false) (QuoteState qs qc false)
                          (d - 1)%Z p).
           rewrite Hrb in IH. apply IH. repeat split; auto. cbn.
           intros Hs' Hp'. specialize (Hn Hs' Hp'). lia.
      * specialize (IH (JavaScan d s qs qc false) (QuoteState qs qc false) d p).
        rewrite Hrb in IH. apply IH. repeat split; auto.
Qed.

Lemma java_block_lines_agrees (lines : list string) :
  forall i st q depth positive,
    scan_agrees st q depth positive ->
    java_block_lines lines i st = depth_lines lines i q depth positive.
Proof.
  induction lines as [|line lines IH]; intros i st q d p Hag; simpl; [reflexivity|].
  pose proof (java_block_chars_agrees line st q d p Hag) as H.
  destruct (real_braces line q) as [bs q'] eqn:Hrb. cbn [fst snd] in H.
  destruct (java_block_chars line st) as [|st'];
    destruct (depth_walk bs d p) as [|[d' p']]; try contradiction; [reflexivity|].
  now apply IH.
Qed.

(** X13. The Java resolver computes the block end as the claim words it: brace
    characters inside quoted literals do not count, the end is the line
    where the real depth returns to zero after having been positive, and
    the last line when it never does. *)
Lemma find_java_block_end_is_real_block_end (lines : list string) (start_line : nat) :
  _find_java_block_end lines start_line = real_block_end lines start_line.
Proof.
  unfold _find_java_block_end, real_block_end.
  rewrite (java_block_lines_agrees _ _ _ quote_init 0%Z false); [reflexivity|].
  repeat split; auto; cbn; intros; try discriminate; lia.
Qed.

(** C2. The claim asks that a brace inside a quoted literal does not count,
    for the JS/TS resolver as for the Java one.  On a three-line class whose
    second line holds ['}'] in quotes, the real depth returns to zero on
    line 3, and the Java resolver answers 3; the JS/TS resolver counts the
    quoted brace and answers 2, and the TypeScript extractor gives the class
    node that [line_end]. *)
Theorem ts_block_end_counts_quoted_brace :
  real_block_end Samples.quoted_brace 0 = 3%nat /\
  _find_java_block_end Samples.quoted_brace 0 = 3%nat /\
  _find_block_end Samples.quoted_brace 0 = 2%nat /\
  map (fun n => (node_name n, line_start n, line_end n))
      (nodes (extract_typescript Samples.quoted_ts "a.ts"))
    = [ ("a.ts", 0%nat, 0%nat); ("A", 1%nat, 2%nat) ].
Proof. repeat split; vm_compute; reflexivity. Qed.

(** ** Supertype edges *)






















(** * Further properties of the directory engine *)

Section Trace.
Variables (fs : FileSystem) (incremental : bool) (file_hashes : gmap string string).

(** A run extends the accumulators by what the calls it makes contribute. *)
Lemma run_files_trace es st out :
  run_files fs incremental file_hashes es st = Ret out ->
  exists new,
    calls out = (calls st ++ new)%list /\
    all_nodes out = (all_nodes st ++ flat_map (contribution fs nodes) new)%list /\
    all_edges out = (all_edges st ++ flat_map (contribution fs edges) new)%list /\
    dir_errors out = (dir_errors st ++ flat_map (reported fs) new)%list /\
    files_processed out
      = (files_processed st + List.length (List.filter (succeeded fs) new))%nat /\
    (files_skipped out + List.length new
      = files_skipped st + List.length es)%nat /\
    (incremental = false -> new = map entry_path es).
Proof.
  revert st. induction es as [|e es IH]; intros st H; simpl in H.
  - injection H as <-. exists []. simpl. rewrite !app_nil_r.
    repeat split; auto; lia.
  - apply bind_ret in H as (st' & Hstep & Hrun).
    destruct (IH _ Hrun) as (new & Hc & Hn & He & Herr & Hp & Hs & Hfull).
    apply file_step_inv in Hstep.
    destruct Hstep as [h Hinc _ _ ->|r Hr Hne ->|r Hr Hok ->]; simpl in *.
    + exists new. repeat split; auto; [lia|]. intros Hf. congruence.
    + assert (Hsu : succeeded fs (entry_path e) = false
                    /\ contribution fs nodes (entry_path e) = []
                    /\ contribution fs edges (entry_path e) = []
                    /\ reported fs (entry_path e) = errors r).
      { unfold contribution, reported, succeeded. rewrite Hr.
        destruct (errors r); [contradiction | auto]. }
      destruct Hsu as (Hsu & Hcn & Hce & Hrp).
      exists (entry_path e :: new). simpl. rewrite Hsu, Hcn, Hce, Hrp.
      rewrite <- !app_assoc in *. simpl in *.
      repeat split; auto; try lia.
      intros Hf. now rewrite (Hfull Hf).
    + assert (Hsu : succeeded fs (entry_path e) = true
                    /\ contribution fs nodes (entry_path e) = nodes r
                    /\ contribution fs edges (entry_path e) = edges r
                    /\ reported fs (entry_path e) = []).
      { unfold contribution, reported, succeeded. rewrite Hr, Hok. auto. }
      destruct Hsu as (Hsu & Hcn & Hce & Hrp).
      exists (entry_path e :: new). simpl. rewrite Hsu, Hcn, Hce, Hrp.
      rewrite <- !app_assoc in *. simpl in *.
      repeat split; auto; try lia.
      intros Hf. now rewrite (Hfull Hf).
Qed.

End Trace.

(** X1. The batch of a directory run is the concatenation, in call order, of
    what the calls of the extractor contribute: the nodes and edges of the
    error-free results, and the errors of the others. *)
Theorem directory_batch_is_concatenation (fs : FileSystem) (directory : string)
    (incremental : bool) (file_hashes : option (gmap string string))
    (out : dir_state) :
  path_isdir fs directory = true ->
  extract_from_directory fs directory incremental file_hashes = Ret out ->
  all_nodes out = flat_map (contribution fs nodes) (calls out) /\
  all_edges out = flat_map (contribution fs edges) (calls out) /\
  dir_errors out = flat_map (reported fs) (calls out).
Proof.
  intros Hdir Hrun. unfold extract_from_directory in Hrun.
  rewrite Hdir in Hrun. simpl in Hrun.
  apply run_files_trace in Hrun as (new & Hc & Hn & He & Herr & _).
  simpl in *. subst new. auto.
Qed.

(** X2. Every supported file of the walk is either skipped or handed to the
    extractor, once: [files_skipped] plus the number of calls is the number
    of files of the walk; [files_processed] counts the calls with an
    error-free result; a full run skips nothing and calls the extractor on
    every file of the walk, in walk order. *)
Theorem directory_counts (fs : FileSystem) (directory : string)
    (incremental : bool) (file_hashes : option (gmap string string))
    (out : dir_state) :
  path_isdir fs directory = true ->
  extract_from_directory fs directory incremental file_hashes = Ret out ->
  (files_skipped out + List.length (calls out)
     = List.length (walk_files fs directory))%nat /\
  files_processed out = List.length (List.filter (succeeded fs) (calls out)) /\
  (files_processed out + files_skipped out <= List.length (walk_files fs directory))%nat /\
  (incremental = false ->
   files_skipped out = 0%nat /\ calls out = map entry_path (walk_files fs directory)).
Proof.
  intros Hdir Hrun. unfold extract_from_directory in Hrun.
  rewrite Hdir in Hrun. simpl in Hrun.
  apply run_files_trace in Hrun as (new & Hc & _ & _ & _ & Hp & Hs & Hfull).
  simpl in *. subst new.
  pose proof (filter_length_le (succeeded fs) (calls out)) as Hle.
  repeat split; auto; try lia.
  specialize (Hfull H). rewrite Hfull in Hs. rewrite length_map in Hs. lia.
Qed.

Lemma directory_batch_is_concatenation_witness :
  all_nodes Samples.full_run
    = flat_map (contribution Samples.project_fs nodes) (calls Samples.full_run) /\
  all_edges Samples.full_run
    = flat_map (contribution Samples.project_fs edges) (calls Samples.full_run) /\
  dir_errors Samples.full_run
    = flat_map (reported Samples.project_fs) (calls Samples.full_run).
Proof.
  apply (directory_batch_is_concatenation Samples.project_fs "proj" false None).
  - reflexivity.
  - vm_compute. reflexivity.
Defined.

Lemma directory_counts_witness :
  (files_skipped Samples.incremental_run + List.length (calls Samples.incremental_run)
     = List.length (walk_files Samples.project_fs "proj"))%nat /\
  files_processed Samples.incremental_run
    = List.length (List.filter (succeeded Samples.project_fs)
                               (calls Samples.incremental_run)) /\
  (files_processed Samples.incremental_run + files_skipped Samples.incremental_run
     <= List.length (walk_files Samples.project_fs "proj"))%nat /\
  (true = false ->
   files_skipped Samples.incremental_run = 0%nat /\
   calls Samples.incremental_run
     = map entry_path (walk_files Samples.project_fs "proj")).
Proof.
  apply (directory_counts Samples.project_fs "proj" true (Some Samples.previous_hashes)).
  - reflexivity.
  - vm_compute. reflexivity.
Defined.

Lemma incremental_call_iff (fs : FileSystem) (directory : string)
    (file_hashes : gmap string string) (F : walk_entry) (bytes : string)
    (out : dir_state) :
  path_isdir fs directory = true ->
  In F (walk_files fs directory) ->
  List.NoDup (map entry_path (walk_files fs directory)) ->
  read_bytes fs (entry_path F) = Ret bytes ->
  extract_from_directory fs directory true (Some file_hashes) = Ret out ->
  (In (entry_path F) (calls out) <->
   file_hashes !! entry_rel F <> Some (MD5.hexdigest bytes)).
Proof.
  intros Hdir Hin Hpath Hbytes Hrun.
  unfold extract_from_directory in Hrun. rewrite Hdir in Hrun. simpl in Hrun.
  apply in_split in Hin as (pre & post & Hwalk). rewrite Hwalk in Hrun, Hpath.
  apply run_files_split in Hrun as (st1 & st2 & Hpre & Hstep & Hpost).
  rewrite map_app in Hpath. simpl in Hpath. apply NoDup_remove_2 in Hpath.
  assert (Hu : unchanged file_hashes (entry_rel F) (MD5.hexdigest bytes) = true <->
               file_hashes !! entry_rel F = Some (MD5.hexdigest bytes)).
  { unfold unchanged. destruct (file_hashes !! entry_rel F) as [h|]; [|split; discriminate].
    rewrite String.eqb_eq. split; congruence. }
  unfold file_step, compute_file_hash in Hstep. rewrite Hbytes in Hstep. simpl in Hstep.
  destruct (unchanged file_hashes (entry_rel F) (MD5.hexdigest bytes)) eqn:Hun.
  - injection Hstep as <-. split.
    + intros Hc. exfalso.
      destruct (run_files_calls _ _ _ _ _ _ Hpost _ Hc) as [H2|H2].
      * simpl in H2. destruct (run_files_calls _ _ _ _ _ _ Hpre _ H2) as [[]|H1].
        apply Hpath. apply in_or_app. now left.
      * apply Hpath. apply in_or_app. now right.
    + intros Hne. exfalso. apply Hne. now apply Hu.
  - split.
    + intros _ Heq. apply Hu in Heq. discriminate.
    + intros _. apply (run_files_calls_mono _ _ _ _ _ _ Hpost).
      unfold extract_step in Hstep. apply bind_ret in Hstep as (r & _ & Hstep).
      destruct (errors r); injection Hstep as <-; simpl;
        apply in_or_app; right; now left.
Qed.

(** X3. In incremental mode the extractor is called on a file of the walk
    exactly when the previous-hash table has no checksum equal to the
    file's current one for its relative path: a changed or unlisted file is
    extracted again, an unchanged one never. *)
Theorem extracted_iff_changed (fs : FileSystem) (directory : string)
    (file_hashes : gmap string string) (F : walk_entry) (bytes : string)
    (out : dir_state) :
  path_isdir fs directory = true ->
  In F (walk_files fs directory) ->
  List.NoDup (map entry_path (walk_files fs directory)) ->
  read_bytes fs (entry_path F) = Ret bytes ->
  extract_from_directory fs directory true (Some file_hashes) = Ret out ->
  (In (entry_path F) (calls out) <->
   file_hashes !! entry_rel F <> Some (MD5.hexdigest bytes)).
Proof. apply incremental_call_iff. Qed.

Lemma extracted_iff_changed_witness :
  In "proj/sub/I.java" (calls Samples.incremental_run) <->
  Samples.previous_hashes !! "sub/I.java" <> Some (MD5.hexdigest Samples.imports_java).
Proof.
  apply (extracted_iff_changed Samples.project_fs "proj" Samples.previous_hashes
           (Entry "proj/sub/I.java" "sub/I.java") Samples.imports_java).
  - reflexivity.
  - vm_compute. tauto.
  - vm_compute. nodup_strings.
  - reflexivity.
  - vm_compute. reflexivity.
Defined.

(** ** Exceptions *)

(** X5. Nothing in the directory loop catches an exception: when the files
    before [F] pass and either the checksum read of [F] raises (incremental
    mode), or [F] is not skipped and its extraction raises, the whole call
    raises that exception and returns no batch. *)
Theorem exception_aborts_directory_run (fs : FileSystem) (directory : string)
    (incremental : bool) (file_hashes : option (gmap string string))
    (pre post : list walk_entry) (F : walk_entry) (st1 : dir_state) (exn : string) :
  path_isdir fs directory = true ->
  walk_files fs directory = (pre ++ F :: post)%list ->
  run_files fs incremental (default ∅ file_hashes) pre dir_init = Ret st1 ->
  (incremental = true /\ read_bytes fs (entry_path F) = Raise exn) \/
  (extract_from_file fs (entry_path F) = Raise exn /\
   (incremental = false \/
    exists bytes, read_bytes fs (entry_path F) = Ret bytes /\
                  unchanged (default ∅ file_hashes) (entry_rel F)
                            (MD5.hexdigest bytes) = false)) ->
  extract_from_directory fs directory incremental file_hashes = Raise exn.
Proof.
  intros Hdir Hwalk Hpre Hcase.
  unfold extract_from_directory. rewrite Hdir. cbn [negb].
  rewrite Hwalk, run_files_app, Hpre. simpl.
  assert (Hstep : file_step fs incremental (default ∅ file_hashes) st1 F = Raise exn).
  { unfold file_step, compute_file_hash, extract_step.
    destruct Hcase as [[-> Hb]|[Hx [-> |(bytes & Hb & Hu)]]].
    - now rewrite Hb.
    - now rewrite Hx.
    - destruct incremental; [|now rewrite Hx].
      rewrite Hb. simpl. rewrite Hu. now rewrite Hx. }
  now rewrite Hstep.
Qed.

Lemma exception_aborts_directory_run_witness :
  extract_from_directory Samples.raising_fs "proj" false None = Raise "IndexError".
Proof.
  apply (exception_aborts_directory_run Samples.raising_fs "proj" false None
           [Entry "proj/A.java" "A.java"] [Entry "proj/C.java" "C.java"]
           (Entry "proj/b.py" "b.py")
           (Samples.state_of
              (run_files Samples.raising_fs false ∅ [Entry "proj/A.java" "A.java"]
                         dir_init))).
  - reflexivity.
  - vm_compute. reflexivity.
  - vm_compute. reflexivity.
  - right. split; [vm_compute; reflexivity | now left].
Defined.

(** ** The returned table and the next run *)

(** An error-free result carries the checksum of the text that was read. *)
Lemma file_hash_of_success (fs : FileSystem) (p : string) (r : ExtractionResult) :
  extract_from_file fs p = Ret r -> errors r = [] ->
  exists content, read_text_file fs p = ReadOk content /\
                  file_hash r = MD5.hexdigest content.
Proof.
  unfold extract_from_file.
  destruct (negb (path_exists fs p)); [intros H; now injection H as <-|].
  destruct (detect_language p) as [lang|]; [|intros H; now injection H as <-].
  destruct (read_text_file fs p) as [content|msg|msg|e];
    try (intros H; now injection H as <-); [|discriminate].
  intros H Herr. exists content. split; [reflexivity|].
  destruct (mem lang ["typescript"; "javascript"]); [now injection H as <-|].
  destruct (String.eqb lang "python").
  { unfold extract_python in H. apply bind_ret in H as (b & _ & H).
    now injection H as <-. }
  destruct (String.eqb lang "java"); [now injection H as <-|].
  injection H as <-. discriminate.
Qed.

Section Table.
Variables (fs : FileSystem) (incremental : bool) (file_hashes : gmap string string).

(** The three fates of a file in a pass of the loop body that returns. *)
Lemma file_step_fate st e st' :
  file_step fs incremental file_hashes st e = Ret st' ->
  (exists h, entry_hash fs incremental file_hashes e = Some h /\
             incremental = true /\
             compute_file_hash fs (entry_path e) = Ret h /\
             unchanged file_hashes (entry_rel e) h = true /\
             st' = skipped_state st e h) \/
  (exists r, entry_hash fs incremental file_hashes e = Some (file_hash r) /\
             extract_from_file fs (entry_path e) = Ret r /\ errors r = [] /\
             st' = processed_state st e r) \/
  (exists r, entry_hash fs incremental file_hashes e = None /\
             extract_from_file fs (entry_path e) = Ret r /\ errors r <> [] /\
             st' = failed_state st e r).
Proof.
  assert (Hx : forall st0, extract_step fs st e = Ret st0 ->
            (exists r, recorded_by_extract fs e = Some (file_hash r) /\
                       extract_from_file fs (entry_path e) = Ret r /\ errors r = [] /\
                       st0 = processed_state st e r) \/
            (exists r, recorded_by_extract fs e = None /\
                       extract_from_file fs (entry_path e) = Ret r /\ errors r <> [] /\
                       st0 = failed_state st e r)).
  { intros st0 H. unfold extract_step in H. unfold recorded_by_extract.
    destruct (extract_from_file fs (entry_path e)) as [r|exn]; simpl in H; [|discriminate].
    destruct (errors r) as [|msg msgs] eqn:Herr; injection H as <-.
    - left. exists r. rewrite Herr. auto.
    - right. exists r. rewrite Herr. repeat split; auto. }
  unfold file_step, entry_hash. destruct incremental.
  - destruct (compute_file_hash fs (entry_path e)) as [h|exn]; simpl; [|discriminate].
    destruct (unchanged file_hashes (entry_rel e) h) eqn:Hu.
    + intros H. injection H as <-. left. exists h. auto.
    + intros H. right. now apply Hx.
  - intros H. right. now apply Hx.
Qed.

Lemma file_step_table st e st' :
  file_step fs incremental file_hashes st e = Ret st' ->
  new_hashes st' = match entry_hash fs incremental file_hashes e with
                   | Some h => <[entry_rel e := h]> (new_hashes st)
                   | None => new_hashes st
                   end.
Proof.
  intros H. apply file_step_fate in H
    as [(h & -> & _ & _ & _ & ->)|[(r & -> & _ & _ & ->)|(r & -> & _ & _ & ->)]];
    reflexivity.
Qed.

(** The table a run returns, entry by entry. *)
Lemma run_files_table es st out :
  run_files fs incremental file_hashes es st = Ret out ->
  List.NoDup (map entry_rel es) ->
  forall e, In e es ->
    new_hashes out !! entry_rel e
    = match entry_hash fs incremental file_hashes e with
      | Some h => Some h
      | None => new_hashes st !! entry_rel e
      end.
Proof.
  revert st. induction es as [|e0 es IH]; intros st Hrun Hnd e Hin; [destruct Hin|].
  simpl in Hrun. apply bind_ret in Hrun as (st' & Hstep & Hrun).
  simpl in Hnd. apply List.NoDup_cons_iff in Hnd as [Hnot Hnd].
  pose proof (file_step_table _ _ _ Hstep) as Htab.
  destruct Hin as [<-|Hin].
  - rewrite (run_files_hashes_frame _ _ _ _ _ _ _ Hrun Hnot), Htab.
    destruct (entry_hash fs incremental file_hashes e0); [apply lookup_insert_eq | reflexivity].
  - rewrite (IH _ Hrun Hnd e Hin), Htab.
    assert (Hne : entry_rel e0 <> entry_rel e).
    { intros Heq. apply Hnot. rewrite Heq. now apply in_map. }
    destruct (entry_hash fs incremental file_hashes e); [reflexivity|].
    destruct (entry_hash fs incremental file_hashes e0);
      [now rewrite lookup_insert_ne | reflexivity].
Qed.

End Table.

Section Rerun.
Variables (fs : FileSystem) (incremental : bool) (file_hashes table : gmap string string).

Lemma rerun_files es :
  forall st1 out1 st2,
    run_files fs incremental file_hashes es st1 = Ret out1 ->
    (forall e, In e es ->
       table !! entry_rel e = entry_hash fs incremental file_hashes e) ->
    (forall e, In e es -> reads_as_stored fs e) ->
    exists out2 errs,
      run_files fs true table es st2 = Ret out2 /\
      all_nodes out2 = all_nodes st2 /\ all_edges out2 = all_edges st2 /\
      files_processed out2 = files_processed st2 /\
      (files_skipped out2 + files_processed st1 + files_skipped st1
       = files_skipped st2 + files_processed out1 + files_skipped out1)%nat /\
      dir_errors out1 = (dir_errors st1 ++ errs)%list /\
      dir_errors out2 = (dir_errors st2 ++ errs)%list.
Proof.
  induction es as [|e es IH]; intros st1 out1 st2 Hrun HT Hb; simpl in Hrun.
  - injection Hrun as <-. exists st2, []. simpl. rewrite !app_nil_r.
    repeat split; auto; lia.
  - apply bind_ret in Hrun as (st1' & Hstep & Hrun).
    assert (HT' : forall e', In e' es ->
              table !! entry_rel e' = entry_hash fs incremental file_hashes e')
      by (intros; apply HT; now right).
    assert (Hb' : forall e', In e' es -> reads_as_stored fs e')
      by (intros; apply Hb; now right).
    destruct (Hb e (or_introl eq_refl)) as (bytes & Hbytes & Htext).
    specialize (HT e (or_introl eq_refl)).
    assert (Hskip : forall h,
              table !! entry_rel e = Some h -> h = MD5.hexdigest bytes ->
              file_step fs true table st2 e = Ret (skipped_state st2 e h)).
    { intros h Hh ->. unfold file_step, compute_file_hash. rewrite Hbytes. simpl.
      unfold unchanged. now rewrite Hh, String.eqb_refl. }
    apply file_step_fate in Hstep
      as [(h & Hh & _ & Hc & _ & ->)|[(r & Hh & Hr & Hok & ->)|(r & Hh & Hr & Hne & ->)]].
    + rewrite Hh in HT.
      assert (Heq : h = MD5.hexdigest bytes).
      { unfold compute_file_hash in Hc. rewrite Hbytes in Hc. simpl in Hc. congruence. }
      destruct (IH _ _ (skipped_state st2 e h) Hrun HT' Hb')
        as (out2 & errs & H2 & Hn & He & Hp & Hs & He1 & He2).
      exists out2, errs. cbn [run_files]. rewrite (Hskip h HT Heq). simpl in *.
      repeat split; auto; lia.
    + rewrite Hh in HT.
      assert (Heq : file_hash r = MD5.hexdigest bytes).
      { destruct (file_hash_of_success _ _ _ Hr Hok) as (content & Hc & ->).
        now rewrite (Htext content Hc). }
      destruct (IH _ _ (skipped_state st2 e (file_hash r)) Hrun HT' Hb')
        as (out2 & errs & H2 & Hn & He & Hp & Hs & He1 & He2).
      exists out2, errs. cbn [run_files]. rewrite (Hskip _ HT Heq). simpl in *.
      repeat split; auto; lia.
    + rewrite Hh in HT.
      destruct (IH _ _ (failed_state st2 e r) Hrun HT' Hb')
        as (out2 & errs & H2 & Hn & He & Hp & Hs & He1 & He2).
      exists out2, (errors r ++ errs)%list. cbn [run_files].
      assert (Hstep2 : file_step fs true table st2 e = Ret (failed_state st2 e r)).
      { unfold file_step, compute_file_hash. rewrite Hbytes. simpl.
        unfold unchanged. rewrite HT. unfold extract_step. rewrite Hr. simpl.
        destruct (errors r); [contradiction | reflexivity]. }
      rewrite Hstep2. simpl in *. rewrite !app_assoc.
      repeat split; auto; lia.
Qed.

End Rerun.

(** X6. Running again, incrementally, with the table the previous run
    returned and with no file changed: when every file of the walk reads as
    stored (the decoded text is the bytes on disk), the second run returns,
    emits no node and no edge, processes nothing, skips exactly the files
    the first run processed or skipped, and reports the same errors again
    (the files that failed are extracted again). *)
Theorem rerun_with_returned_table (fs : FileSystem) (directory : string)
    (incremental : bool) (file_hashes : option (gmap string string))
    (out1 : dir_state) :
  path_isdir fs directory = true ->
  List.NoDup (map entry_rel (walk_files fs directory)) ->
  (forall e, In e (walk_files fs directory) -> reads_as_stored fs e) ->
  extract_from_directory fs directory incremental file_hashes = Ret out1 ->
  exists out2,
    extract_from_directory fs directory true (Some (new_hashes out1)) = Ret out2 /\
    all_nodes out2 = [] /\ all_edges out2 = [] /\
    files_processed out2 = 0%nat /\
    files_skipped out2 = (files_processed out1 + files_skipped out1)%nat /\
    dir_errors out2 = dir_errors out1.
Proof.
  intros Hdir Hnd Hb Hrun. unfold extract_from_directory in *.
  rewrite Hdir in *. cbn [negb] in *. simpl in Hrun.
  assert (HT : forall e, In e (walk_files fs directory) ->
             new_hashes out1 !! entry_rel e
             = entry_hash fs incremental (default ∅ file_hashes) e).
  { intros e He. rewrite (run_files_table _ _ _ _ _ _ Hrun Hnd e He).
    destruct (entry_hash _ _ _ e); [reflexivity | apply lookup_empty]. }
  destruct (rerun_files fs incremental (default ∅ file_hashes) (new_hashes out1)
              _ _ _ dir_init Hrun HT Hb)
    as (out2 & errs & H2 & Hn & He & Hp & Hs & He1 & He2).
  exists out2. simpl in *. repeat split; auto; try lia. congruence.
Qed.

Lemma rerun_with_returned_table_witness :
  exists out2,
    extract_from_directory Samples.project_fs "proj" true
      (Some (new_hashes Samples.full_run)) = Ret out2 /\
    all_nodes out2 = [] /\ all_edges out2 = [] /\
    files_processed out2 = 0%nat /\
    files_skipped out2
      = (files_processed Samples.full_run + files_skipped Samples.full_run)%nat /\
    dir_errors out2 = dir_errors Samples.full_run.
Proof.
  apply (rerun_with_returned_table Samples.project_fs "proj" false None).
  - reflexivity.
  - vm_compute. nodup_strings.
  - intros e He. vm_compute in He.
    destruct He as [<-|[<-|[<-|[<-|[]]]]]; eexists; (split; [reflexivity|]);
      intros content Hc; vm_compute in Hc;
      first [discriminate | injection Hc as <-; vm_compute; reflexivity].
  - vm_compute. reflexivity.
Defined.

(** X7. The table records, for a processed file, the checksum of the text
    that was read, while the skip test compares with the checksum of the
    bytes on disk: on the next incremental run with the returned table, a
    file that a full run processed is extracted again exactly when the two
    checksums differ. *)
Theorem processed_file_skipped_iff_text_is_bytes (fs : FileSystem)
    (directory : string) (F : walk_entry) (content bytes : string)
    (r : ExtractionResult) (out1 out2 : dir_state) :
  path_isdir fs directory = true ->
  In F (walk_files fs directory) ->
  List.NoDup (map entry_rel (walk_files fs directory)) ->
  List.NoDup (map entry_path (walk_files fs directory)) ->
  read_text_file fs (entry_path F) = ReadOk content ->
  read_bytes fs (entry_path F) = Ret bytes ->
  extract_from_file fs (entry_path F) = Ret r -> errors r = [] ->
  extract_from_directory fs directory false None = Ret out1 ->
  extract_from_directory fs directory true (Some (new_hashes out1)) = Ret out2 ->
  new_hashes out1 !! entry_rel F = Some (MD5.hexdigest content) /\
  (In (entry_path F) (calls out2) <-> MD5.hexdigest content <> MD5.hexdigest bytes).
Proof.
  intros Hdir Hin Hrel Hpath Htext Hbytes Hr Hok Hrun1 Hrun2.
  assert (Htab : new_hashes out1 !! entry_rel F = Some (MD5.hexdigest content)).
  { unfold extract_from_directory in Hrun1. rewrite Hdir in Hrun1. simpl in Hrun1.
    rewrite (run_files_table _ _ _ _ _ _ Hrun1 Hrel F Hin).
    unfold entry_hash, recorded_by_extract. rewrite Hr, Hok.
    destruct (file_hash_of_success _ _ _ Hr Hok) as (c & Hc & ->). congruence. }
  split; [exact Htab|].
  rewrite (incremental_call_iff fs directory (new_hashes out1) F bytes out2
             Hdir Hin Hpath Hbytes Hrun2).
  rewrite Htab. split; congruence.
Qed.

Lemma processed_file_skipped_iff_text_is_bytes_witness :
  new_hashes Samples.crlf_first_run !! "x.py" = Some (MD5.hexdigest Samples.crlf_text) /\
  (In "proj/x.py" (calls Samples.crlf_second_run) <->
   MD5.hexdigest Samples.crlf_text <> MD5.hexdigest Samples.crlf_bytes).
Proof.
  apply (processed_file_skipped_iff_text_is_bytes Samples.crlf_fs "proj"
           (Entry "proj/x.py" "x.py") Samples.crlf_text Samples.crlf_bytes
           (Samples.result_of (extract_from_file Samples.crlf_fs "proj/x.py"))).
  - reflexivity.
  - vm_compute. tauto.
  - vm_compute. nodup_strings.
  - vm_compute. nodup_strings.
  - reflexivity.
  - reflexivity.
  - vm_compute. reflexivity.
  - vm_compute. reflexivity.
  - vm_compute. reflexivity.
  - vm_compute. reflexivity.
Defined.

(** * Further properties of single-file extraction *)

(** ** Line numbers and block ends *)

Lemma count_take_le c k s :
  (Str.count_char c (Str.take k s) <= Str.count_char c s)%nat.
Proof.
  revert k. induction s as [|d s IH]; intros [|k]; simpl; try lia.
  specialize (IH k). lia.
Qed.

Lemma split_on_length c s :
  List.length (Str.split_on c s) = (Str.count_char c s + 1)%nat.
Proof.
  induction s as [|d s IH]; simpl; [reflexivity|].
  destruct (Ascii.eqb d c); simpl; [now rewrite IH|].
  destruct (Str.split_on c s); simpl in *; lia.
Qed.

(** The line of a match is a line of the text. *)
Lemma line_of_bounds content m :
  (1 <= line_of content m <= List.length (Str.split_on Str.nl content))%nat.
Proof.
  unfold line_of. rewrite split_on_length.
  pose proof (count_take_le Str.nl (Re.m_start m) content). lia.
Qed.

Lemma block_lines_bounds lines :
  forall i c s n, block_lines lines i c s = Some n ->
                  (i + 1 <= n <= i + List.length lines)%nat.
Proof.
  induction lines as [|l lines IH]; intros i c s n H; simpl in H; [discriminate|].
  destruct (block_chars l c s) as [|[c' s']].
  - injection H as <-. simpl. lia.
  - apply IH in H. simpl. lia.
Qed.

Lemma java_block_lines_bounds lines :
  forall i st n, java_block_lines lines i st = Some n ->
                 (i + 1 <= n <= i + List.length lines)%nat.
Proof.
  induction lines as [|l lines IH]; intros i st n H; simpl in H; [discriminate|].
  destruct (java_block_chars l st) as [|st'].
  - injection H as <-. simpl. lia.
  - apply IH in H. simpl. lia.
Qed.

Lemma python_block_lines_bounds lines :
  forall i indent n, python_block_lines lines i indent = Some n ->
                     (i <= n < i + List.length lines)%nat.
Proof.
  induction lines as [|l lines IH]; intros i indent n H;
    cbn [python_block_lines] in H; [discriminate|].
  destruct (negb (Str.nonempty (Str.strip l))); [apply IH in H; simpl; lia|].
  destruct (Str.startswith "#" (Str.strip l)); [apply IH in H; simpl; lia|].
  destruct (Str.indent_of l <=? indent)%nat; [|apply IH in H; simpl; lia].
  injection H as <-. simpl. lia.
Qed.

Lemma skipn_length_eq {A : Type} (k : nat) (l : list A) :
  List.length (skipn k l) = (List.length l - k)%nat.
Proof.
  revert l. induction k as [|k IH]; intros [|x l]; simpl; auto.
Qed.

Lemma resolver_bounds (lines : list string) (start_line : nat) :
  (start_line < List.length lines)%nat ->
  (start_line + 1 <= _find_block_end lines start_line <= List.length lines)%nat /\
  (start_line + 1 <= _find_java_block_end lines start_line <= List.length lines)%nat /\
  (start_line + 1 <= _find_python_block_end lines start_line <= List.length lines)%nat.
Proof.
  intros Hlt. repeat split.
  - unfold _find_block_end.
    destruct (block_lines _ _ _ _) as [n|] eqn:H; [|lia].
    apply block_lines_bounds in H. lia.
  - unfold _find_block_end.
    destruct (block_lines _ _ _ _) as [n|] eqn:H; [|lia].
    apply block_lines_bounds in H. rewrite skipn_length_eq in H. lia.
  - unfold _find_java_block_end.
    destruct (java_block_lines _ _ _) as [n|] eqn:H; [|lia].
    apply java_block_lines_bounds in H. lia.
  - unfold _find_java_block_end.
    destruct (java_block_lines _ _ _) as [n|] eqn:H; [|lia].
    apply java_block_lines_bounds in H. rewrite skipn_length_eq in H. lia.
  - unfold _find_python_block_end.
    destruct (nth_error lines start_line); [|lia].
    destruct (python_block_lines _ _ _) as [n|] eqn:H; [|lia].
    apply python_block_lines_bounds in H. lia.
  - unfold _find_python_block_end.
    destruct (nth_error lines start_line) eqn:Hn;
      [|apply nth_error_None in Hn; lia].
    destruct (python_block_lines _ _ _) as [n|] eqn:H; [|lia].
    apply python_block_lines_bounds in H. rewrite skipn_length_eq in H. lia.
Qed.

(** X8. For a declaration that starts on a line of the text, each of the
    three resolvers answers a 1-indexed line from the declaration's own
    line to the last line: the block end is never before the declaration
    and never past the end of the text. *)
Theorem block_end_bounds (lines : list string) (start_line : nat) :
  (start_line < List.length lines)%nat ->
  (start_line + 1 <= _find_block_end lines start_line <= List.length lines)%nat /\
  (start_line + 1 <= _find_java_block_end lines start_line <= List.length lines)%nat /\
  (start_line + 1 <= _find_python_block_end lines start_line <= List.length lines)%nat.
Proof. apply resolver_bounds. Qed.

Lemma block_end_bounds_witness :
  (0 + 1 <= _find_block_end Samples.quoted_brace 0
     <= List.length Samples.quoted_brace)%nat /\
  (0 + 1 <= _find_java_block_end Samples.quoted_brace 0
     <= List.length Samples.quoted_brace)%nat /\
  (0 + 1 <= _find_python_block_end Samples.quoted_brace 0
     <= List.length Samples.quoted_brace)%nat.
Proof. apply (block_end_bounds Samples.quoted_brace 0). simpl. lia. Defined.

(** The span of a declaration found by a match. *)
Lemma ts_span content m :
  (line_of content m
   <= _find_block_end (Str.split_on Str.nl content) (line_of content m - 1))%nat.
Proof.
  pose proof (line_of_bounds content m) as Hb.
  pose proof (resolver_bounds (Str.split_on Str.nl content) (line_of content m - 1)) as H.
  destruct H as (H & _); lia.
Qed.

Lemma java_span content m :
  (line_of content m
   <= _find_java_block_end (Str.split_on Str.nl content) (line_of content m - 1))%nat.
Proof.
  pose proof (line_of_bounds content m) as Hb.
  pose proof (resolver_bounds (Str.split_on Str.nl content) (line_of content m - 1)) as H.
  destruct H as (_ & H & _); lia.
Qed.

Lemma python_span content m :
  (line_of content m
   <= _find_python_block_end (Str.split_on Str.nl content) (line_of content m - 1))%nat.
Proof.
  pose proof (line_of_bounds content m) as Hb.
  pose proof (resolver_bounds (Str.split_on Str.nl content) (line_of content m - 1)) as H.
  destruct H as (_ & _ & H); lia.
Qed.

(** ** Batches stay well formed *)

Lemma rooted_weaken ns ns' e : rooted ns e -> rooted (ns ++ ns')%list e.
Proof. intros (n & Hin & Hid). exists n. split; [apply in_or_app; now left | exact Hid]. Qed.

Lemma rooted_file f b ns e :
  batch_ok f b -> from_id e = node_id f -> rooted (fst b ++ ns)%list e.
Proof.
  intros [(rest & Hb & _) _] Hid. exists f. split; [|now rewrite Hid].
  rewrite Hb. now left.
Qed.

Lemma rooted_new ns n e : from_id e = node_id n -> rooted (ns ++ [n])%list e.
Proof. intros Hid. exists n. split; [apply in_or_app; right; now left | now rewrite Hid]. Qed.

Lemma batch_ok_emit f b ns es :
  batch_ok f b ->
  Forall declaration_node ns ->
  (forall e, In e es -> edge_well_formed e /\ rooted (fst b ++ ns)%list e) ->
  batch_ok f (emit b ns es).
Proof.
  intros [(rest & Hb & Hrest) Hedges] Hns Hes. split; unfold emit; cbn [fst snd].
  - exists (rest ++ ns)%list. rewrite Hb. split; [reflexivity|].
    apply Forall_app. now split.
  - apply Forall_app. split.
    + eapply List.Forall_impl; [|exact Hedges].
      intros e [Hw Hr]. split; [exact Hw | now apply rooted_weaken].
    + apply List.Forall_forall. exact Hes.
Qed.

Lemma batch_ok_initial f : batch_ok f ([f], []).
Proof. split; [exists []; split; [reflexivity | constructor] | constructor]. Qed.

Lemma literal_edge_ok from to kind ln :
  In kind LITERAL_KINDS -> edge_well_formed (mkEdge from to kind ln conf_literal).
Proof. intros H. left. now split. Qed.

Lemma name_edge_ok from to kind ln :
  In kind SUPERTYPE_KINDS -> edge_well_formed (name_edge from to kind ln).
Proof. intros H. right. now split. Qed.

(** The edges of a supertype clause are well formed and start at the
    declaring type. *)
Lemma clause_edges_shape (from : string) (es : list CodeEdge) :
  (forall e, In e es -> exists to kind ln,
       e = name_edge from to kind ln /\ In kind SUPERTYPE_KINDS) ->
  forall e, In e es -> edge_well_formed e /\ from_id e = from.
Proof.
  intros H e He. destruct (H e He) as (to & kind & ln & -> & Hk).
  split; [now apply name_edge_ok | reflexivity].
Qed.

Ltac clause_shape :=
  let e := fresh "e" in let H := fresh "H" in let tok := fresh "tok" in
  apply clause_edges_shape; intros e H;
  match type of H with
  | In _ (match truthy ?g with _ => _ end) => destruct (truthy g); [|destruct H]
  end;
  try (apply in_flat_map in H as (tok & _ & H));
  repeat match type of H with
         | In _ (if ?c then _ else _) => destruct c; [|destruct H]
         end;
  destruct H as [<-|[]];
  eexists; eexists; eexists; (split; [reflexivity | simpl; tauto]).

Lemma ts_extends_shape cid ln g e :
  In e (TS.extends_edges cid ln g) -> edge_well_formed e /\ from_id e = cid.
Proof. revert e. unfold TS.extends_edges. clause_shape. Qed.

Lemma ts_implements_shape cid ln g e :
  In e (TS.implements_edges cid ln g) -> edge_well_formed e /\ from_id e = cid.
Proof. revert e. unfold TS.implements_edges. clause_shape. Qed.

Lemma py_bases_shape cid ln g e :
  In e (PY.bases_edges cid ln g) -> edge_well_formed e /\ from_id e = cid.
Proof. revert e. unfold PY.bases_edges. clause_shape. Qed.

Lemma java_extends_shape cid ln g e :
  In e (Java.extends_edges cid ln g) -> edge_well_formed e /\ from_id e = cid.
Proof. revert e. unfold Java.extends_edges. clause_shape. Qed.

Lemma java_list_shape cid prefix kind ln g e :
  In kind SUPERTYPE_KINDS ->
  In e (Java.list_edges cid prefix kind ln g) -> edge_well_formed e /\ from_id e = cid.
Proof.
  intros Hk. revert e. unfold Java.list_edges.
  apply clause_edges_shape. intros e H.
  destruct (truthy g); [|destruct H].
  apply in_flat_map in H as (tok & _ & H).
  destruct (Str.nonempty (Java.bare_name tok)); [|destruct H].
  destruct H as [<-|[]]. eauto.
Qed.

(** A declaration node with a literal kind, once the spans are known. *)
Ltac decl_nodes :=
  constructor; [|constructor];
  split; [cbn; discriminate | cbn [line_start line_end]; lia].

(** A [defines] or [imports] edge from the file node. *)
Ltac file_edge Hb :=
  split; [apply literal_edge_ok; simpl; tauto
         |apply (rooted_file _ _ _ _ Hb); reflexivity].

Lemma ts_batch_ok content path :
  batch_ok (file_node_of "typescript" content path) (TS.extract_batch content path).
Proof.
  set (f := file_node_of "typescript" content path).
  assert (Hdecl : forall b m, batch_ok f b -> batch_ok f (TS.function_step content path b m)).
  { intros b m Hb. pose proof (line_of_bounds content m). pose proof (ts_span content m).
    apply batch_ok_emit; [exact Hb | decl_nodes |].
    intros e [<-|[]]. file_edge Hb. }
  unfold TS.extract_batch.
  apply (fold_left_invariant (batch_ok f)).
  2:{ intros b m Hb. pose proof (line_of_bounds content m).
      apply batch_ok_emit; [exact Hb | decl_nodes |].
      intros e [<-|[]]. file_edge Hb. }
  apply (fold_left_invariant (batch_ok f)).
  2:{ intros b m Hb. pose proof (line_of_bounds content m). pose proof (ts_span content m).
      apply batch_ok_emit; [exact Hb | decl_nodes |].
      intros e [<-|[]]. file_edge Hb. }
  apply (fold_left_invariant (batch_ok f)).
  2:{ intros b m Hb. pose proof (line_of_bounds content m). pose proof (ts_span content m).
      unfold TS.class_step.
      apply batch_ok_emit; [exact Hb | decl_nodes |].
      intros e He. simpl in He. destruct He as [<-|He]; [file_edge Hb|].
      apply in_app_or in He as [He|He];
        [apply ts_extends_shape in He | apply ts_implements_shape in He];
        destruct He as [Hw Hfrom]; (split; [exact Hw | now apply rooted_new]). }
  apply (fold_left_invariant (batch_ok f)); [|exact Hdecl].
  apply (fold_left_invariant (batch_ok f)); [|exact Hdecl].
  apply (fold_left_invariant (batch_ok f)).
  2:{ intros b m Hb. apply batch_ok_emit; [exact Hb | constructor |].
      intros e [<-|[]]. file_edge Hb. }
  apply batch_ok_initial.
Qed.

Lemma py_batch_ok content path b :
  PY.extract_batch content path = Ret b ->
  batch_ok (file_node_of "python" content path) b.
Proof.
  set (f := file_node_of "python" content path).
  unfold PY.extract_batch. intros H. apply bind_ret in H as (b0 & H0 & H).
  injection H as <-.
  apply (fold_left_invariant (batch_ok f)).
  2:{ intros b m Hb. pose proof (line_of_bounds content m).
      apply batch_ok_emit; [exact Hb | decl_nodes |].
      intros e [<-|[]]. file_edge Hb. }
  apply (fold_left_invariant (batch_ok f)).
  2:{ intros b m Hb. pose proof (line_of_bounds content m).
      pose proof (python_span content m). unfold PY.class_step.
      apply batch_ok_emit; [exact Hb | decl_nodes |].
      intros e He. simpl in He. destruct He as [<-|He]; [file_edge Hb|].
      apply py_bases_shape in He. destruct He as [Hw Hfrom].
      split; [exact Hw | now apply rooted_new]. }
  apply (fold_left_invariant (batch_ok f)).
  2:{ intros b m Hb. pose proof (line_of_bounds content m).
      pose proof (python_span content m).
      apply batch_ok_emit; [exact Hb | decl_nodes |].
      intros e [<-|[]]. file_edge Hb. }
  revert b0 H0.
  apply (fold_left_invariant (fun o => forall b', o = Ret b' -> batch_ok f b')).
  - intros b' Hb'. injection Hb' as <-. apply batch_ok_initial.
  - intros o m Ho b' Hb'. unfold PY.import_step in Hb'.
    apply bind_ret in Hb' as (b1 & -> & Hb').
    apply bind_ret in Hb' as (t & _ & Hb'). injection Hb' as <-.
    specialize (Ho b1 eq_refl).
    apply batch_ok_emit; [exact Ho | constructor |].
    intros e [<-|[]]. file_edge Ho.
Qed.

Lemma pop_expired_ok b ln stack : stack_ok b stack -> stack_ok b (Java.pop_expired ln stack).
Proof.
  unfold stack_ok. induction stack as [|[[nm id] e] stack IH]; simpl; intros H; [constructor|].
  destruct (e <=? ln)%nat; [|exact H].
  apply IH. now inversion H.
Qed.

Lemma stack_ok_weaken b ns es stack : stack_ok b stack -> stack_ok (emit b ns es) stack.
Proof.
  unfold stack_ok. intros H. eapply List.Forall_impl; [|exact H].
  intros entry (n & Hin & Hid). exists n. split; [|exact Hid].
  unfold emit. cbn [fst]. apply in_or_app. now left.
Qed.

Lemma containing_class_rooted ns ln id :
  Java.containing_class (Java.type_ranges_of ns) ln = Some id ->
  exists n, In n ns /\ node_id n = id.
Proof.
  unfold Java.containing_class.
  destruct (find _ _) as [t|] eqn:Hf; [|discriminate].
  intros H. injection H as <-.
  apply find_some in Hf as [Hin _]. apply List.in_rev in Hin.
  apply type_ranges_of_In in Hin as (n & Hn & _ & ->). now exists n.
Qed.

Lemma java_types_batch_ok content path :
  batch_ok (file_node_of "java" content path) (Java.types_batch content path).
Proof.
  set (f := file_node_of "java" content path).
  unfold Java.types_batch.
  apply (fold_left_invariant (batch_ok f)).
  2:{ intros b m Hb. pose proof (line_of_bounds (_remove_java_comments content) m). pose proof (java_span (_remove_java_comments content) m).
      unfold Java.annotation_step.
      apply batch_ok_emit; [exact Hb | decl_nodes |].
      intros e [<-|[]]. file_edge Hb. }
  apply (fold_left_invariant (batch_ok f)).
  2:{ intros b m Hb. pose proof (line_of_bounds (_remove_java_comments content) m). pose proof (java_span (_remove_java_comments content) m).
      unfold Java.enum_step.
      apply batch_ok_emit; [exact Hb | decl_nodes |].
      intros e He. simpl in He. destruct He as [<-|He]; [file_edge Hb|].
      apply java_list_shape in He; [|simpl; tauto]. destruct He as [Hw Hfrom].
      split; [exact Hw | now apply rooted_new]. }
  apply (fold_left_invariant (batch_ok f)).
  2:{ intros b m Hb. pose proof (line_of_bounds (_remove_java_comments content) m). pose proof (java_span (_remove_java_comments content) m).
      unfold Java.interface_step.
      apply batch_ok_emit; [exact Hb | decl_nodes |].
      intros e He. simpl in He. destruct He as [<-|He]; [file_edge Hb|].
      apply java_list_shape in He; [|simpl; tauto]. destruct He as [Hw Hfrom].
      split; [exact Hw | now apply rooted_new]. }
  apply (fold_left_invariant (fun st => batch_ok f (fst st) /\ stack_ok (fst st) (snd st))).
  - cbn [fst snd]. split; [|constructor].
    apply (fold_left_invariant (batch_ok f)); [apply batch_ok_initial|].
    intros b m Hb. unfold Java.import_step.
    apply batch_ok_emit; [exact Hb | constructor |].
    intros e [<-|[]]. file_edge Hb.
  - intros [b stack] m [Hb Hst]. cbn [fst snd] in *.
    pose proof (line_of_bounds (_remove_java_comments content) m). pose proof (java_span (_remove_java_comments content) m).
    unfold Java.class_step. cbn [fst snd]. split.
    + apply batch_ok_emit; [exact Hb | decl_nodes |].
      intros e He. simpl in He. destruct He as [<-|He].
      { destruct stack as [|[[pn pid] pend] below]; [file_edge Hb|].
        destruct (_ <? pend)%nat; [|file_edge Hb].
        split; [apply literal_edge_ok; simpl; tauto|].
        apply rooted_weaken. inversion Hst as [|? ? (n & Hin & Hid) _]; subst.
        now exists n. }
      apply in_app_or in He as [He|He];
        [apply java_extends_shape in He | apply java_list_shape in He; [|simpl; tauto]];
        destruct He as [Hw Hfrom]; (split; [exact Hw | now apply rooted_new]).
    + constructor.
      * eexists. split; [unfold emit; cbn [fst]; apply in_or_app; right; now left|].
        reflexivity.
      * apply stack_ok_weaken. now apply pop_expired_ok.
Qed.

Lemma java_batch_ok content path :
  batch_ok (file_node_of "java" content path) (Java.extract_batch content path).
Proof.
  set (f := file_node_of "java" content path).
  unfold Java.extract_batch.
  apply (fold_left_invariant (batch_ok f)).
  2:{ intros b m Hb. pose proof (line_of_bounds (_remove_java_comments content) m).
      unfold Java.constant_step.
      apply batch_ok_emit; [exact Hb | decl_nodes |].
      intros e [<-|[]]. file_edge Hb. }
  set (types := fst (Java.types_batch content path)).
  assert (H : forall ms b,
            batch_ok f b /\ incl types (fst b) ->
            let b' := fold_left (Java.method_step content path
                                   (Java.type_names_of types)
                                   (Java.type_ranges_of types)) ms b in
            batch_ok f b' /\ incl types (fst b')).
  { intros ms b Hb. apply (fold_left_invariant
                             (fun b => batch_ok f b /\ incl types (fst b))); [exact Hb|].
    clear b Hb. intros b m [Hb Hincl]. unfold Java.method_step.
    destruct (Java.suppressed _ m); [now split|].
    pose proof (line_of_bounds (_remove_java_comments content) m). pose proof (java_span (_remove_java_comments content) m).
    split; [|unfold emit; cbn [fst]; now apply incl_appl].
    apply batch_ok_emit; [exact Hb | decl_nodes |].
    intros e [<-|[]].
    destruct (Java.containing_class _ _) as [id|] eqn:Hcc; [|cbn [truthy]; file_edge Hb].
    cbn [truthy]. destruct (Str.nonempty id); [|file_edge Hb].
    split; [apply literal_edge_ok; simpl; tauto|].
    apply containing_class_rooted in Hcc as (n & Hn & Hid).
    apply rooted_weaken. exists n. split; [now apply Hincl | exact Hid]. }
  apply H. split; [apply java_types_batch_ok | apply incl_refl].
Qed.

(** An error-free single-file result is a well-formed batch around its file
    node; a result with errors has no nodes and no edges. *)
Lemma extract_from_file_batch_ok (fs : FileSystem) (p : string) (r : ExtractionResult) :
  extract_from_file fs p = Ret r ->
  (nodes r = [] /\ edges r = [] /\ errors r <> []) \/
  (errors r = [] /\
   exists lang content,
     read_text_file fs p = ReadOk content /\
     batch_ok (file_node_of lang content p) (nodes r, edges r)).
Proof.
  unfold extract_from_file.
  destruct (negb (path_exists fs p));
    [intros H; injection H as <-; left; repeat split; discriminate|].
  destruct (detect_language p) as [lang|];
    [|intros H; injection H as <-; left; repeat split; discriminate].
  destruct (read_text_file fs p) as [content|msg|msg|e];
    try (intros H; injection H as <-; left; repeat split; discriminate); [|discriminate].
  destruct (mem lang ["typescript"; "javascript"]).
  { intros H. injection H as <-. right. split; [reflexivity|].
    exists "typescript", content. split; [reflexivity|].
    pose proof (ts_batch_ok content p) as Hb.
    simpl. now destruct (TS.extract_batch content p). }
  destruct (String.eqb lang "python").
  { unfold extract_python. intros H. apply bind_ret in H as (b & Hb & H).
    injection H as <-. right. split; [reflexivity|].
    exists "python", content. split; [reflexivity|].
    apply py_batch_ok in Hb. simpl. now destruct b. }
  destruct (String.eqb lang "java").
  { intros H. injection H as <-. right. split; [reflexivity|].
    exists "java", content. split; [reflexivity|].
    pose proof (java_batch_ok content p) as Hb.
    simpl. now destruct (Java.extract_batch content p). }
  intros H. injection H as <-. left. repeat split; discriminate.
Qed.

(** X9. The nodes of an error-free single-file result are the file node
    followed by declaration nodes: the first node has kind [file], the id
    [file.<path>], the base name of the path as name and the checksum of the
    text as hash (the result's [file_hash]); no other node has kind [file],
    and every other node has a span with [1 <= line_start <= line_end]. *)
Theorem file_node_then_declarations (fs : FileSystem) (p : string)
    (r : ExtractionResult) :
  extract_from_file fs p = Ret r -> errors r = [] ->
  exists f rest,
    nodes r = f :: rest /\
    node_kind f = "file" /\ node_id f = make_node_id "file" p None /\
    node_name f = basename p /\ node_hash f = Some (file_hash r) /\
    line_start f = 0%nat /\ line_end f = 0%nat /\
    Forall declaration_node rest.
Proof.
  intros Hr Hok.
  destruct (extract_from_file_batch_ok _ _ _ Hr)
    as [(_ & _ & Hne)|(_ & lang & content & Hc & [(rest & Hn & Hrest) _])];
    [contradiction|].
  destruct (file_hash_of_success _ _ _ Hr Hok) as (content' & Hc' & Hh).
  assert (content' = content) by congruence. subst content'.
  exists (file_node_of lang content p), rest. cbn [fst] in Hn.
  repeat split; auto. cbn. now rewrite Hh.
Qed.

(** X10. Every edge of a single-file result starts at a node of the same
    result: no edge has a dangling source. *)
Theorem edge_sources_exist (fs : FileSystem) (p : string) (r : ExtractionResult)
    (e : CodeEdge) :
  extract_from_file fs p = Ret r -> In e (edges r) ->
  exists n, In n (nodes r) /\ node_id n = from_id e.
Proof.
  intros Hr He.
  destruct (extract_from_file_batch_ok _ _ _ Hr)
    as [(_ & Hnil & _)|(_ & lang & content & _ & [_ Hedges])].
  - rewrite Hnil in He. destruct He.
  - cbn [fst snd] in Hedges. rewrite List.Forall_forall in Hedges.
    now destruct (Hedges e He).
Qed.

(** X11. Every edge of a single-file result is of one of five kinds, and its
    confidence goes with its kind: 1.0 for [imports], [defines] and
    [contains], 0.8 for [extends] and [implements]; no [calls] edge is ever
    emitted. *)
Theorem edge_kinds_and_confidence (fs : FileSystem) (p : string)
    (r : ExtractionResult) (e : CodeEdge) :
  extract_from_file fs p = Ret r -> In e (edges r) ->
  edge_well_formed e /\ edge_kind e <> "calls" /\
  (0 <= confidence e)%Q /\ (confidence e <= 1)%Q.
Proof.
  intros Hr He.
  destruct (extract_from_file_batch_ok _ _ _ Hr)
    as [(_ & Hnil & _)|(_ & lang & content & _ & [_ Hedges])].
  - rewrite Hnil in He. destruct He.
  - cbn [fst snd] in Hedges. rewrite List.Forall_forall in Hedges.
    destruct (Hedges e He) as [Hw _]. split; [exact Hw|].
    destruct Hw as [[Hk ->]|[Hk ->]]; simpl in Hk;
      (split; [intuition congruence | split; unfold Qle; simpl; lia]).
Qed.

Lemma file_node_then_declarations_witness :
  exists f rest,
    nodes Samples.nested_result = f :: rest /\
    node_kind f = "file" /\ node_id f = make_node_id "file" "proj/C.java" None /\
    node_name f = basename "proj/C.java" /\
    node_hash f = Some (file_hash Samples.nested_result) /\
    line_start f = 0%nat /\ line_end f = 0%nat /\
    Forall declaration_node rest.
Proof.
  apply (file_node_then_declarations Samples.project_fs "proj/C.java").
  - vm_compute. reflexivity.
  - vm_compute. reflexivity.
Defined.

Lemma edge_sources_exist_witness :
  exists n, In n (nodes Samples.nested_result) /\
            node_id n = from_id Samples.nested_contains_edge.
Proof.
  apply (edge_sources_exist Samples.project_fs "proj/C.java").
  - vm_compute. reflexivity.
  - vm_compute. right. left. reflexivity.
Defined.

Lemma edge_kinds_and_confidence_witness :
  edge_well_formed Samples.nested_contains_edge /\
  edge_kind Samples.nested_contains_edge <> "calls" /\
  (0 <= confidence Samples.nested_contains_edge)%Q /\
  (confidence Samples.nested_contains_edge <= 1)%Q.
Proof.
  apply (edge_kinds_and_confidence Samples.project_fs "proj/C.java"
           Samples.nested_result).
  - vm_compute. reflexivity.
  - vm_compute. right. left. reflexivity.
Defined.

(** ** The two brace resolvers *)

Lemma block_chars_java_agree (line : string) :
  forall count started,
    quote_free line = true ->
    match block_chars line count started,
          java_block_chars line (JavaScan count started false false false) with
    | Found, Found => True
    | Carry (c, s), Carry st => st = JavaScan c s false false false
    | _, _ => False
    end.
Proof.
  induction line as [|ch rest IH]; intros count started Hq; [reflexivity|].
  cbn [quote_free] in Hq.
  apply andb_true_iff in Hq as [Hq Hrest]. apply andb_true_iff in Hq as [Hq Hs].
  apply andb_true_iff in Hq as [Hb Hd].
  apply negb_true_iff in Hb, Hd, Hs.
  cbn [block_chars java_block_chars]. rewrite Hb, Hd, Hs. cbn [andb orb].
  destruct (is_open ch); [now apply IH|].
  destruct (is_close ch); [|now apply IH].
  destruct (started && (count - 1 =? 0)%Z); [exact I | now apply IH].
Qed.

Lemma block_lines_java_agree (lines : list string) :
  forall i count started,
    forallb quote_free lines = true ->
    block_lines lines i count started
    = java_block_lines lines i (JavaScan count started false false false).
Proof.
  induction lines as [|line lines IH]; intros i count started Hq; [reflexivity|].
  cbn [forallb] in Hq. apply andb_true_iff in Hq as [Hline Hrest].
  cbn [block_lines java_block_lines].
  pose proof (block_chars_java_agree line count started Hline) as H.
  destruct (block_chars line count started) as [|[c s]];
    destruct (java_block_chars line _) as [|st]; try contradiction; [reflexivity|].
  subst st. now apply IH.
Qed.

Lemma forallb_skipn {A : Type} (f : A -> bool) (k : nat) (l : list A) :
  forallb f l = true -> forallb f (skipn k l) = true.
Proof.
  revert l. induction k as [|k IH]; intros [|x l] H; simpl; auto.
  simpl in H. apply andb_true_iff in H as [_ H]. now apply IH.
Qed.

(** X12. On text whose lines hold no quote character and no backslash, the
    JS/TS resolver and the Java resolver answer the same block end: the two
    differ only through quoting. *)
Theorem resolvers_agree_without_quotes (lines : list string) (start_line : nat) :
  forallb quote_free lines = true ->
  _find_block_end lines start_line = _find_java_block_end lines start_line.
Proof.
  intros Hq. unfold _find_block_end, _find_java_block_end, java_scan_init.
  rewrite block_lines_java_agree; [reflexivity | now apply forallb_skipn].
Qed.

Lemma resolvers_agree_without_quotes_witness :
  _find_block_end ["class A {"; "  m() { }"; "}"] 0
  = _find_java_block_end ["class A {"; "  m() { }"; "}"] 0.
Proof.
  apply (resolvers_agree_without_quotes ["class A {"; "  m() { }"; "}"] 0).
  reflexivity.
Defined.

(** ** The Python resolver *)

Lemma python_block_lines_spec (ls : list string) :
  forall i indent,
    match python_block_lines ls i indent with
    | Some n =>
        exists k line,
          n = (i + k)%nat /\ nth_error ls k = Some line /\
          ~ inside_block indent line /\
          forall j l, (j < k)%nat -> nth_error ls j = Some l -> inside_block indent l
    | None => forall j l, nth_error ls j = Some l -> inside_block indent l
    end.
Proof.
  induction ls as [|line ls IH]; intros i indent; cbn [python_block_lines].
  - intros [|j] l H; discriminate.
  - assert (Hpass : inside_block indent line ->
              match python_block_lines ls (S i) indent with
              | Some n =>
                  exists k l0,
                    n = (i + k)%nat /\ nth_error (line :: ls) k = Some l0 /\
                    ~ inside_block indent l0 /\
                    forall j l, (j < k)%nat -> nth_error (line :: ls) j = Some l ->
                                inside_block indent l
              | None => forall j l, nth_error (line :: ls) j = Some l ->
                                    inside_block indent l
              end).
    { intros Hin. specialize (IH (S i) indent).
      destruct (python_block_lines ls (S i) indent) as [n|].
      - destruct IH as (k & l0 & -> & Hk & Hnot & Hall).
        exists (S k), l0.
        split; [lia|]. split; [exact Hk|]. split; [exact Hnot|].
        intros [|j] l Hj Hl; [injection Hl as <-; exact Hin|].
        apply (Hall j); [lia | exact Hl].
      - intros [|j] l Hl; [injection Hl as <-; exact Hin | now apply (IH j)]. }
    destruct (Str.nonempty (Str.strip line)) eqn:Hne; cbn [negb];
      [|apply Hpass; now left].
    destruct (Str.startswith "#" (Str.strip line)) eqn:Hc;
      [apply Hpass; right; now left|].
    destruct (Str.indent_of line <=? indent)%nat eqn:Hle.
    + apply Nat.leb_le in Hle. exists 0%nat, line.
      split; [lia|]. split; [reflexivity|]. split; [|intros j l Hj; lia].
      intros [H|[H|H]]; [congruence | congruence | lia].
    + apply Nat.leb_gt in Hle. apply Hpass. right. now right.
Qed.

(** X14. The Python block end is the first line after the declaration that is
    not blank, not a comment, and indented no deeper than the declaration:
    every line between the declaration and the returned index is blank, a
    comment or indented deeper, and when the returned index is a line of
    the text, that line is none of the three.  (The answer is the 0-based
    index of that line, or the number of lines when there is none.) *)
Theorem python_block_end_is_first_dedent (lines : list string) (start_line : nat)
    (first : string) :
  nth_error lines start_line = Some first ->
  let block_end := _find_python_block_end lines start_line in
  (forall j l, (start_line < j < block_end)%nat -> nth_error lines j = Some l ->
               inside_block (Str.indent_of first) l) /\
  ((block_end < List.length lines)%nat ->
   exists l, nth_error lines block_end = Some l /\
             ~ inside_block (Str.indent_of first) l).
Proof.
  intros Hfirst. unfold _find_python_block_end. rewrite Hfirst.
  pose proof (python_block_lines_spec (skipn (start_line + 1) lines)
                (start_line + 1) (Str.indent_of first)) as H.
  destruct (python_block_lines _ _ _) as [n|]; cbn zeta.
  - destruct H as (k & line & -> & Hk & Hnot & Hall).
    rewrite nth_error_skipn in Hk. split.
    + intros j l Hj Hl. apply (Hall (j - (start_line + 1))%nat); [lia|].
      rewrite nth_error_skipn. now replace (start_line + 1 + (j - (start_line + 1)))%nat with j by lia.
    + intros _. exists line. split; [exact Hk | exact Hnot].
  - split; [|lia].
    intros j l Hj Hl. apply (H (j - (start_line + 1))%nat).
    rewrite nth_error_skipn. now replace (start_line + 1 + (j - (start_line + 1)))%nat with j by lia.
Qed.

Lemma python_block_end_is_first_dedent_witness :
  let lines := ["def f():"; "    x = 1"; ""; "# note"; "y = 2"] in
  let block_end := _find_python_block_end lines 0 in
  (forall j l, (0 < j < block_end)%nat -> nth_error lines j = Some l ->
               inside_block (Str.indent_of "def f():") l) /\
  ((block_end < List.length lines)%nat ->
   exists l, nth_error lines block_end = Some l /\
             ~ inside_block (Str.indent_of "def f():") l).
Proof.
  apply (python_block_end_is_first_dedent
           ["def f():"; "    x = 1"; ""; "# note"; "y = 2"] 0 "def f():").
  reflexivity.
Defined.

(** ** The aggregated batch *)

(** X15. In the batch of a directory run every edge starts at a node of the
    batch: aggregation keeps the sources of the edges of each file. *)
Theorem directory_edge_sources_exist (fs : FileSystem) (directory : string)
    (incremental : bool) (file_hashes : option (gmap string string))
    (out : dir_state) (e : CodeEdge) :
  extract_from_directory fs directory incremental file_hashes = Ret out ->
  In e (all_edges out) ->
  exists n, In n (all_nodes out) /\ node_id n = from_id e.
Proof.
  intros Hrun He. unfold extract_from_directory in Hrun.
  destruct (negb (path_isdir fs directory)); [injection Hrun as <-; destruct He|].
  apply run_files_trace in Hrun as (new & Hc & Hn & Hed & _).
  simpl in Hc, Hn, Hed. subst new. rewrite Hed in He. rewrite Hn.
  apply in_flat_map in He as (p & Hp & He).
  unfold contribution in He.
  destruct (extract_from_file fs p) as [r|exn] eqn:Hr; [|destruct He].
  destruct (errors r) eqn:Herr; [|destruct He].
  destruct (extract_from_file_batch_ok _ _ _ Hr)
    as [(_ & _ & Hne)|(_ & lang & content & _ & [_ Hedges])]; [contradiction|].
  cbn [fst snd] in Hedges. rewrite List.Forall_forall in Hedges.
  destruct (Hedges e He) as [_ (n & Hin & Hid)].
  exists n. split; [|exact Hid].
  apply in_flat_map. exists p. split; [exact Hp|].
  unfold contribution. now rewrite Hr, Herr.
Qed.

Lemma directory_edge_sources_exist_witness :
  exists n, In n (all_nodes Samples.full_run) /\
            node_id n = from_id Samples.nested_contains_edge.
Proof.
  apply (directory_edge_sources_exist Samples.project_fs "proj" false None).
  - vm_compute. reflexivity.
  - vm_compute. right. left. reflexivity.
Defined.

(** X16. The returned table has a key only for a walked file that was skipped
    or processed, and the value is the checksum the loop body recorded for
    it: the checksum of the bytes when skipped, the result's [file_hash]
    when processed.  A file whose extraction failed has no key, and no key
    of the previous table is carried over for a path the walk does not
    meet. *)
Theorem returned_table_keys (fs : FileSystem) (directory : string)
    (incremental : bool) (file_hashes : option (gmap string string))
    (out : dir_state) (key h : string) :
  path_isdir fs directory = true ->
  List.NoDup (map entry_rel (walk_files fs directory)) ->
  extract_from_directory fs directory incremental file_hashes = Ret out ->
  (new_hashes out !! key = Some h <->
   exists e, In e (walk_files fs directory) /\ entry_rel e = key /\
             entry_hash fs incremental (default ∅ file_hashes) e = Some h).
Proof.
  intros Hdir Hnd Hrun. unfold extract_from_directory in Hrun.
  rewrite Hdir in Hrun. simpl in Hrun.
  split.
  - intros Hk.
    destruct (in_dec String.string_dec key (map entry_rel (walk_files fs directory)))
      as [Hin|Hnot].
    + apply in_map_iff in Hin as (e & <- & He). exists e. repeat split; auto.
      rewrite (run_files_table _ _ _ _ _ _ Hrun Hnd e He) in Hk.
      destruct (entry_hash _ _ _ e); [exact Hk|].
      simpl in Hk. rewrite lookup_empty in Hk. discriminate.
    + rewrite (run_files_hashes_frame _ _ _ _ _ _ _ Hrun Hnot) in Hk.
      simpl in Hk. rewrite lookup_empty in Hk. discriminate.
  - intros (e & He & <- & Hh).
    rewrite (run_files_table _ _ _ _ _ _ Hrun Hnd e He). now rewrite Hh.
Qed.

Lemma returned_table_keys_witness :
  new_hashes Samples.incremental_run !! "C.java"
    = Some (MD5.hexdigest Samples.nested_java) <->
  exists e, In e (walk_files Samples.project_fs "proj") /\ entry_rel e = "C.java" /\
            entry_hash Samples.project_fs true (default ∅ (Some Samples.previous_hashes)) e
            = Some (MD5.hexdigest Samples.nested_java).
Proof.
  apply (returned_table_keys Samples.project_fs "proj" true (Some Samples.previous_hashes)).
  - reflexivity.
  - vm_compute. nodup_strings.
  - vm_compute. reflexivity.
Defined.

(** ** Identifiers and import targets *)

(** X17. Every node of a batch carries the path of its file and the id the
    scheme gives it: [make_node_id] of its own kind, that path and its
    name, the name being qualified with the package for the types of a Java
    file (TypeScript and Python have no package). *)
Theorem ids_follow_the_scheme (content file_path : string) :
  Forall (well_formed_node EmptyString file_path)
         (nodes (extract_typescript content file_path)) /\
  (forall r, extract_python content file_path = Ret r ->
             Forall (well_formed_node EmptyString file_path) (nodes r)) /\
  Forall (well_formed_node (Java.package_name content) file_path)
         (nodes (extract_java content file_path)).
Proof.
  split; [apply ts_batch_well_formed|]. split; [|apply java_batch_well_formed].
  intros r H. unfold extract_python in H. apply bind_ret in H as (b & Hb & H).
  injection H as <-. exact (py_batch_well_formed _ _ _ Hb).
Qed.

Lemma rev_onto_app (s acc : string) : Str.rev_onto s acc = Str.rev s ++ acc.
Proof.
  unfold Str.rev. revert acc. induction s as [|c s IH]; intros acc; simpl; [reflexivity|].
  rewrite IH, (IH (String c EmptyString)), append_assoc. reflexivity.
Qed.

Lemma rev_app (a b : string) : Str.rev (a ++ b) = Str.rev b ++ Str.rev a.
Proof.
  induction a as [|c a IH]; simpl.
  - induction (Str.rev b) as [|x s IHs]; simpl; [reflexivity | now rewrite <- IHs].
  - unfold Str.rev in *. simpl.
    rewrite (rev_onto_app (a ++ b)), (rev_onto_app a). unfold Str.rev.
    rewrite IH, append_assoc. reflexivity.
Qed.

Lemma startswith_app (p s : string) : Str.startswith p (p ++ s) = true.
Proof.
  induction p as [|c p IH]; simpl; [reflexivity|].
  now rewrite Ascii.eqb_refl.
Qed.

Lemma take_app (a b : string) : Str.take (String.length a) (a ++ b) = a.
Proof. induction a as [|c a IH]; simpl; [now destruct b | now rewrite IH]. Qed.

Lemma length_app (a b : string) :
  String.length (a ++ b) = (String.length a + String.length b)%nat.
Proof. induction a as [|c a IH]; simpl; [reflexivity | now rewrite IH]. Qed.

Lemma ids_follow_the_scheme_witness :
  Forall (well_formed_node EmptyString "a.py")
         (nodes (Samples.result_of (extract_python Samples.bases_python "a.py"))).
Proof.
  apply (proj1 (proj2 (ids_follow_the_scheme Samples.bases_python "a.py"))).
  vm_compute. reflexivity.
Defined.

(** ** The walk *)

(** The entries met below the sub-directories of a directory. *)
Lemma walk_dirs_In (walk_sub : string -> dir_tree -> list walk_entry)
    (subdirs : list (string * dir_tree)) (e : walk_entry) :
  In e ((fix walk_dirs (ds : list (string * dir_tree)) : list walk_entry :=
           match ds with
           | [] => []
           | (d, sub) :: ds' =>
               ((if mem d IGNORED_DIRS then [] else walk_sub d sub)
                ++ walk_dirs ds')%list
           end) subdirs) <->
  exists d sub, In (d, sub) subdirs /\ mem d IGNORED_DIRS = false /\
                In e (walk_sub d sub).
Proof.
  induction subdirs as [|[d0 sub0] ds IH]; cbn -[mem].
  - split; [intros [] | intros (d & sub & [] & _)].
  - rewrite in_app_iff, IH. split.
    + intros [H|(d & sub & Hin & Hig & He)].
      * destruct (mem d0 IGNORED_DIRS) eqn:Hig; [destruct H|].
        exists d0, sub0. auto.
      * exists d, sub. auto.
    + intros (d & sub & [Heq|Hin] & Hig & He).
      * injection Heq as -> ->. left. now rewrite Hig.
      * right. exists d, sub. auto.
Qed.

(** The entries of the walk, by where the file lies in the tree. *)
Lemma walk_In (t : dir_tree) :
  forall (root rel : string) (e : walk_entry),
    In e (walk root rel t) <->
    exists dirs filename,
      located dirs filename t /\
      List.Forall (fun d => mem d IGNORED_DIRS = false) dirs /\
      supported_file filename = true /\
      e = Entry (join_all root (dirs ++ [filename])%list)
                (rel_all rel (dirs ++ [filename])%list).
Proof.
  induction t as [subdirs files IH] using dir_tree_rect'.
  intros root rel e. cbn [walk].
  rewrite in_app_iff, in_map_iff.
  rewrite (walk_dirs_In
             (fun d sub => walk (path_join root d) (rel_join rel d) sub)).
  split.
  - intros [(f & <- & Hf)|(d & sub & Hin & Hig & He)].
    + apply List.filter_In in Hf as [Hf Hs].
      exists [], f. cbn. repeat split; auto.
    + apply (IH d sub Hin) in He as (dirs & f & Hl & Hall & Hs & ->).
      exists (d :: dirs), f. cbn. repeat split; auto.
      exists sub. auto.
  - intros (dirs & f & Hl & Hall & Hs & ->).
    destruct dirs as [|d dirs]; cbn in Hl.
    + left. exists f. split; [reflexivity|].
      apply List.filter_In. auto.
    + right. destruct Hl as (sub & Hin & Hl).
      inversion Hall as [|x1 l1 Hig Hall']; subst.
      exists d, sub. repeat split; auto.
      apply (IH d sub Hin). exists dirs, f. repeat split; auto.
Qed.

(** X19. The walk of [extract_from_directory] meets exactly the files of the
    tree that have a supported extension and lie below no directory named
    in [IGNORED_DIRS]; the file below the directories [dirs] is handed on
    under the path joined from the root and under the relative path joined
    from the names. *)
Theorem walk_meets_supported_unignored_files (t : dir_tree) :
  forall (root rel : string) (e : walk_entry),
    In e (walk root rel t) <->
    exists dirs filename,
      located dirs filename t /\
      List.Forall (fun d => mem d IGNORED_DIRS = false) dirs /\
      supported_file filename = true /\
      e = Entry (join_all root (dirs ++ [filename])%list)
                (rel_all rel (dirs ++ [filename])%list).
Proof. exact (walk_In t). Qed.

(** ** Extensions of joined paths *)

Lemma rfind_from_shift (c : ascii) (s : string) :
  forall (i : nat) (last : option nat),
    Str.rfind_from c s i last =
    match Str.rfind_from c s 0 None with
    | Some j => Some (i + j)
    | None => last
    end.
Proof.
  induction s as [|d s IH]; intros i last; cbn [Str.rfind_from].
  - reflexivity.
  - rewrite (IH (S i)), (IH 1).
    destruct (Str.rfind_from c s 0 None) as [j|].
    + f_equal. lia.
    + destruct (Ascii.eqb d c); [f_equal; lia | reflexivity].
Qed.

Lemma rfind_from_app (c : ascii) (a b : string) :
  forall (i : nat) (last : option nat),
    Str.rfind_from c (a ++ b) i last =
    Str.rfind_from c b (i + String.length a) (Str.rfind_from c a i last).
Proof.
  induction a as [|d a IH]; intros i last; cbn.
  - now rewrite Nat.add_0_r.
  - rewrite IH. f_equal. lia.
Qed.

Lemma rfind_bound (c : ascii) (s : string) (j : nat) :
  Str.rfind c s = Some j -> j < String.length s.
Proof.
  unfold Str.rfind. revert j.
  induction s as [|d s IH]; intros j; cbn [Str.rfind_from].
  - discriminate.
  - rewrite rfind_from_shift.
    destruct (Str.rfind_from c s 0 None) as [k|].
    + intros H. injection H as <-.
      specialize (IH k eq_refl). cbn. lia.
    + destruct (Ascii.eqb d c); [|discriminate].
      intros H. injection H as <-. cbn. lia.
Qed.

Lemma rfind_absent (c : ascii) (s : string) :
  Str.contains (String c EmptyString) s = false -> Str.rfind c s = None.
Proof.
  unfold Str.rfind. induction s as [|d s IH]; cbn.
  - reflexivity.
  - rewrite Bool.andb_true_r. intros H.
    apply Bool.orb_false_iff in H as [Hc Hs].
    rewrite rfind_from_shift, (IH Hs).
    rewrite Ascii.eqb_sym, Hc. reflexivity.
Qed.

Lemma drop_app_length (a b : string) (j : nat) :
  Str.drop (String.length a + j) (a ++ b) = Str.drop j b.
Proof.
  induction a as [|d a IH]; cbn.
  - reflexivity.
  - exact IH.
Qed.

(** A path that ends in a slash has its last slash at the end. *)
Lemma rev_onto_slash (s : string) :
  forall (acc : string) (i : nat) (last : option nat),
    Str.startswith "/" (Str.rev_onto s acc) = true ->
    (s = EmptyString /\ Str.startswith "/" acc = true) \/
    Str.rfind_from "/" s i last = Some (i + String.length s - 1).
Proof.
  induction s as [|d s IH]; intros acc i last H; cbn [Str.rev_onto] in H.
  - left. auto.
  - right. cbn [Str.rfind_from String.length].
    destruct (IH _ (S i) (if Ascii.eqb d "/" then Some i else last) H)
      as [[-> Hd]|Hr].
    + cbn [Str.startswith] in Hd. apply andb_prop in Hd as [Hd _].
      rewrite Ascii.eqb_sym in Hd. cbn [Str.rfind_from String.length].
      rewrite Hd. f_equal. lia.
    + rewrite Hr. f_equal. lia.
Qed.

Lemma endswith_slash (a : string) :
  Str.endswith "/" a = true ->
  Str.rfind "/" a = Some (String.length a - 1) /\ 1 <= String.length a.
Proof.
  unfold Str.endswith, Str.rev. cbn [Str.rev_onto]. intros H.
  destruct (rev_onto_slash a EmptyString 0 None H) as [[_ Hf]|Hr].
  - cbn in Hf. discriminate.
  - unfold Str.rfind. rewrite Hr. split; [reflexivity|].
    destruct a; [cbn in H; discriminate | cbn; lia].
Qed.

(** The shape of a join with a name that holds no slash. *)
Lemma path_join_shape (root filename : string) :
  Str.contains "/" filename = false ->
  exists a, path_join root filename = a ++ filename /\
            match Str.rfind "/" a with Some i => S i | None => 0 end
            = String.length a.
Proof.
  intros Hf. unfold path_join.
  assert (Hs : Str.startswith "/" filename = false).
  { destruct filename; [reflexivity|]. cbn [Str.contains] in Hf.
    apply Bool.orb_false_iff in Hf as [Hc _]. exact Hc. }
  rewrite Hs.
  destruct (Str.nonempty root) eqn:Hne; cbn [negb orb].
  - destruct (Str.endswith "/" root) eqn:He.
    + exists root. split; [reflexivity|].
      destruct (endswith_slash root He) as [-> Hl]. lia.
    + exists (root ++ "/"). split.
      * now rewrite <- append_assoc.
      * unfold Str.rfind. rewrite rfind_from_app. cbn.
        rewrite length_app. cbn. lia.
  - destruct root; [|discriminate]. exists EmptyString. split; reflexivity.
Qed.

(** [os.path.splitext] of a joined path gives the extension of the name. *)
Lemma splitext_ext_path_join (root filename : string) :
  Str.contains "/" filename = false ->
  splitext_ext (path_join root filename) = splitext_ext filename.
Proof.
  intros Hf. destruct (path_join_shape root filename Hf) as (a & -> & Ha).
  pose proof (rfind_absent "/" filename Hf) as Hsl.
  unfold splitext_ext. rewrite Hsl.
  unfold Str.rfind in *. rewrite !rfind_from_app. cbn [Nat.add].
  rewrite (rfind_from_shift "/" filename), Hsl, Ha.
  rewrite (rfind_from_shift "." filename).
  destruct (Str.rfind_from "." filename 0 None) as [j|].
  - replace (String.length a <=? String.length a + j)%nat with true
      by (symmetry; apply Nat.leb_le; lia).
    cbn [Nat.leb]. unfold Str.slice.
    replace (String.length a + j - String.length a) with j by lia.
    rewrite Nat.sub_0_r.
    rewrite <- (Nat.add_0_r (String.length a)) at 1.
    rewrite !drop_app_length. reflexivity.
  - destruct (Str.rfind_from "." a 0 None) as [d|] eqn:Hd; [|reflexivity].
    apply rfind_bound in Hd.
    replace (String.length a <=? d)%nat with false
      by (symmetry; apply Nat.leb_gt; lia).
    reflexivity.
Qed.

(** X20. Every file the directory walk hands to [extract_from_file] has a
    detected language, given that file names hold no slash: the extension
    test of the loop on the bare name and [detect_language] on the joined
    path agree, so no walked file is reported as an unsupported file
    type. *)
Theorem walked_files_have_a_language (fs : FileSystem) (directory : string)
    (e : walk_entry) :
  (forall dirs filename,
      located dirs filename (tree_at fs directory) ->
      Str.contains "/" filename = false) ->
  In e (walk_files fs directory) ->
  (exists language, detect_language (entry_path e) = Some language) /\
  (forall r, extract_from_file fs (entry_path e) = Ret r ->
             ~ In ("Unsupported file type: " ++ entry_path e) (errors r)).
Proof.
  intros Hnames He. unfold walk_files in He.
  apply walk_In in He as (dirs & f & Hl & _ & Hs & ->).
  cbn [entry_path]. unfold join_all. rewrite fold_left_app. cbn [fold_left].
  set (dir := fold_left path_join dirs directory).
  assert (Hlang : exists language,
             detect_language (path_join dir f) = Some language).
  { unfold detect_language.
    rewrite (splitext_ext_path_join dir f (Hnames dirs f Hl)).
    unfold supported_file in Hs.
    destruct (dict_get SUPPORTED_EXTENSIONS (Str.lower (splitext_ext f))) as [l|];
      [eauto | discriminate]. }
  split; [exact Hlang|].
  destruct Hlang as (language & Hlang).
  intros r Hr. unfold extract_from_file in Hr. rewrite Hlang in Hr.
  destruct (path_exists fs (path_join dir f)); cbn [negb] in Hr.
  2:{ injection Hr as <-. cbn. intros [H|[]]. discriminate. }
  destruct (read_text_file fs (path_join dir f)) as [content|msg|msg|exn].
  - destruct (mem language ["typescript"; "javascript"]).
    { injection Hr as <-. intros []. }
    destruct (String.eqb language "python").
    { unfold extract_python in Hr.
      apply bind_ret in Hr as (b & _ & Hb). injection Hb as <-. intros []. }
    destruct (String.eqb language "java").
    { injection Hr as <-. intros []. }
    injection Hr as <-. cbn. intros [H|[]]. discriminate.
  - injection Hr as <-. cbn. intros [H|[]]. discriminate.
  - injection Hr as <-. cbn. intros [H|[]]. discriminate.
  - discriminate.
Qed.

Lemma walked_files_have_a_language_witness :
  (exists language,
      detect_language (entry_path (Entry "proj/sub/I.java" "sub/I.java"))
      = Some language) /\
  (forall r,
      extract_from_file Samples.project_fs
        (entry_path (Entry "proj/sub/I.java" "sub/I.java")) = Ret r ->
      ~ In ("Unsupported file type: "
              ++ entry_path (Entry "proj/sub/I.java" "sub/I.java")) (errors r)).
Proof.
  apply (walked_files_have_a_language Samples.project_fs "proj").
  - intros dirs filename H.
    destruct dirs as [|d dirs]; cbn in H.
    + repeat (destruct H as [<-|H]; [vm_compute; reflexivity|]). destruct H.
    + destruct H as (sub & Hin & H).
      repeat (destruct Hin as [Heq|Hin];
              [injection Heq as <- <-;
               destruct dirs; cbn in H;
               [repeat (destruct H as [<-|H]; [vm_compute; reflexivity|]);
                destruct H
               |destruct H as (s0 & [] & _)]|]).
      destruct Hin.
  - vm_compute. right. right. right. left. reflexivity.
Defined.

(** ** Comment removal *)

Lemma cut_sublist (s : string) :
  forall (spans : list (nat * nat)) (pos : nat),
    sublist (list_ascii_of_string (Re.cut spans pos s)) (list_ascii_of_string s).
Proof.
  induction s as [|ch s IH]; intros spans pos; cbn [Re.cut].
  - reflexivity.
  - destruct (Re.live spans pos) as [|[i j] spans']; [reflexivity|].
    destruct (i <=? pos)%nat; cbn [list_ascii_of_string].
    + apply sublist_cons, IH.
    + apply sublist_skip, IH.
Qed.

Lemma cut_nil (pos : nat) (s : string) : Re.cut [] pos s = s.
Proof. destruct s; reflexivity. Qed.

(** A pattern that starts with a literal slash matches nowhere in a text
    without one. *)
Lemma scan_no_slash (r2 r3 : Re.regex) (ngroups : nat) (full rest : string) :
  forall (prev : option ascii) (pos : nat),
    Str.contains "/" rest = false ->
    Re.scan (Re.Seq (Re.Seq (Re.chr "/") r2) r3) ngroups full prev pos rest 0 = [].
Proof.
  induction rest as [|ch rest IH]; intros prev pos H.
  - reflexivity.
  - cbn [Str.contains Str.startswith] in H.
    apply Bool.orb_false_iff in H as [Hc Hr].
    rewrite Bool.andb_true_r in Hc.
    cbn [Re.scan]. unfold Re.match_at, Re.chr. cbn [Re.exec Re.c_rest].
    rewrite Hc. apply IH, Hr.
Qed.

(** X21. Comment removal only deletes: what [_remove_java_comments] returns is
    a subsequence of the content, so no character is added, changed or
    moved. *)
Theorem remove_java_comments_only_deletes (content : string) :
  sublist (list_ascii_of_string (_remove_java_comments content))
          (list_ascii_of_string content).
Proof.
  unfold _remove_java_comments, Re.sub_empty.
  etransitivity; apply cut_sublist.
Qed.

(** X22. A text that holds no slash has no comment: [_remove_java_comments]
    returns it unchanged. *)
Theorem remove_java_comments_without_slash (content : string) :
  Str.contains "/" content = false ->
  _remove_java_comments content = content.
Proof.
  intros H. unfold _remove_java_comments, Re.sub_empty, Re.finditer.
  unfold Patterns.block_comment, Patterns.line_comment.
  cbn [Re.seqs Re.lit].
  rewrite (scan_no_slash _ _ 0 content content None 0 H). cbn [map].
  rewrite cut_nil.
  rewrite (scan_no_slash _ _ 0 content content None 0 H). cbn [map].
  apply cut_nil.
Qed.

Lemma remove_java_comments_without_slash_witness :
  _remove_java_comments Samples.nested_java = Samples.nested_java.
Proof.
  apply (remove_java_comments_without_slash Samples.nested_java).
  vm_compute. reflexivity.
Defined.

(** ** Language tags *)

Lemma tagged_emit lang b ns es :
  tagged lang b ->
  Forall (fun n => node_language n = Some lang) ns ->
  tagged lang (emit b ns es).
Proof.
  unfold tagged, emit. simpl. intros Hb Hns.
  apply Forall_app. now split.
Qed.

Lemma tagged_initial lang content path :
  tagged lang ([file_node_of lang content path], []).
Proof. constructor; [reflexivity | constructor]. Qed.

Ltac tag_emit :=
  intros; apply tagged_emit; [assumption|];
  first [constructor; fail | constructor; [reflexivity | constructor]].

Ltac tag_fold lang := apply (fold_left_invariant (tagged lang)).

Lemma ts_batch_tagged content path :
  tagged "typescript" (TS.extract_batch content path).
Proof.
  unfold TS.extract_batch.
  repeat (tag_fold "typescript";
          [|unfold TS.import_step, TS.function_step, TS.class_step,
              TS.interface_step, TS.type_step; tag_emit]).
  apply tagged_initial.
Qed.

Lemma py_batch_tagged content path b :
  PY.extract_batch content path = Ret b -> tagged "python" b.
Proof.
  unfold PY.extract_batch. intros H. apply bind_ret in H as (b0 & H0 & H).
  injection H as <-.
  repeat (tag_fold "python";
          [|unfold PY.function_step, PY.class_step, PY.const_step; tag_emit]).
  revert b0 H0.
  apply (fold_left_invariant
           (fun o => forall b', o = Ret b' -> tagged "python" b')).
  - intros b' Hb'. injection Hb' as <-. apply tagged_initial.
  - intros o m Ho b' Hb'. unfold PY.import_step in Hb'.
    apply bind_ret in Hb' as (b1 & -> & Hb').
    apply bind_ret in Hb' as (t & _ & Hb'). injection Hb' as <-.
    apply tagged_emit; [now apply Ho | constructor].
Qed.

Lemma java_batch_tagged content path :
  tagged "java" (Java.extract_batch content path).
Proof.
  unfold Java.extract_batch.
  tag_fold "java"; [|unfold Java.constant_step; tag_emit].
  tag_fold "java".
  2:{ intros b m Hb. unfold Java.method_step.
      destruct (Java.suppressed _ m); [exact Hb | tag_emit]. }
  unfold Java.types_batch.
  tag_fold "java"; [|unfold Java.annotation_step; tag_emit].
  tag_fold "java"; [|unfold Java.enum_step; tag_emit].
  tag_fold "java"; [|unfold Java.interface_step; tag_emit].
  apply (fold_left_invariant (fun st => tagged "java" (fst st))).
  - cbn [fst]. tag_fold "java";
      [apply tagged_initial | unfold Java.import_step; tag_emit].
  - intros [b stack] m Hb. unfold Java.class_step. cbn [fst] in *. tag_emit.
Qed.

(** X23. Every node of a single-file result carries the language tag of the
    result, and a result without errors is tagged with the language the
    dispatch leads to: [typescript] for a TypeScript and for a JavaScript
    file alike, the detected language otherwise. *)
Theorem nodes_carry_the_result_language (fs : FileSystem) (p : string)
    (r : ExtractionResult) :
  extract_from_file fs p = Ret r ->
  Forall (fun n => node_language n = Some (language r)) (nodes r) /\
  (errors r = [] ->
   exists detected, detect_language p = Some detected /\
                    language r = dispatched_tag detected).
Proof.
  unfold extract_from_file.
  destruct (negb (path_exists fs p)).
  { intros H. injection H as <-. split; [constructor | discriminate]. }
  destruct (detect_language p) as [lang|].
  2:{ intros H. injection H as <-. split; [constructor | discriminate]. }
  destruct (read_text_file fs p) as [content|msg|msg|exn];
    try (intros H; injection H as <-; split; [constructor | discriminate]);
    [|discriminate].
  unfold dispatched_tag.
  destruct (mem lang ["typescript"; "javascript"]) eqn:Hts.
  { intros H. injection H as <-. split; [apply ts_batch_tagged|].
    intros _. exists lang. rewrite Hts. auto. }
  destruct (String.eqb lang "python") eqn:Hpy.
  { unfold extract_python. intros H. apply bind_ret in H as (b & Hb & H).
    injection H as <-. split; [exact (py_batch_tagged _ _ _ Hb)|].
    intros _. exists lang. rewrite Hts. apply String.eqb_eq in Hpy. auto. }
  destruct (String.eqb lang "java") eqn:Hj.
  { intros H. injection H as <-. split; [apply java_batch_tagged|].
    intros _. exists lang. rewrite Hts. apply String.eqb_eq in Hj. auto. }
  intros H. injection H as <-. split; [constructor | discriminate].
Qed.

Lemma nodes_carry_the_result_language_witness :
  Forall (fun n => node_language n
                   = Some (language (extract_typescript Samples.quoted_ts "app.js")))
         (nodes (extract_typescript Samples.quoted_ts "app.js")) /\
  (errors (extract_typescript Samples.quoted_ts "app.js") = [] ->
   exists detected,
     detect_language "app.js" = Some detected /\
     language (extract_typescript Samples.quoted_ts "app.js")
     = dispatched_tag detected).
Proof.
  apply (nodes_carry_the_result_language Samples.script_fs "app.js").
  vm_compute. reflexivity.
Defined.

(** ** Files without an extractor *)

(** A Go file has a language and no extractor: its extraction always ends
    in an error, so the loop body records no checksum for it. *)
Lemma go_not_recorded (fs : FileSystem) (e : walk_entry) :
  detect_language (entry_path e) = Some "go" ->
  recorded_by_extract fs e = None.
Proof.
  intros Hgo. unfold recorded_by_extract, extract_from_file. rewrite Hgo.
  destruct (path_exists fs (entry_path e)); cbn [negb]; [|reflexivity].
  destruct (read_text_file fs (entry_path e)); reflexivity.
Qed.

(** X24. Go is listed among the supported extensions but has no extractor,
    so a Go file never enters the checksum table: whatever the mode, a
    walked Go file that has no entry in the table passed in has none in the
    table returned. *)
Theorem go_files_are_never_recorded (fs : FileSystem) (directory : string)
    (incremental : bool) (file_hashes : option (gmap string string))
    (out : dir_state) (e : walk_entry) :
  path_isdir fs directory = true ->
  List.NoDup (map entry_rel (walk_files fs directory)) ->
  extract_from_directory fs directory incremental file_hashes = Ret out ->
  In e (walk_files fs directory) ->
  detect_language (entry_path e) = Some "go" ->
  default ∅ file_hashes !! entry_rel e = None ->
  new_hashes out !! entry_rel e = None.
Proof.
  intros Hdir Hnd Hrun He Hgo Hnone. unfold extract_from_directory in Hrun.
  rewrite Hdir in Hrun. cbn [negb] in Hrun.
  rewrite (run_files_table _ _ _ _ _ _ Hrun Hnd e He).
  assert (Hh : entry_hash fs incremental (default ∅ file_hashes) e = None).
  { unfold entry_hash, unchanged. rewrite Hnone, (go_not_recorded fs e Hgo).
    destruct incremental; [|reflexivity].
    destruct (compute_file_hash fs (entry_path e)); reflexivity. }
  rewrite Hh. apply lookup_empty.
Qed.

Lemma go_files_are_never_recorded_witness :
  new_hashes Samples.full_run !! entry_rel (Entry "proj/main.go" "main.go") = None.
Proof.
  apply (go_files_are_never_recorded Samples.project_fs "proj" false None).
  - reflexivity.
  - vm_compute. nodup_strings.
  - vm_compute. reflexivity.
  - vm_compute. right. right. left. reflexivity.
  - vm_compute. reflexivity.
  - apply lookup_empty.
Defined.

(** ** The matcher and the text of the groups *)

Lemma all_chars_app p a b :
  all_chars p (a ++ b) = all_chars p a && all_chars p b.
Proof. induction a as [|c a IH]; simpl; [reflexivity|]. now rewrite IH, andb_assoc. Qed.

Lemma all_chars_impl (p q : ascii -> bool) s :
  (forall c, p c = true -> q c = true) -> all_chars p s = true -> all_chars q s = true.
Proof.
  intros Hpq. induction s as [|c s IH]; simpl; [reflexivity|].
  intros H. apply andb_prop in H as [Hc Hs]. now rewrite (Hpq _ Hc), IH.
Qed.

Lemma take_add a b s : Str.take (a + b) s = Str.take a s ++ Str.take b (Str.drop a s).
Proof.
  revert s. induction a as [|a IH]; intros s.
  - now destruct s, b.
  - destruct s as [|c s]; simpl; [now destruct b | now rewrite IH].
Qed.

Lemma drop_add a b s : Str.drop (a + b) s = Str.drop b (Str.drop a s).
Proof.
  revert s. induction a as [|a IH]; intros s.
  - now destruct s.
  - destruct s as [|c s]; simpl; [now destruct b | apply IH].
Qed.

Lemma slice_split (p q r : nat) (s : string) :
  (p <= q)%nat -> (q <= r)%nat ->
  Str.slice p r s = Str.slice p q s ++ Str.slice q r s.
Proof.
  intros Hpq Hqr. unfold Str.slice.
  replace (r - p)%nat with ((q - p) + (r - q))%nat by lia.
  rewrite take_add, <- drop_add. now replace (p + (q - p))%nat with q by lia.
Qed.

Lemma slice_empty p s : Str.slice p p s = EmptyString.
Proof. unfold Str.slice. rewrite Nat.sub_diag. now destruct (Str.drop p s). Qed.

Lemma drop_length_le p s c rest :
  Str.drop p s = String c rest -> (S p <= String.length s)%nat /\ Str.drop (S p) s = rest.
Proof.
  revert s. induction p as [|p IH]; intros s H.
  - destruct s as [|d s]; simpl in H; [discriminate|]. injection H as -> ->.
    split; [simpl; lia | reflexivity].
  - destruct s as [|d s]; simpl in H; [discriminate|].
    destruct (IH s H) as [Hl Hd]. split; [simpl; lia | exact Hd].
Qed.

Lemma slice_one p s c rest :
  Str.drop p s = String c rest -> Str.slice p (S p) s = String c EmptyString.
Proof.
  intros H. unfold Str.slice. replace (S p - p)%nat with 1%nat by lia.
  rewrite H. simpl. now destruct rest.
Qed.

Lemma bound_cons n g caps : bound n caps -> bound n (g :: caps).
Proof.
  unfold bound. destruct g as [k span]. simpl.
  destruct (k =? n)%nat; [discriminate | auto].
Qed.

Lemma lookup_cap_In n caps span :
  Re.lookup_cap n caps = Some span -> In (n, span) caps.
Proof.
  induction caps as [|[k sp] caps IH]; simpl; [discriminate|].
  destruct (k =? n)%nat eqn:Hk.
  - apply Nat.eqb_eq in Hk. intros H. injection H as ->. left. now subst.
  - intros H. right. now apply IH.
Qed.

Section Sound.
Variables (r0 : Re.regex) (full : string).

Lemma exec_sound (r : Re.regex) :
  (forall g, In g (re_groups r) -> In g (re_groups r0)) ->
  forall (A : Type) (c : Re.cursor) (caps : Re.captures)
         (k : Re.cursor -> Re.captures -> option A) (x : A),
    cursor_ok full c -> caps_ok r0 full caps ->
    Re.exec r c caps k = Some x ->
    exists c' caps', k c' caps' = Some x /\ run_ok r0 full r c caps c' caps'.
Proof.
  induction r as [|p| | |r1 IH1 r2 IH2|r1 IH1 r2 IH2|greedy r1 IH1|n r1 IH1];
    intros Hg A c caps k x Hc Hcaps H; cbn [Re.exec] in H.
  - exists c, caps. split; [exact H|]. unfold run_ok. rewrite slice_empty.
    repeat split; try apply Hc; auto; try (simpl; lia).
    intros n [Hb|Hb]; [discriminate | exact Hb].
  - destruct (Re.c_rest c) as [|ch rest] eqn:Hrest; [discriminate|].
    destruct (p ch) eqn:Hp; [|discriminate].
    destruct Hc as [Hd Hl]. rewrite Hd in Hrest.
    destruct (drop_length_le _ _ _ _ Hrest) as [Hlen Hdrop].
    eexists. eexists. split; [exact H|]. unfold run_ok. cbn [Re.c_pos Re.c_rest].
    rewrite (slice_one _ _ _ _ Hrest).
    repeat split; auto; try (simpl; lia).
    + simpl. now rewrite Hp.
    + intros n [Hb|Hb]; [discriminate | exact Hb].
  - destruct (Re.at_bol c); [|discriminate].
    exists c, caps. split; [exact H|]. unfold run_ok. rewrite slice_empty.
    repeat split; try apply Hc; auto; try (simpl; lia).
    intros n [Hb|Hb]; [discriminate | exact Hb].
  - destruct (Re.at_eol c); [|discriminate].
    exists c, caps. split; [exact H|]. unfold run_ok. rewrite slice_empty.
    repeat split; try apply Hc; auto; try (simpl; lia).
    intros n [Hb|Hb]; [discriminate | exact Hb].
  - assert (Hg1 : forall g, In g (re_groups r1) -> In g (re_groups r0)).
    { intros g Hin. apply Hg. simpl. apply in_or_app. now left. }
    assert (Hg2 : forall g, In g (re_groups r2) -> In g (re_groups r0)).
    { intros g Hin. apply Hg. simpl. apply in_or_app. now right. }
    destruct (IH1 Hg1 _ _ _ _ _ Hc Hcaps H) as (c1 & caps1 & H1 & R1).
    destruct R1 as (Hc1 & Hcaps1 & Hle1 & Hch1 & Hmin1 & Hb1).
    destruct (IH2 Hg2 _ _ _ _ _ Hc1 Hcaps1 H1) as (c2 & caps2 & H2 & R2).
    destruct R2 as (Hc2 & Hcaps2 & Hle2 & Hch2 & Hmin2 & Hb2).
    exists c2, caps2. split; [exact H2|]. unfold run_ok.
    repeat split; try apply Hc2; auto; try (simpl; lia).
    + rewrite (slice_split _ (Re.c_pos c1)) by lia.
      rewrite all_chars_app. apply andb_true_intro. split.
      * apply (all_chars_impl (re_chars r1)); [|exact Hch1].
        intros ch Hx. simpl. now rewrite Hx.
      * apply (all_chars_impl (re_chars r2)); [|exact Hch2].
        intros ch Hx. simpl. rewrite Hx. apply orb_true_r.
    + intros n [Hb|Hb].
      * simpl in Hb. apply orb_prop in Hb as [Hb|Hb].
        -- apply Hb2. right. apply Hb1. now left.
        -- apply Hb2. now left.
      * apply Hb2. right. apply Hb1. now right.
  - assert (Hg1 : forall g, In g (re_groups r1) -> In g (re_groups r0)).
    { intros g Hin. apply Hg. simpl. apply in_or_app. now left. }
    assert (Hg2 : forall g, In g (re_groups r2) -> In g (re_groups r0)).
    { intros g Hin. apply Hg. simpl. apply in_or_app. now right. }
    destruct (Re.exec r1 c caps k) as [y|] eqn:E1.
    + injection H as ->.
      destruct (IH1 Hg1 _ _ _ _ _ Hc Hcaps E1) as (c1 & caps1 & H1 & R1).
      destruct R1 as (Hc1 & Hcaps1 & Hle1 & Hch1 & Hmin1 & Hb1).
      exists c1, caps1. split; [exact H1|]. unfold run_ok.
      repeat split; try apply Hc1; auto; try (simpl; lia).
      * apply (all_chars_impl (re_chars r1)); [|exact Hch1].
        intros ch Hx. simpl. now rewrite Hx.
      * intros n [Hb|Hb]; apply Hb1; [left | now right].
        simpl in Hb. now apply andb_prop in Hb as [Hb _].
    + destruct (IH2 Hg2 _ _ _ _ _ Hc Hcaps H) as (c1 & caps1 & H1 & R1).
      destruct R1 as (Hc1 & Hcaps1 & Hle1 & Hch1 & Hmin1 & Hb1).
      exists c1, caps1. split; [exact H1|]. unfold run_ok.
      repeat split; try apply Hc1; auto; try (simpl; lia).
      * apply (all_chars_impl (re_chars r2)); [|exact Hch1].
        intros ch Hx. simpl. rewrite Hx. apply orb_true_r.
      * intros n [Hb|Hb]; apply Hb1; [left | now right].
        simpl in Hb. now apply andb_prop in Hb as [_ Hb].
  - assert (Hg1 : forall g, In g (re_groups r1) -> In g (re_groups r0)).
    { intros g Hin. apply Hg. exact Hin. }
    remember (String.length (Re.c_rest c)) as fuel eqn:Efuel. clear Efuel.
    revert c caps Hc Hcaps H.
    induction fuel as [|fuel IHf]; intros c caps Hc Hcaps H.
    + exists c, caps. split; [exact H|]. unfold run_ok. rewrite slice_empty.
      repeat split; try apply Hc; auto; try (simpl; lia).
      intros n [Hb|Hb]; [discriminate | exact Hb].
    + assert (Hstop : forall y, k c caps = Some y ->
                exists c' caps', k c' caps' = Some y /\ run_ok r0 full (Re.Rep greedy r1) c caps c' caps').
      { intros y Hy. exists c, caps. split; [exact Hy|]. unfold run_ok. rewrite slice_empty.
        repeat split; try apply Hc; auto; try (simpl; lia).
        intros n [Hb|Hb]; [discriminate | exact Hb]. }
      assert (Hmore : forall (again : Re.cursor -> Re.captures -> option A),
                (forall c1 caps1, again c1 caps1 = Some x ->
                   cursor_ok full c1 -> caps_ok r0 full caps1 ->
                   exists c' caps', k c' caps' = Some x /\
                                    run_ok r0 full (Re.Rep greedy r1) c1 caps1 c' caps') ->
                Re.exec r1 c caps again = Some x ->
                exists c' caps', k c' caps' = Some x /\
                                 run_ok r0 full (Re.Rep greedy r1) c caps c' caps').
      { intros again Hagain Hex.
        destruct (IH1 Hg1 _ _ _ _ _ Hc Hcaps Hex) as (c1 & caps1 & H1 & R1).
        destruct R1 as (Hc1 & Hcaps1 & Hle1 & Hch1 & Hmin1 & Hb1).
        destruct (Hagain _ _ H1 Hc1 Hcaps1) as (c2 & caps2 & H2 & R2).
        destruct R2 as (Hc2 & Hcaps2 & Hle2 & Hch2 & Hmin2 & Hb2).
        exists c2, caps2. split; [exact H2|]. unfold run_ok.
        repeat split; try apply Hc2; auto; try (simpl; lia).
        - rewrite (slice_split _ (Re.c_pos c1)) by lia.
          rewrite all_chars_app. apply andb_true_intro. split; [exact Hch1 | exact Hch2].
        - intros n [Hb|Hb]; [discriminate|].
          apply Hb2. right. apply Hb1. now right. }
      cbn beta iota zeta in H.
      destruct greedy.
      * match type of H with
        | match Re.exec r1 c caps ?again with _ => _ end = _ =>
            destruct (Re.exec r1 c caps again) as [y|] eqn:Eagain
        end.
        -- injection H as ->. eapply Hmore; [|exact Eagain].
           intros c1 caps1 Ha Hc1 Hcaps1. cbn beta in Ha.
           destruct (Re.c_pos c <? Re.c_pos c1)%nat; [|discriminate].
           now apply IHf.
        -- now apply Hstop.
      * destruct (k c caps) as [y|] eqn:Ek.
        -- injection H as ->. now apply Hstop.
        -- eapply Hmore; [|exact H].
           intros c1 caps1 Ha Hc1 Hcaps1. cbn beta in Ha.
           destruct (Re.c_pos c <? Re.c_pos c1)%nat; [|discriminate].
           now apply IHf.
  - assert (Hg1 : forall g, In g (re_groups r1) -> In g (re_groups r0)).
    { intros g Hin. apply Hg. simpl. now right. }
    destruct (IH1 Hg1 _ _ _ _ _ Hc Hcaps H) as (c1 & caps1 & H1 & R1).
    destruct R1 as (Hc1 & Hcaps1 & Hle1 & Hch1 & Hmin1 & Hb1).
    eexists. eexists. split; [exact H1|]. unfold run_ok.
    repeat split; try apply Hc1; auto; try (simpl; lia).
    + intros m i j [Heq|Hin]; [|now apply Hcaps1].
      injection Heq as <- <- <-. exists r1. repeat split; auto.
      * apply Hg. simpl. now left.
      * apply Hc1.
    + intros m [Hb|Hb].
      * simpl in Hb. apply orb_prop in Hb as [Hb|Hb].
        -- unfold bound. simpl. now rewrite Hb.
        -- apply bound_cons. apply Hb1. now left.
      * apply bound_cons. apply Hb1. now right.
Qed.

End Sound.

Lemma match_at_sound (r : Re.regex) (full : string) (c : Re.cursor)
    (e : nat) (caps : Re.captures) :
  cursor_ok full c ->
  Re.match_at r c = Some (e, caps) ->
  caps_ok r full caps /\ (forall n, re_binds n r = true -> bound n caps).
Proof.
  intros Hc H. unfold Re.match_at in H.
  destruct (exec_sound r full r (fun g Hg => Hg) _ c [] _ _ Hc
              (fun n i j (Hin : In (n, (i, j)) []) => match Hin with end) H)
    as (c' & caps' & Hk & R).
  injection Hk as <- <-. destruct R as (_ & Hcaps & _ & _ & _ & Hb).
  split; [exact Hcaps|]. intros n Hn. apply Hb. now left.
Qed.

Lemma scan_sound (r : Re.regex) (ngroups : nat) (full : string) (m : Re.rmatch) :
  forall (rest : string) (prev : option ascii) (pos skip : nat),
    cursor_ok full (Re.Cursor pos prev rest) ->
    In m (Re.scan r ngroups full prev pos rest skip) ->
    exists i j caps,
      m = Re.mk_match ngroups full i j caps /\
      caps_ok r full caps /\ (forall n, re_binds n r = true -> bound n caps).
Proof.
  induction rest as [|ch rest IH]; intros prev pos skip Hc Hin.
  - destruct skip as [|skip]; simpl in Hin; [|destruct Hin].
    destruct (Re.match_at r (Re.Cursor pos prev EmptyString)) as [[e caps]|] eqn:Hm;
      [|destruct Hin].
    destruct Hin as [<-|[]].
    destruct (match_at_sound _ _ _ _ _ Hc Hm) as [H1 H2]. eauto 6.
  - assert (Hnext : forall prev', cursor_ok full (Re.Cursor (S pos) prev' rest)).
    { intros prev'. destruct Hc as [Hd Hl]. cbn [Re.c_rest Re.c_pos] in *.
      symmetry in Hd. destruct (drop_length_le _ _ _ _ Hd) as [Hlen Hdrop].
      split; cbn [Re.c_rest Re.c_pos]; auto. }
    destruct skip as [|skip]; cbn [Re.scan] in Hin.
    + destruct (Re.match_at r (Re.Cursor pos prev (String ch rest)))
        as [[e caps]|] eqn:Hm.
      * destruct Hin as [<-|Hin].
        -- destruct (match_at_sound _ _ _ _ _ Hc Hm) as [H1 H2]. eauto 6.
        -- eapply IH; [apply Hnext | exact Hin].
      * eapply IH; [apply Hnext | exact Hin].
    + eapply IH; [apply Hnext | exact Hin].
Qed.

Lemma nth_error_seq_at (start len i : nat) :
  (i < len)%nat -> nth_error (seq start len) i = Some (start + i)%nat.
Proof.
  revert start i. induction len as [|len IH]; intros start i Hi; [lia|].
  destruct i as [|i]; simpl; [f_equal; lia|].
  rewrite IH by lia. f_equal. lia.
Qed.

Lemma length_take_le n s :
  (n <= String.length s)%nat -> String.length (Str.take n s) = n.
Proof.
  revert s. induction n as [|n IH]; intros s Hn; [now destruct s|].
  destruct s as [|c s]; simpl in *; [lia|]. rewrite IH; lia.
Qed.

Lemma length_drop n s : String.length (Str.drop n s) = (String.length s - n)%nat.
Proof.
  revert s. induction n as [|n IH]; intros s; [destruct s; simpl; lia|].
  destruct s as [|c s]; simpl; [reflexivity | apply IH].
Qed.

Lemma length_slice i j s :
  (i <= j)%nat -> (j <= String.length s)%nat -> String.length (Str.slice i j s) = (j - i)%nat.
Proof.
  intros Hij Hj. unfold Str.slice. apply length_take_le. rewrite length_drop. lia.
Qed.

Lemma all_chars_count (p : ascii -> bool) (c : ascii) (s : string) :
  p c = false -> all_chars p s = true -> Str.count_char c s = 0%nat.
Proof.
  intros Hc. induction s as [|d s IH]; simpl; [reflexivity|].
  intros H. apply andb_prop in H as [Hd Hs].
  destruct (Ascii.eqb_spec d c) as [->|_]; [congruence | now apply IH].
Qed.

(** A group that takes part in every match holds, in every match that
    [finditer] yields, a non-empty text without the character the pattern
    of the group excludes. *)
Lemma finditer_group (r : Re.regex) (ngroups : nat) (s : string) (m : Re.rmatch)
    (n : nat) (c : ascii) :
  In m (Re.finditer r ngroups s) ->
  (1 <= n)%nat -> (n <= ngroups)%nat ->
  re_binds n r = true -> group_excludes r n c = true ->
  exists t, Re.group m n = Some t /\ req m n = t /\
            Str.nonempty t = true /\ Str.count_char c t = 0%nat.
Proof.
  intros Hin Hn1 Hn2 Hb Hx. unfold Re.finditer in Hin.
  assert (Hc : cursor_ok s (Re.Cursor 0 None s)).
  { split; cbn [Re.c_rest Re.c_pos]; [now destruct s | lia]. }
  destruct (scan_sound _ _ _ _ _ _ _ _ Hc Hin) as (i & j & caps & -> & Hcaps & Hbound).
  specialize (Hbound n Hb). unfold bound in Hbound.
  destruct (Re.lookup_cap n caps) as [[a b]|] eqn:Hl; [|congruence].
  pose proof (lookup_cap_In _ _ _ Hl) as Hspan. apply Hcaps in Hspan.
  destruct Hspan as (r1 & Hg & Hab & Hbl & Hch & Hmin).
  unfold group_excludes in Hx. rewrite forallb_forall in Hx.
  specialize (Hx _ Hg). cbn [fst snd] in Hx. rewrite Nat.eqb_refl in Hx.
  cbn [negb orb] in Hx. apply andb_prop in Hx as [Hlen Hnot].
  apply Nat.leb_le in Hlen. apply negb_true_iff in Hnot.
  assert (Hgrp : Re.group (Re.mk_match ngroups s i j caps) n = Some (Str.slice a b s)).
  { unfold Re.group, Re.mk_match. cbn [Re.m_groups].
    rewrite nth_error_map, nth_error_seq_at by lia.
    replace (1 + (n - 1))%nat with n by lia.
    cbn [option_map]. unfold Re.cap_text. now rewrite Hl. }
  exists (Str.slice a b s). split; [exact Hgrp|]. split.
  { unfold req. now rewrite Hgrp. }
  split.
  - pose proof (length_slice a b s Hab Hbl) as Hls.
    destruct (Str.slice a b s); [simpl in Hls; lia | reflexivity].
  - now apply (all_chars_count (re_chars r1)).
Qed.

(** ** Ids across files *)

Lemma fold_left_invariant_In {S M : Type} (P : S -> Prop) (step : S -> M -> S)
    (ms : list M) (s : S) :
  P s -> (forall s' m, In m ms -> P s' -> P (step s' m)) -> P (fold_left step ms s).
Proof.
  revert s. induction ms as [|m ms IH]; intros s Hs Hstep; simpl; [exact Hs|].
  apply IH.
  - apply Hstep; [now left | exact Hs].
  - intros s' m' Hin. apply Hstep. now right.
Qed.

Lemma count_char_app c a b :
  Str.count_char c (a ++ b) = (Str.count_char c a + Str.count_char c b)%nat.
Proof. induction a as [|d a IH]; simpl; [reflexivity|]. rewrite IH. lia. Qed.

Lemma append_nil_r (s : string) : s ++ EmptyString = s.
Proof. induction s as [|x s IH]; simpl; [reflexivity | now rewrite IH]. Qed.

(** A path and a clean name are told apart by the last colon. *)
Lemma colon_split (p1 p2 q1 q2 : string) :
  Str.count_char ":" q1 = 0%nat -> Str.count_char ":" q2 = 0%nat ->
  p1 ++ ":" ++ q1 = p2 ++ ":" ++ q2 -> p1 = p2 /\ q1 = q2.
Proof.
  intros H1 H2. revert p2.
  induction p1 as [|x p1 IH]; intros [|y p2] H; simpl in H.
  - injection H as H. now split.
  - injection H as Hy H. subst q1.
    rewrite count_char_app in H1. simpl in H1. lia.
  - injection H as Hx H. subst q2.
    rewrite count_char_app in H2. simpl in H2. lia.
  - injection H as Hxy H. subst y. destruct (IH p2 H) as [-> ->]. now split.
Qed.

Lemma named_emit pkg b ns es :
  named_batch pkg b -> Forall (named_node pkg) ns -> named_batch pkg (emit b ns es).
Proof.
  unfold named_batch, emit. simpl. intros Hb Hns. apply Forall_app. now split.
Qed.

Lemma named_initial lang pkg content path :
  named_batch pkg ([file_node_of lang content path], []).
Proof. constructor; [|constructor]. intros q Hq. discriminate. Qed.

Lemma clean_qualify pkg name :
  Str.count_char ":" pkg = 0%nat -> clean_name name -> clean_name (Java.qualify pkg name).
Proof.
  intros Hp [Hn Hc]. unfold Java.qualify.
  destruct pkg as [|x pkg]; [now split|]. cbn [Str.nonempty].
  split; [reflexivity|].
  rewrite count_char_app, count_char_app, Hp, Hc. reflexivity.
Qed.

Lemma package_name_clean content : Str.count_char ":" (Java.package_name content) = 0%nat.
Proof.
  unfold Java.package_name.
  destruct (Re.finditer Patterns.JAVA_package 1 (_remove_java_comments content))
    as [|m ms] eqn:Hms; [reflexivity|].
  assert (Hin : In m (Re.finditer Patterns.JAVA_package 1 (_remove_java_comments content))).
  { rewrite Hms. now left. }
  destruct (finditer_group _ _ _ m 1 ":" Hin) as (t & _ & -> & _ & Hc);
    [lia | lia | vm_compute; reflexivity | vm_compute; reflexivity | exact Hc].
Qed.

(** The group that names a declaration is clean. *)
Ltac clean_group Hm n :=
  let t := fresh "t" in
  let Hne := fresh "Hne" in
  let Hc := fresh "Hc" in
  destruct (finditer_group _ _ _ _ n ":" Hm) as (t & _ & -> & Hne & Hc);
  [lia | lia | vm_compute; reflexivity | vm_compute; reflexivity | ].

Ltac named_step n :=
  let b := fresh "b" in let m := fresh "m" in
  let Hm := fresh "Hm" in let Hb := fresh "Hb" in
  let q := fresh "q" in let Hq := fresh "Hq" in
  intros b m Hm Hb; apply named_emit; [exact Hb|];
  first [constructor; fail
        |constructor; [|constructor];
         intros q Hq; cbn in Hq; injection Hq as <-;
         clean_group Hm n; now split].

Ltac named_fold pkg := apply (fold_left_invariant_In (named_batch pkg)).

Lemma ts_batch_named content path :
  named_batch EmptyString (TS.extract_batch content path).
Proof.
  unfold TS.extract_batch.
  named_fold EmptyString; [|unfold TS.type_step; named_step 1%nat].
  named_fold EmptyString; [|unfold TS.interface_step; named_step 1%nat].
  named_fold EmptyString; [|unfold TS.class_step; named_step 1%nat].
  named_fold EmptyString; [|unfold TS.function_step; named_step 1%nat].
  named_fold EmptyString; [|unfold TS.function_step; named_step 1%nat].
  named_fold EmptyString; [|unfold TS.import_step; named_step 1%nat].
  apply named_initial.
Qed.

Lemma py_batch_named content path b :
  PY.extract_batch content path = Ret b -> named_batch EmptyString b.
Proof.
  unfold PY.extract_batch. intros H. apply bind_ret in H as (b0 & H0 & H).
  injection H as <-.
  named_fold EmptyString; [|unfold PY.const_step; named_step 1%nat].
  named_fold EmptyString; [|unfold PY.class_step; named_step 1%nat].
  named_fold EmptyString; [|unfold PY.function_step; named_step 1%nat].
  revert b0 H0.
  apply (fold_left_invariant
           (fun o => forall b', o = Ret b' -> named_batch EmptyString b')).
  - intros b' Hb'. injection Hb' as <-. apply named_initial.
  - intros o m Ho b' Hb'. unfold PY.import_step in Hb'.
    apply bind_ret in Hb' as (b1 & -> & Hb').
    apply bind_ret in Hb' as (t & _ & Hb'). injection Hb' as <-.
    apply named_emit; [now apply Ho | constructor].
Qed.

Ltac java_type_step n :=
  let q := fresh "q" in let Hq := fresh "Hq" in
  apply named_emit; [assumption|];
  constructor; [|constructor];
  intros q Hq; cbn in Hq; injection Hq as <-;
  apply clean_qualify; [apply package_name_clean|];
  match goal with Hm : In _ (Re.finditer _ _ _) |- _ => clean_group Hm n end;
  now split.

Lemma java_batch_named content path :
  named_batch (Java.package_name content) (Java.extract_batch content path).
Proof.
  unfold Java.extract_batch.
  named_fold (Java.package_name content); [|unfold Java.constant_step; named_step 2%nat].
  named_fold (Java.package_name content).
  2:{ intros b m Hm Hb. unfold Java.method_step.
      destruct (Java.suppressed _ m); [exact Hb|].
      apply named_emit; [exact Hb|]. constructor; [|constructor].
      intros q Hq. cbn in Hq. injection Hq as <-.
      clean_group Hm 2%nat. now split. }
  unfold Java.types_batch.
  named_fold (Java.package_name content);
    [|intros b m Hm Hb; unfold Java.annotation_step; java_type_step 1%nat].
  named_fold (Java.package_name content);
    [|intros b m Hm Hb; unfold Java.enum_step; java_type_step 1%nat].
  named_fold (Java.package_name content);
    [|intros b m Hm Hb; unfold Java.interface_step; java_type_step 1%nat].
  apply (fold_left_invariant_In
           (fun st => named_batch (Java.package_name content) (fst st))).
  - cbn [fst]. named_fold (Java.package_name content);
      [apply named_initial | unfold Java.import_step; named_step 1%nat].
  - intros [b stack] m Hm Hb. unfold Java.class_step. cbn [fst] in *.
    java_type_step 1%nat.
Qed.

(** Every node of a single-file result follows the identifier scheme, with
    a clean name in its id. *)
Lemma extract_from_file_named fs p r :
  extract_from_file fs p = Ret r ->
  exists pkg, Forall (well_formed_node pkg p) (nodes r) /\
              Forall (named_node pkg) (nodes r).
Proof.
  unfold extract_from_file.
  destruct (negb (path_exists fs p)).
  { intros H. injection H as <-. exists EmptyString. split; constructor. }
  destruct (detect_language p) as [lang|].
  2:{ intros H. injection H as <-. exists EmptyString. split; constructor. }
  destruct (read_text_file fs p) as [content|msg|msg|exn];
    try (intros H; injection H as <-; exists EmptyString; split; constructor);
    [|discriminate].
  destruct (mem lang ["typescript"; "javascript"]).
  { intros H. injection H as <-. exists EmptyString.
    split; [apply ts_batch_well_formed | apply ts_batch_named]. }
  destruct (String.eqb lang "python").
  { unfold extract_python. intros H. apply bind_ret in H as (b & Hb & H).
    injection H as <-. exists EmptyString.
    split; [exact (py_batch_well_formed _ _ _ Hb) | exact (py_batch_named _ _ _ Hb)]. }
  destruct (String.eqb lang "java").
  { intros H. injection H as <-. exists (Java.package_name content).
    split; [apply java_batch_well_formed | apply java_batch_named]. }
  intros H. injection H as <-. exists EmptyString. split; constructor.
Qed.

(** The path of the file is part of the id: two nodes with the same id
    are nodes of files with the same path. *)
Lemma well_formed_id_path pkg1 pkg2 path1 path2 n1 n2 :
  well_formed_node pkg1 path1 n1 -> well_formed_node pkg2 path2 n2 ->
  named_node pkg1 n1 -> named_node pkg2 n2 ->
  node_id n1 = node_id n2 -> path1 = path2.
Proof.
  intros (Hk1 & _ & Hid1 & _) (Hk2 & _ & Hid2 & _) Hn1 Hn2 Heq.
  rewrite Hid1, Hid2, !scheme_id_name, !make_node_id_split in Heq.
  apply kind_prefix_inj in Heq as [Hkind Hrest]; try now apply kinds_dot_free.
  unfold named_node in Hn1, Hn2.
  destruct (scheme_name pkg1 n1) as [q1|] eqn:E1;
    destruct (scheme_name pkg2 n2) as [q2|] eqn:E2.
  - destruct (Hn1 q1 eq_refl) as [Hne1 Hc1]. destruct (Hn2 q2 eq_refl) as [Hne2 Hc2].
    unfold id_suffix in Hrest. rewrite Hne1, Hne2 in Hrest.
    now apply colon_split in Hrest as [-> _].
  - exfalso. unfold scheme_name in E1, E2. rewrite <- Hkind in E2.
    destruct (String.eqb (node_kind n1) "file"); [discriminate|].
    destruct (Java.is_type_node n2); discriminate.
  - exfalso. unfold scheme_name in E1, E2. rewrite <- Hkind in E2.
    destruct (String.eqb (node_kind n1) "file"); [|destruct (Java.is_type_node n1); discriminate].
    discriminate.
  - unfold id_suffix in Hrest. now rewrite !append_nil_r in Hrest.
Qed.

(** Within a file the id is a function of kind and name. *)
Lemma well_formed_same_id pkg path n1 n2 :
  well_formed_node pkg path n1 -> well_formed_node pkg path n2 ->
  node_kind n1 = node_kind n2 -> node_name n1 = node_name n2 ->
  node_id n1 = node_id n2.
Proof.
  intros (_ & _ & Hid1 & _) (_ & _ & Hid2 & _) Hk Hn.
  rewrite Hid1, Hid2. unfold scheme_id, Java.is_type_node. now rewrite Hk, Hn.
Qed.

(** C9, amended. Node ids are distinct exactly for nodes that differ in
    file, kind or name.  In a single-file result, two nodes have the same
    id if and only if they have the same kind and the same name; in the
    aggregated batch of a directory run, two nodes have the same id if and
    only if they are nodes of the same file with the same kind and the same
    name.  So declarations of one file that share kind and name share their
    id, and nothing else does. *)
Theorem node_ids_determine_kind_and_name :
  (forall fs p r n1 n2,
     extract_from_file fs p = Ret r ->
     In n1 (nodes r) -> In n2 (nodes r) ->
     (node_id n1 = node_id n2 <->
      node_kind n1 = node_kind n2 /\ node_name n1 = node_name n2)) /\
  (forall fs directory incremental file_hashes out n1 n2,
     extract_from_directory fs directory incremental file_hashes = Ret out ->
     In n1 (all_nodes out) -> In n2 (all_nodes out) ->
     (node_id n1 = node_id n2 <->
      node_file_path n1 = node_file_path n2 /\
      node_kind n1 = node_kind n2 /\ node_name n1 = node_name n2)).
Proof.
  assert (Hfile : forall fs p r n1 n2,
            extract_from_file fs p = Ret r ->
            In n1 (nodes r) -> In n2 (nodes r) ->
            (node_id n1 = node_id n2 <->
             node_kind n1 = node_kind n2 /\ node_name n1 = node_name n2)).
  { intros fs p r n1 n2 Hr H1 H2.
    destruct (extract_from_file_well_formed _ _ _ Hr) as [pkg Hwf].
    rewrite List.Forall_forall in Hwf. split.
    - apply (well_formed_id_inj pkg p); auto.
    - intros [Hk Hn]. apply (well_formed_same_id pkg p); auto. }
  split; [exact Hfile|].
  intros fs directory incremental file_hashes out n1 n2 Hrun H1 H2.
  unfold extract_from_directory in Hrun.
  destruct (negb (path_isdir fs directory)).
  { injection Hrun as <-. destruct H1. }
  destruct (proj1 (run_files_provenance _ _ _ _ _ _ Hrun) n1 H1)
    as [[]|(e1 & r1 & _ & _ & Hr1 & _ & Hn1)].
  destruct (proj1 (run_files_provenance _ _ _ _ _ _ Hrun) n2 H2)
    as [[]|(e2 & r2 & _ & _ & Hr2 & _ & Hn2)].
  destruct (extract_from_file_named _ _ _ Hr1) as (pkg1 & Hwf1 & Hnm1).
  destruct (extract_from_file_named _ _ _ Hr2) as (pkg2 & Hwf2 & Hnm2).
  rewrite List.Forall_forall in Hwf1, Hwf2, Hnm1, Hnm2.
  destruct (Hwf1 n1 Hn1) as (_ & Hp1 & _). destruct (Hwf2 n2 Hn2) as (_ & Hp2 & _).
  assert (Hsame : entry_path e1 = entry_path e2 ->
            (node_id n1 = node_id n2 <->
             node_kind n1 = node_kind n2 /\ node_name n1 = node_name n2)).
  { intros Heq. rewrite Heq, Hr2 in Hr1. injection Hr1 as <-.
    apply (Hfile fs (entry_path e2) r2); auto. }
  split.
  - intros Hid.
    assert (Heq : entry_path e1 = entry_path e2).
    { apply (well_formed_id_path pkg1 pkg2 _ _ n1 n2); auto. }
    split; [congruence|]. now apply Hsame.
  - intros (Hpath & Hk & Hn). apply Hsame; [congruence | now split].
Qed.

Lemma node_ids_determine_kind_and_name_witness :
  line_start (Samples.overload 2) <> line_start (Samples.overload 3) /\
  (node_id (Samples.overload 2) = node_id (Samples.overload 3) <->
   node_kind (Samples.overload 2) = node_kind (Samples.overload 3) /\
   node_name (Samples.overload 2) = node_name (Samples.overload 3)).
Proof.
  split; [vm_compute; discriminate|].
  apply (proj1 node_ids_determine_kind_and_name Samples.overloads_fs "proj/A.java"
           (extract_java Samples.overloads_java "proj/A.java")).
  - reflexivity.
  - vm_compute. right. right. left. reflexivity.
  - vm_compute. right. right. right. left. reflexivity.
Defined.

(** ** The edges of a batch, loop by loop *)

Lemma fold_left_filter {S M E : Type} (proj : S -> list E) (P : E -> bool)
    (step : S -> M -> S) (F : M -> list E) (ms : list M) (s : S) :
  (forall s' m, List.filter P (proj (step s' m))
                = (List.filter P (proj s') ++ F m)%list) ->
  List.filter P (proj (fold_left step ms s))
  = (List.filter P (proj s) ++ flat_map F ms)%list.
Proof.
  intros Hstep. revert s.
  induction ms as [|m ms IH]; intros s; simpl; [now rewrite app_nil_r|].
  now rewrite IH, Hstep, <- app_assoc.
Qed.

Lemma filter_emit_edges (P : CodeEdge -> bool) b ns es :
  List.filter P (snd (emit b ns es)) = (List.filter P (snd b) ++ List.filter P es)%list.
Proof. unfold emit. cbn [snd]. apply List.filter_app. Qed.

Lemma filter_emit_nodes (P : CodeNode -> bool) b ns es :
  List.filter P (fst (emit b ns es)) = (List.filter P (fst b) ++ List.filter P ns)%list.
Proof. unfold emit. cbn [fst]. apply List.filter_app. Qed.


Lemma filter_none {A : Type} (P : A -> bool) (l : list A) :
  (forall x, In x l -> P x = false) -> List.filter P l = [].
Proof.
  induction l as [|x l IH]; intros H; simpl; [reflexivity|].
  rewrite (H x (or_introl eq_refl)). apply IH. intros y Hy. apply H. now right.
Qed.

Lemma flat_map_nil {A B : Type} (l : list A) : flat_map (fun _ : A => @nil B) l = [].
Proof. induction l; simpl; auto. Qed.

(** The kinds of the edges a clause yields. *)
Lemma java_list_edges_kind from prefix kind ln names e :
  In e (Java.list_edges from prefix kind ln names) -> edge_kind e = kind.
Proof.
  unfold Java.list_edges. destruct (truthy names) as [s|]; [|intros []].
  intros H. apply in_flat_map in H as (tok & _ & H).
  destruct (Str.nonempty (Java.bare_name tok)); [|destruct H].
  now destruct H as [<-|[]].
Qed.

Lemma java_extends_edges_kind class_id ln extends e :
  In e (Java.extends_edges class_id ln extends) -> edge_kind e = "extends".
Proof.
  unfold Java.extends_edges. destruct (truthy extends) as [s|]; [|intros []].
  now intros [<-|[]].
Qed.










(** A loop whose steps add no edge that [P] selects. *)
Lemma fold_left_filter_none {S M E : Type} (proj : S -> list E) (P : E -> bool)
    (step : S -> M -> S) (ms : list M) (s : S) :
  (forall s' m, List.filter P (proj (step s' m)) = List.filter P (proj s')) ->
  List.filter P (proj (fold_left step ms s)) = List.filter P (proj s).
Proof.
  intros Hstep.
  rewrite (fold_left_filter proj P step (fun _ => [])).
  - now rewrite flat_map_nil, app_nil_r.
  - intros s' m. now rewrite Hstep, app_nil_r.
Qed.


Lemma java_method_step_edges (P : CodeEdge -> bool) content path names ranges b m :
  P (defines_edge (make_node_id "file" path None)
                  (make_node_id "function" path (Some (req m 2)))) = false ->
  (forall from to ln, P (mkEdge from to "contains" ln conf_literal) = false) ->
  List.filter P (snd (Java.method_step content path names ranges b m))
  = List.filter P (snd b).
Proof.
  intros Hd Hc. unfold Java.method_step.
  destruct (Java.suppressed names m); [reflexivity|].
  rewrite filter_emit_edges.
  destruct (truthy _); cbn [List.filter]; rewrite ?Hd, ?Hc; apply app_nil_r.
Qed.


Lemma flat_map_single {A B : Type} (g : A -> B) (l : list A) :
  flat_map (fun x => [g x]) l = map g l.
Proof. induction l as [|x l IH]; simpl; [reflexivity | now rewrite IH]. Qed.

Lemma has_kind_list_edges k from prefix kind ln names :
  String.eqb kind k = false ->
  List.filter (has_kind k) (Java.list_edges from prefix kind ln names) = [].
Proof.
  intros Hk. apply filter_none. intros e He. unfold has_kind.
  now rewrite (java_list_edges_kind _ _ _ _ _ _ He).
Qed.

Lemma has_kind_extends_edges k class_id ln extends :
  String.eqb "extends" k = false ->
  List.filter (has_kind k) (Java.extends_edges class_id ln extends) = [].
Proof.
  intros Hk. apply filter_none. intros e He. unfold has_kind.
  now rewrite (java_extends_edges_kind _ _ _ _ He).
Qed.

(** The [imports] edges of a Java batch: one per match of the import
    pattern, in the order of the matches. *)
Lemma java_imports_edges content path :
  List.filter (has_kind "imports") (snd (Java.extract_batch content path))
  = map (fun m => imports_edge (make_node_id "file" path None)
                               (Java.import_target (req m 1))
                               (line_of (_remove_java_comments content) m))
        (Re.finditer Patterns.JAVA_import 1 (_remove_java_comments content)).
Proof.
  unfold Java.extract_batch. cbv zeta.
  rewrite (fold_left_filter_none (S:=batch) snd);
    [|intros b m; unfold Java.constant_step; rewrite filter_emit_edges; apply app_nil_r].
  rewrite (fold_left_filter_none (S:=batch) snd);
    [|intros b m; now apply java_method_step_edges].
  unfold Java.types_batch. cbv zeta.
  rewrite (fold_left_filter_none (S:=batch) snd);
    [|intros b m; unfold Java.annotation_step; rewrite filter_emit_edges; apply app_nil_r].
  rewrite (fold_left_filter_none (S:=batch) snd).
  2:{ intros b m. unfold Java.enum_step. rewrite filter_emit_edges, List.filter_app.
      rewrite has_kind_list_edges by reflexivity. apply app_nil_r. }
  rewrite (fold_left_filter_none (S:=batch) snd).
  2:{ intros b m. unfold Java.interface_step. rewrite filter_emit_edges, List.filter_app.
      rewrite has_kind_list_edges by reflexivity. apply app_nil_r. }
  pose proof (fold_left_filter_none
                (fun st : batch * list Java.stack_entry => snd (fst st))
                (has_kind "imports") (Java.class_step content path)) as Hclass.
  cbn beta in Hclass. rewrite Hclass; clear Hclass.
  2:{ intros [b stack] m. unfold Java.class_step. cbn [fst].
      rewrite filter_emit_edges, !List.filter_app.
      rewrite has_kind_list_edges, has_kind_extends_edges by reflexivity.
      replace (List.filter (has_kind "imports") [_]) with (@nil CodeEdge).
      2:{ destruct stack as [|[[? ?] pend] ?]; [reflexivity|].
          now destruct (_ <? pend)%nat. }
      apply app_nil_r. }
  cbn [fst].
  rewrite (fold_left_filter (S:=batch) snd (has_kind "imports") _
             (fun m => [imports_edge (make_node_id "file" path None)
                                     (Java.import_target (req m 1))
                                     (line_of (_remove_java_comments content) m)])).
  2:{ intros b m. unfold Java.import_step. now rewrite filter_emit_edges. }
  cbn [snd List.filter app]. apply flat_map_single.
Qed.




(** ** The nested-class scenario *)

Lemma java_import_fold_nodes content path ms b :
  fst (fold_left (Java.import_step content path) ms b) = fst b.
Proof.
  revert b. induction ms as [|m ms IH]; intros b; simpl; [reflexivity|].
  rewrite IH. unfold Java.import_step, emit. cbn [fst]. apply app_nil_r.
Qed.

Lemma java_import_fold_edges k content path ms b :
  String.eqb "imports" k = false ->
  List.filter (has_kind k) (snd (fold_left (Java.import_step content path) ms b))
  = List.filter (has_kind k) (snd b).
Proof.
  intros Hk. apply (fold_left_filter_none (S:=batch) snd).
  intros b' m. unfold Java.import_step. rewrite filter_emit_edges.
  cbn [List.filter]. unfold has_kind at 2. cbn [edge_kind imports_edge].
  rewrite Hk. apply app_nil_r.
Qed.

(** Suppressed method matches can be left out of the method loop. *)
Lemma java_method_fold_filter content path names ranges ms b :
  fold_left (Java.method_step content path names ranges) ms b
  = fold_left (Java.method_step content path names ranges)
              (List.filter (fun m => negb (Java.suppressed names m)) ms) b.
Proof.
  revert b. induction ms as [|m ms IH]; intros b; simpl; [reflexivity|].
  destruct (Java.suppressed names m) eqn:Hs; simpl.
  - rewrite <- IH. f_equal. unfold Java.method_step. now rewrite Hs.
  - apply IH.
Qed.

Lemma nested_scenario content file_path mC mD mm :
  nested_shape content mC mD mm ->
  map (fun n => (node_id n, node_kind n, node_name n))
      (List.filter (fun n => negb (is_file_node n))
                   (fst (Java.extract_batch content file_path)))
    = [ (make_node_id "class" file_path (Some "a.b.C"), "class", "C");
        (make_node_id "class" file_path (Some "a.b.D"), "class", "D");
        (make_node_id "function" file_path (Some "m"), "function", "m") ] /\
  map edge_key (List.filter (has_kind "contains")
                            (snd (Java.extract_batch content file_path)))
    = [ (make_node_id "class" file_path (Some "a.b.C"),
         make_node_id "class" file_path (Some "a.b.D"), "contains");
        (make_node_id "class" file_path (Some "a.b.D"),
         make_node_id "function" file_path (Some "m"), "contains") ].
Proof.
  unfold nested_shape, java_block_end, java_line. cbv zeta.
  intros (Hpkg & Hcls & HC & HD & Hif & Hen & Han & Hco & Hme & Hm & HCD & HDe & HDm & Hme').
  assert (Htypes : exists es,
            Java.types_batch content file_path
            = ([ file_node_of "java" content file_path;
                 mkNode (make_node_id "class" file_path (Some "a.b.C")) "class" "C"
                        file_path (line_of (_remove_java_comments content) mC)
                        (_find_java_block_end
                           (Str.split_on Str.nl (_remove_java_comments content))
                           (line_of (_remove_java_comments content) mC - 1))
                        None (Some "java") (Some (Java.visibility_of (Re.m_text mC))) None;
                 mkNode (make_node_id "class" file_path (Some "a.b.D")) "class" "D"
                        file_path (line_of (_remove_java_comments content) mD)
                        (_find_java_block_end
                           (Str.split_on Str.nl (_remove_java_comments content))
                           (line_of (_remove_java_comments content) mD - 1))
                        None (Some "java") (Some (Java.visibility_of (Re.m_text mD))) None ],
               es) /\
            List.filter (has_kind "contains") es
            = [ mkEdge (make_node_id "class" file_path (Some "a.b.C"))
                       (make_node_id "class" file_path (Some "a.b.D")) "contains"
                       (Some (line_of (_remove_java_comments content) mD)) conf_literal ]).
  { unfold Java.types_batch. cbv zeta. rewrite Han, Hen, Hif, Hcls.
    cbn [fold_left]. unfold Java.class_step. rewrite Hpkg, HC, HD.
    apply Nat.ltb_lt in HDe. rewrite HDe.
    eexists. split.
    - unfold emit. cbn [fst snd]. rewrite java_import_fold_nodes. reflexivity.
    - rewrite !List.filter_app.
      rewrite java_import_fold_edges by reflexivity.
      rewrite !has_kind_list_edges, !has_kind_extends_edges by reflexivity.
      reflexivity. }
  destruct Htypes as (es & Htypes & Hes).
  unfold Java.extract_batch. cbv zeta. rewrite Hco. cbn [fold_left].
  rewrite java_method_fold_filter. rewrite Htypes. cbn [fst].
  change (Java.type_names_of _) with ["C"; "D"].
  rewrite Hme. cbn [fold_left]. unfold Java.method_step.
  assert (Hs : Java.suppressed ["C"; "D"] mm = false).
  { assert (Hin : In mm [mm]) by now left.
    rewrite <- Hme in Hin. apply filter_In in Hin as [_ Hn].
    now apply negb_true_iff in Hn. }
  rewrite Hs, Hm.
  set (cleaned := _remove_java_comments content) in *.
  set (lC := line_of cleaned mC) in *. set (lD := line_of cleaned mD) in *.
  set (lm := line_of cleaned mm) in *.
  set (eC := _find_java_block_end (Str.split_on Str.nl cleaned) (lC - 1)) in *.
  set (eD := _find_java_block_end (Str.split_on Str.nl cleaned) (lD - 1)) in *.
  change (Java.type_ranges_of _)
    with (Java.insert_range
            ("C", make_node_id "class" file_path (Some "a.b.C"), lC, eC)
            [("D", make_node_id "class" file_path (Some "a.b.D"), lD, eD)]).
  cbn [Java.insert_range Java.range_start fst snd].
  replace (lC <=? lD)%nat with true by (symmetry; apply Nat.leb_le; lia).
  unfold Java.containing_class.
  cbn [rev app find].
  assert (Hin : Java.encloses lm ("D", make_node_id "class" file_path (Some "a.b.D"), lD, eD)
                = true).
  { unfold Java.encloses, Java.range_start, Java.range_end. cbn [fst snd].
    apply andb_true_intro. split; apply Nat.ltb_lt; assumption. }
  rewrite Hin. unfold Java.range_id. cbn [fst snd truthy].
  split.
  - reflexivity.
  - unfold emit. cbn [snd]. rewrite List.filter_app, Hes. reflexivity.
Qed.

(** C3, as stated, fails.  With the inner class declared
    [private static final class D] (modifiers in an order the class pattern
    does not accept) the source still has the package [a.b], the class [C]
    containing [D] and [D] containing [m], but extraction yields two
    non-file nodes, [C] and [m], and a single [contains] edge, from [C] to
    [m].  With the whole scenario on one line no declaration starts a line,
    and extraction yields the file node alone. *)
Lemma static_inner_class_missed :
  (map (fun n => (node_id n, node_kind n, node_name n))
       (List.filter (fun n => negb (is_file_node n))
                    (nodes (extract_java Samples.static_inner_java "C.java")))
     = [ ("class.C.java:a.b.C", "class", "C");
         ("function.C.java:m", "function", "m") ] /\
   map edge_key (List.filter (has_kind "contains")
                             (edges (extract_java Samples.static_inner_java "C.java")))
     = [ ("class.C.java:a.b.C", "function.C.java:m", "contains") ]) /\
  (List.filter (fun n => negb (is_file_node n))
               (nodes (extract_java Samples.one_line_java "C.java")) = [] /\
   edges (extract_java Samples.one_line_java "C.java") = []).
Proof. repeat split; vm_compute; reflexivity. Qed.

(** C3, amended. For Java source in which the patterns of the extractor
    see the scenario (after comment removal: the package [a.b], the classes
    [C] and [D] and no other type, the line of [D] inside the block of [C],
    the method [m] as the only method match that is not suppressed, its
    line inside the block of [D], and no constant), extraction yields, for
    any file path, exactly three non-file nodes, for [C], [D] and [m], and
    exactly two [contains] edges, [C] to [D] and [D] to [m].  In general a
    method match that is not suppressed yields one function node and one
    edge to it: a [contains] edge from the innermost type range that
    strictly contains the start line of the method when there is such a
    range, a [defines] edge from the file node when there is none. *)
Theorem nested_method_attribution :
  (forall content file_path mC mD mm,
     nested_shape content mC mD mm ->
     let r := extract_java content file_path in
     map (fun n => (node_id n, node_kind n, node_name n))
         (List.filter (fun n => negb (is_file_node n)) (nodes r))
       = [ (make_node_id "class" file_path (Some "a.b.C"), "class", "C");
           (make_node_id "class" file_path (Some "a.b.D"), "class", "D");
           (make_node_id "function" file_path (Some "m"), "function", "m") ] /\
     map edge_key (List.filter (has_kind "contains") (edges r))
       = [ (make_node_id "class" file_path (Some "a.b.C"),
            make_node_id "class" file_path (Some "a.b.D"), "contains");
           (make_node_id "class" file_path (Some "a.b.D"),
            make_node_id "function" file_path (Some "m"), "contains") ]) /\
  (forall content file_path b m,
     let types := fst (Java.types_batch content file_path) in
     let ranges := Java.type_ranges_of types in
     Java.suppressed (Java.type_names_of types) m = false ->
     exists method_node owner_edge,
       Java.method_step content file_path (Java.type_names_of types) ranges b m
         = emit b [method_node] [owner_edge] /\
       node_kind method_node = "function" /\
       to_id owner_edge = node_id method_node /\
       ((exists t, innermost_enclosing ranges (line_start method_node) t /\
                   from_id owner_edge = Java.range_id t /\
                   edge_kind owner_edge = "contains") \/
        ((forall t, In t ranges -> ~ strictly_encloses (line_start method_node) t) /\
         from_id owner_edge = make_node_id "file" file_path None /\
         edge_kind owner_edge = "defines"))).
Proof.
  split.
  - intros content file_path mC mD mm Hshape r. subst r.
    unfold extract_java. cbn [nodes edges].
    exact (nested_scenario content file_path mC mD mm Hshape).
  - intros content file_path b m types ranges Hs.
    unfold Java.method_step. rewrite Hs.
    eexists. eexists. split; [reflexivity|].
    split; [reflexivity|]. cbn [node_id node_kind line_start].
    pose proof (containing_class_spec types
                  (line_of (_remove_java_comments content) m)) as Hspec.
    fold ranges in Hspec.
    destruct (Java.containing_class ranges
                (line_of (_remove_java_comments content) m)) as [id|] eqn:Hcc.
    + destruct Hspec as (t & Hinner & ->).
      assert (Hne : Str.nonempty (Java.range_id t) = true).
      { destruct Hinner as (Hin & _).
        apply type_ranges_of_In in Hin as (n & Hn & _ & ->).
        pose proof (java_types_batch_well_formed content file_path) as Hwf.
        unfold well_formed_batch in Hwf. rewrite List.Forall_forall in Hwf.
        apply (well_formed_id_nonempty _ _ _ (Hwf n Hn)). }
      cbn [truthy]. rewrite Hne. cbn [to_id from_id edge_kind].
      split; [reflexivity|]. left. exists t. auto.
    + cbn [truthy defines_edge to_id from_id edge_kind].
      split; [reflexivity|]. right. auto.
Qed.

Lemma nested_method_attribution_witness :
  (let r := extract_java Samples.nested_java "C.java" in
   map (fun n => (node_id n, node_kind n, node_name n))
       (List.filter (fun n => negb (is_file_node n)) (nodes r))
     = [ (make_node_id "class" "C.java" (Some "a.b.C"), "class", "C");
         (make_node_id "class" "C.java" (Some "a.b.D"), "class", "D");
         (make_node_id "function" "C.java" (Some "m"), "function", "m") ] /\
   map edge_key (List.filter (has_kind "contains") (edges r))
     = [ (make_node_id "class" "C.java" (Some "a.b.C"),
          make_node_id "class" "C.java" (Some "a.b.D"), "contains");
         (make_node_id "class" "C.java" (Some "a.b.D"),
          make_node_id "function" "C.java" (Some "m"), "contains") ]) /\
  (let types := fst (Java.types_batch Samples.nested_java "C.java") in
   exists method_node owner_edge,
     Java.method_step Samples.nested_java "C.java" (Java.type_names_of types)
       (Java.type_ranges_of types) (Java.types_batch Samples.nested_java "C.java")
       Samples.nested_method_match
     = emit (Java.types_batch Samples.nested_java "C.java") [method_node] [owner_edge] /\
     node_kind method_node = "function" /\
     to_id owner_edge = node_id method_node /\
     ((exists t, innermost_enclosing (Java.type_ranges_of types)
                   (line_start method_node) t /\
                 from_id owner_edge = Java.range_id t /\
                 edge_kind owner_edge = "contains") \/
      ((forall t, In t (Java.type_ranges_of types) ->
                  ~ strictly_encloses (line_start method_node) t) /\
       from_id owner_edge = make_node_id "file" "C.java" None /\
       edge_kind owner_edge = "defines"))).
Proof.
  split.
  - apply (proj1 nested_method_attribution Samples.nested_java "C.java"
             (Samples.nested_class_match 0) (Samples.nested_class_match 1)
             Samples.nested_method_match).
    unfold nested_shape. cbv zeta.
    repeat split; vm_compute; first [reflexivity | lia].
  - apply (proj2 nested_method_attribution Samples.nested_java "C.java"
             (Java.types_batch Samples.nested_java "C.java")
             Samples.nested_method_match).
    vm_compute. reflexivity.
Defined.

(** ** Java imports *)

Lemma str_rev_involutive (s : string) : Str.rev (Str.rev s) = s.
Proof.
  induction s as [|c s IH]; [reflexivity|].
  unfold Str.rev at 2. cbn [Str.rev_onto]. rewrite rev_onto_app, rev_app, IH.
  reflexivity.
Qed.

Lemma startswith_split (p s : string) :
  Str.startswith p s = true -> exists t, s = p ++ t.
Proof.
  revert s. induction p as [|a p IH]; intros s H.
  - now exists s.
  - destruct s as [|b s]; [discriminate|]. cbn [Str.startswith] in H.
    apply andb_prop in H as [Hab Hs]. apply Ascii.eqb_eq in Hab. subst b.
    destruct (IH s Hs) as [t ->]. now exists t.
Qed.

Lemma endswith_split (suffix s : string) :
  Str.endswith suffix s = true -> exists t, s = t ++ suffix.
Proof.
  unfold Str.endswith. intros H.
  destruct (startswith_split _ _ H) as [t Ht].
  exists (Str.rev t). rewrite <- (str_rev_involutive s), Ht, rev_app.
  now rewrite str_rev_involutive.
Qed.

Lemma endswith_app (suffix t : string) : Str.endswith suffix (t ++ suffix) = true.
Proof. unfold Str.endswith. rewrite rev_app. apply startswith_app. Qed.

(** A wildcard path [q.*] is given the package-level id of [q]. *)
Lemma import_target_wildcard (q : string) :
  Java.import_target (q ++ ".*") = "package." ++ q.
Proof.
  unfold Java.import_target. rewrite endswith_app, length_app.
  simpl String.length.
  replace (String.length q + 2 - 2)%nat with (String.length q) by lia.
  now rewrite take_app.
Qed.

Lemma import_target_package (p q : string) :
  Java.import_target p = "package." ++ q <-> p = q ++ ".*".
Proof.
  split.
  - unfold Java.import_target. destruct (Str.endswith ".*" p) eqn:He; [|discriminate].
    destruct (endswith_split _ _ He) as [t ->].
    rewrite length_app. simpl String.length.
    replace (String.length t + 2 - 2)%nat with (String.length t) by lia.
    rewrite take_app. intros H. apply append_cancel_l in H. now subst.
  - intros ->. apply import_target_wildcard.
Qed.

Lemma import_target_class (p q : string) :
  Str.endswith ".*" q = false ->
  (Java.import_target p = "class." ++ q <-> p = q).
Proof.
  intros Hq. split.
  - unfold Java.import_target. destruct (Str.endswith ".*" p); [discriminate|].
    intros H. now apply append_cancel_l in H.
  - intros ->. unfold Java.import_target. now rewrite Hq.
Qed.

Lemma filter_map_swap {A B : Type} (P : B -> bool) (g : A -> B) (l : list A) :
  List.filter P (map g l) = map g (List.filter (fun x => P (g x)) l).
Proof.
  induction l as [|x l IH]; simpl; [reflexivity|].
  destruct (P (g x)); simpl; now rewrite IH.
Qed.

Lemma filter_ext_eq {A : Type} (P Q : A -> bool) (l : list A) :
  (forall x, P x = Q x) -> List.filter P l = List.filter Q l.
Proof.
  intros H. induction l as [|x l IH]; simpl; [reflexivity|].
  now rewrite H, IH.
Qed.

(** How many [imports] edges of a Java result have a given target: as many
    as there are import statements whose path gives that target. *)
Lemma java_imports_count content path target import_path :
  (forall p, Java.import_target p = target <-> p = import_path) ->
  List.length (List.filter (fun e => String.eqb (to_id e) target)
                 (List.filter (has_kind "imports") (edges (extract_java content path))))
  = List.length (List.filter (String.eqb import_path) (java_import_paths content)).
Proof.
  intros Hinv. unfold extract_java. cbn [edges].
  rewrite java_imports_edges. unfold java_import_paths.
  rewrite !filter_map_swap, !length_map. f_equal.
  apply filter_ext_eq. intros m. cbn [to_id imports_edge].
  destruct (String.eqb_spec (Java.import_target (req m 1)) target) as [H|H];
    destruct (String.eqb_spec import_path (req m 1)) as [H'|H']; auto.
  - apply Hinv in H. congruence.
  - exfalso. apply H. apply Hinv. auto.
Qed.

(** Every [imports] edge of a Java result starts at the file node, has the
    confidence of a literal fact, and there is one per import statement. *)
Lemma java_imports_origin content path :
  Forall (fun e => from_id e = make_node_id "file" path None /\ confidence e = 1%Q)
         (List.filter (has_kind "imports") (edges (extract_java content path))) /\
  List.length (List.filter (has_kind "imports") (edges (extract_java content path)))
  = List.length (java_import_paths content).
Proof.
  unfold extract_java. cbn [edges]. rewrite java_imports_edges.
  unfold java_import_paths. rewrite !length_map. split; [|reflexivity].
  apply List.Forall_forall. intros e He. apply in_map_iff in He as (m & <- & _).
  split; reflexivity.
Qed.

(** C5, as stated, fails: a Java file with the two import statements on one
    line yields a single [imports] edge, because the import pattern is
    anchored at the start of a line. *)
Lemma imports_on_one_line :
  map edge_key (edges (extract_java Samples.one_line_imports_java "A.java"))
  = [ ("file.A.java", "package.a.b", "imports") ].
Proof. vm_compute. reflexivity. Qed.

(** C5, amended. In a Java file where the import pattern finds the path
    [a.b.*] exactly once and the path [a.b.File] exactly once (each import
    statement at the start of a line of its own), exactly one [imports]
    edge targets the package-level id [package.a.b] and exactly one the
    class-level id [class.a.b.File]; every [imports] edge starts at the file
    node with confidence 1.0, and there are as many as the pattern finds
    import statements. *)
Theorem java_import_scenario (content file_path : string) :
  List.length (List.filter (String.eqb "a.b.*") (java_import_paths content)) = 1%nat ->
  List.length (List.filter (String.eqb "a.b.File") (java_import_paths content)) = 1%nat ->
  let imports := List.filter (has_kind "imports") (edges (extract_java content file_path)) in
  List.length (List.filter (fun e => String.eqb (to_id e) "package.a.b") imports) = 1%nat /\
  List.length (List.filter (fun e => String.eqb (to_id e) "class.a.b.File") imports) = 1%nat /\
  Forall (fun e => from_id e = make_node_id "file" file_path None /\ confidence e = 1%Q)
         imports /\
  List.length imports = List.length (java_import_paths content).
Proof.
  intros Hw Hs imports. subst imports.
  split; [|split; [|apply java_imports_origin]].
  - rewrite (java_imports_count content file_path "package.a.b" "a.b.*"); [exact Hw|].
    intros p. apply (import_target_package p "a.b").
  - rewrite (java_imports_count content file_path "class.a.b.File" "a.b.File"); [exact Hs|].
    intros p. now apply (import_target_class p "a.b.File").
Qed.

Lemma java_import_scenario_witness :
  let imports :=
    List.filter (has_kind "imports") (edges (extract_java Samples.imports_java "A.java")) in
  List.length (List.filter (fun e => String.eqb (to_id e) "package.a.b") imports) = 1%nat /\
  List.length (List.filter (fun e => String.eqb (to_id e) "class.a.b.File") imports) = 1%nat /\
  Forall (fun e => from_id e = make_node_id "file" "A.java" None /\ confidence e = 1%Q)
         imports /\
  List.length imports = List.length (java_import_paths Samples.imports_java).
Proof.
  apply (java_import_scenario Samples.imports_java "A.java"); vm_compute; reflexivity.
Defined.

(** X18. The [imports] edges of a Java result, by target: as many edges
    target the package-level id [package.q] as there are import statements
    with the wildcard path [q.*], and as many target the class-level id
    [class.p] as there are import statements with the path [p], for a path
    that does not end in [.*]; every [imports] edge starts at the file node
    with confidence 1.0, one per import statement. *)
Theorem java_import_targets (content file_path q p : string) :
  let imports := List.filter (has_kind "imports") (edges (extract_java content file_path)) in
  List.length (List.filter (fun e => String.eqb (to_id e) ("package." ++ q)) imports)
  = List.length (List.filter (String.eqb (q ++ ".*")) (java_import_paths content)) /\
  (Str.endswith ".*" p = false ->
   List.length (List.filter (fun e => String.eqb (to_id e) ("class." ++ p)) imports)
   = List.length (List.filter (String.eqb p) (java_import_paths content))) /\
  Forall (fun e => from_id e = make_node_id "file" file_path None /\ confidence e = 1%Q)
         imports /\
  List.length imports = List.length (java_import_paths content).
Proof.
  intros imports. subst imports.
  split; [|split; [|apply java_imports_origin]].
  - apply java_imports_count. intros p'. apply import_target_package.
  - intros Hp. apply java_imports_count. intros p'. now apply import_target_class.
Qed.

Lemma java_import_targets_witness :
  List.length (List.filter (fun e => String.eqb (to_id e) ("class." ++ "a.b.File"))
                 (List.filter (has_kind "imports")
                              (edges (extract_java Samples.imports_java "A.java"))))
  = List.length (List.filter (String.eqb "a.b.File")
                             (java_import_paths Samples.imports_java)).
Proof.
  apply (proj1 (proj2 (java_import_targets Samples.imports_java "A.java" "a.b" "a.b.File"))).
  reflexivity.
Defined.

(** ** Supertype edges: the edges asked for *)









